(** * pci-char: a shallow embedding of src/pci-char.c

    The driver exposes every memory BAR of a matched PCI device as a
    character device.  This development embeds the file operations
    ([dev_open], [dev_seek], [dev_read], [dev_write]), the attach/detach
    callbacks ([pci_probe], [pci_remove]), the node naming
    ([pci_char_devnode]) and the module entry points ([pci_init],
    [pci_exit]) as Rocq functions and proves properties of them.

    Conventions.
    - C integers are [Z] with the wrap-around of their type written out
      ([to_s64], [to_u64], [to_u32]).  The target is a 64-bit kernel:
      [loff_t] and [ssize_t] are signed 64-bit, [size_t] and
      [resource_size_t] unsigned 64-bit, [unsigned int] and [u32] 32-bit.
    - Pointers are [Z]; [NULL] is 0 and [IS_ERR] is the kernel's test
      "one of the last 4095 addresses".
    - Kernel services the driver calls but does not define (ioremap,
      device_create, copy_to_user, readl, ...) are parameters: their return
      values come from an environment record or from Section variables. *)

From Stdlib Require Import ZArith List Bool Lia Permutation.
From Stdlib Require Ascii String.
Import ListNotations.
Local Open Scope Z_scope.

(** ** Machine integers and pointers *)

Definition to_u32 (z : Z) : Z := z mod 2 ^ 32.
Definition to_u64 (z : Z) : Z := z mod 2 ^ 64.
Definition to_s64 (z : Z) : Z := (z + 2 ^ 63) mod 2 ^ 64 - 2 ^ 63.

Definition S64_MAX : Z := 2 ^ 63 - 1.
Definition S64_MIN : Z := - 2 ^ 63.
Definition in_s64 (z : Z) : Prop := S64_MIN <= z <= S64_MAX.
Definition in_u64 (z : Z) : Prop := 0 <= z < 2 ^ 64.

(** errno values of include/uapi/asm-generic/errno-base.h *)
Definition EIO : Z := 5.
Definition ENXIO : Z := 6.
Definition ENOMEM : Z := 12.
Definition EFAULT : Z := 14.
Definition EINVAL : Z := 22.

Definition SEEK_SET : Z := 0.
Definition SEEK_CUR : Z := 1.

Definition NULL : Z := 0.
Definition MAX_ERRNO : Z := 4095.
(** include/linux/err.h: [IS_ERR(p)] is [(unsigned long)p >= (unsigned long)-MAX_ERRNO]. *)
Definition IS_ERR (p : Z) : bool := to_u64 (- MAX_ERRNO) <=? to_u64 p.
(** [PTR_ERR(p)] is [(long) p]. *)
Definition PTR_ERR (p : Z) : Z := to_s64 p.
Definition ERR_PTR (e : Z) : Z := to_u64 e.

(** ** Data model *)

(** [struct bar_t]: a base address register. *)
Record bar_t : Type := mk_bar {
  len : Z;   (* resource_size_t *)
  addr : Z   (* void __iomem * *)
}.

(** [struct pci_char]: the private structure; [bar] has six entries.
    The embedded [cdev] carries no data the driver reads. *)
Record pci_char : Type := mk_pci_char {
  bar : list bar_t;
  major : Z
}.

Definition bar_zero : bar_t := mk_bar 0 NULL.

(** [pchar->bar[i]] *)
Definition bar_at (p : pci_char) (i : Z) : bar_t :=
  nth (Z.to_nat i) (bar p) bar_zero.

(** [pchar->bar[i] = b] *)
Fixpoint upd {A : Type} (l : list A) (i : nat) (x : A) : list A :=
  match l, i with
  | [], _ => []
  | _ :: t, O => x :: t
  | h :: t, S i' => h :: upd t i' x
  end.

Definition set_bar (p : pci_char) (i : Z) (b : bar_t) : pci_char :=
  mk_pci_char (upd (bar p) (Z.to_nat i) b) (major p).

(** The part of [struct file] the driver touches.  [iminor] is the minor
    number of the inode behind the file, that is the BAR index of the node;
    [private_data] is [None] until [dev_open] stores the device record. *)
Record file : Type := mk_file {
  iminor : Z;                       (* unsigned int *)
  f_pos : Z;                        (* loff_t *)
  private_data : option pci_char
}.

(** A file as the VFS hands it to [open]: zeroed, bound to its inode. *)
Definition fresh_file (minor : Z) : file := mk_file minor 0 None.

(** ** File operations: open and seek *)

(** [dev_open] (lines 84-99).  [pchar] is the record found by
    [container_of(inode->i_cdev, ...)]. *)
Definition dev_open (pchar : pci_char) (f : file) : Z * file :=
  let num := iminor f in
  if 5 <? num then (- ENXIO, f)
  else if len (bar_at pchar num) =? 0 then (- EIO, f)
  else (0, mk_file (iminor f) (f_pos f) (Some pchar)).

(** The [switch (whence)] of [dev_seek]; [f_pos + offset] is a [loff_t] sum. *)
Definition seek_target (pos offset whence : Z) : Z :=
  if whence =? SEEK_SET then offset
  else if whence =? SEEK_CUR then to_s64 (pos + offset)
  else - EINVAL.

(** [dev_seek] (lines 101-129).  [None] stands for the dereference of a
    [private_data] that no [dev_open] has set.  [new_pos % 4] is C's
    remainder ([Z.rem]); in [new_pos > len - 4] the right side is unsigned
    64-bit, so the subtraction wraps and [new_pos] is converted to
    unsigned. *)
Definition dev_seek (f : file) (offset whence : Z) : option (Z * file) :=
  match private_data f with
  | None => None
  | Some pchar =>
      let num := iminor f in
      let new_pos := seek_target (f_pos f) offset whence in
      if negb (Z.rem new_pos 4 =? 0) then Some (- EINVAL, f)
      else if (new_pos <? 0)
              || (to_u64 (len (bar_at pchar num) - 4) <? to_u64 new_pos)
      then Some (- EINVAL, f)
      else Some (new_pos, mk_file (iminor f) new_pos (private_data f))
  end.

(** ** File operations: read and write *)

(** One access to device memory, as issued on the bus. *)
Inductive access : Type :=
| Load (a : Z)
| Store (v a : Z).

Section Transfer.
(** The device behind the mapping: [readl] may change the device (read
    side effects), [writel] stores a 32-bit value. *)
Variable hw : Type.
Variable readl : Z -> hw -> Z * hw.
Variable writel : Z -> Z -> hw -> hw.

(** Device state and the bus accesses issued so far, oldest first. *)
Record io : Type := mk_io {
  dev : hw;
  trace : list access
}.

(** The loop of [dev_read] (lines 145-153).  [count] is a multiple of 4
    at loop entry, so the body runs [count / 4] times: [n] counts the
    iterations left.  [a] is [pchar->bar[num].addr + offset], which the
    loop never changes; [tmp] is the word index into the caller's buffer;
    [dst_ok j] tells whether [copy_to_user] to word [j] succeeds; [out]
    collects the words delivered.  Result: [bytes], [err], the words and
    the device. *)
Fixpoint read_loop (dst_ok : nat -> bool) (n : nat) (a : Z) (tmp : nat)
    (bytes : Z) (out : list Z) (s : io) : Z * Z * list Z * io :=
  match n with
  | O => (bytes, 0, out, s)
  | S n' =>
      let (v, d') := readl a (dev s) in
      let data := to_u32 v in
      let s' := mk_io d' (trace s ++ [Load a]) in
      if dst_ok tmp
      then read_loop dst_ok n' a (S tmp) (to_s64 (bytes + 4)) (out ++ [data]) s'
      else (bytes, - EFAULT, out, s')
  end.

(** Result of a read or write call: the return value, the file and
    [*ppos] after the call, the words delivered to the caller (reads
    only) and the device. *)
Record rw_result : Type := mk_rw {
  rw_ret : Z;
  rw_file : file;
  rw_ppos : Z;
  rw_words : list Z;
  rw_io : io
}.

(** [dev_read] (lines 131-156).  [count] is a [size_t]; the pointer sum
    [addr + offset] is taken without wrap-around. *)
Definition dev_read (f : file) (dst_ok : nat -> bool) (count ppos : Z)
    (s : io) : option rw_result :=
  match private_data f with
  | None => None
  | Some pchar =>
      let offset := to_u32 ppos in
      let num := iminor f in
      if negb (count mod 4 =? 0) then Some (mk_rw (- EINVAL) f ppos [] s)
      else
        let '(bytes, err, out, s') :=
          read_loop dst_ok (Z.to_nat (count / 4))
                    (addr (bar_at pchar num) + offset) 0 0 [] s in
        Some (mk_rw (if bytes =? 0 then err else bytes) f ppos out s')
  end.

(** The loop of [dev_write] (lines 172-180).  [src j] is the word
    [copy_from_user] fetches from word [j] of the caller's buffer, [None]
    when the copy faults. *)
Fixpoint write_loop (src : nat -> option Z) (n : nat) (a : Z) (tmp : nat)
    (bytes : Z) (s : io) : Z * Z * io :=
  match n with
  | O => (bytes, 0, s)
  | S n' =>
      match src tmp with
      | None => (bytes, - EFAULT, s)
      | Some v =>
          let data := to_u32 v in
          let s' := mk_io (writel data a (dev s)) (trace s ++ [Store data a]) in
          write_loop src n' a (S tmp) (to_s64 (bytes + 4)) s'
      end
  end.

(** [dev_write] (lines 158-183). *)
Definition dev_write (f : file) (src : nat -> option Z) (count ppos : Z)
    (s : io) : option rw_result :=
  match private_data f with
  | None => None
  | Some pchar =>
      let offset := to_u32 ppos in
      let num := iminor f in
      if negb (count mod 4 =? 0) then Some (mk_rw (- EINVAL) f ppos [] s)
      else
        let '(bytes, err, s') :=
          write_loop src (Z.to_nat (count / 4))
                     (addr (bar_at pchar num) + offset) 0 0 s in
        Some (mk_rw (if bytes =? 0 then err else bytes) f ppos [] s')
  end.
End Transfer.

Arguments mk_io {hw} _ _.
Arguments dev {hw} _.
Arguments trace {hw} _.
Arguments mk_rw {hw} _ _ _ _ _.
Arguments rw_ret {hw} _.
Arguments rw_ppos {hw} _.
Arguments rw_file {hw} _.
Arguments rw_words {hw} _.
Arguments rw_io {hw} _.
Arguments read_loop {hw} _ _ _ _ _ _ _ _.
Arguments write_loop {hw} _ _ _ _ _ _ _.
Arguments dev_read {hw} _ _ _ _ _ _.
Arguments dev_write {hw} _ _ _ _ _ _.

(** A device whose registers behave as plain storage, for running the
    model: the state maps an address to the word last stored there. *)
Definition ram : Type := Z -> Z.
Definition ram_readl (a : Z) (m : ram) : Z * ram := (m a, m).
Definition ram_writel (v a : Z) (m : ram) : ram :=
  fun x => if x =? a then v else m x.
Definition ram_zero : ram := fun _ => 0.


(** ** Attach and detach *)

Definition to_s32 (z : Z) : Z := (z + 2 ^ 31) mod 2 ^ 32 - 2 ^ 31.

(** include/linux/kdev_t.h *)
Definition MINORBITS : Z := 20.
Definition MKDEV (ma mi : Z) : Z := Z.lor (Z.shiftl ma MINORBITS) mi.
Definition MAJOR (d : Z) : Z := Z.shiftr d MINORBITS.

(** What the kernel answers to the calls of one [pci_probe]: the device's
    resources and the outcome of every service that can fail. *)
Record pci_dev : Type := mk_pci_dev {
  kmalloc_ok : bool;               (* kmalloc returned non-NULL *)
  junk_bar : Z -> bar_t;           (* kmalloc does not clear: old contents *)
  junk_major : Z;
  enable_ret : Z;                  (* pci_enable_device_mem *)
  mem_bars : Z;                    (* pci_select_bars(pdev, IORESOURCE_MEM) *)
  request_ret : Z;                 (* pci_request_selected_regions *)
  resource_len : Z -> Z;           (* pci_resource_len(pdev, i) *)
  ioremap_ret : Z -> Z;            (* pointer returned by ioremap for BAR i *)
  chrdev_ret : Z;                  (* alloc_chrdev_region *)
  dev_num : Z;                     (* the dev_t it stores *)
  cdev_add_ret : Z;                (* cdev_add *)
  device_create_ret : Z -> Z       (* pointer returned by device_create *)
}.

(** Calls that acquire or release a kernel resource. *)
Inductive kcall : Type :=
| Kmalloc | Kfree
| PciEnable | PciDisable
| RequestRegions | ReleaseRegions
| Ioremap (i : Z) | Iounmap (a : Z)
| AllocChrdev | UnregisterChrdev
| CdevAdd | CdevDel
| DeviceCreate (d : Z) | DeviceDestroy (d : Z)
| SetDrvdata.

(** The kernel resources one device holds.  [k_log] lists the calls made,
    oldest first; [k_bad] lists the releases of something not held at the
    time (an unmap of an address with no live mapping, a destroy of a node
    that is not published, a free of a freed record, ...). *)
Record kernel : Type := mk_kernel {
  k_live : bool;                   (* the pci_char allocation is live *)
  k_enabled : bool;
  k_regions : bool;
  k_maps : list Z;                 (* live mappings, by address *)
  k_chrdev : bool;
  k_cdev : bool;
  k_nodes : list Z;                (* published nodes, by dev_t *)
  k_drvdata : option pci_char;     (* pci_get_drvdata(pdev) *)
  k_log : list kcall;
  k_bad : list kcall
}.

Definition kernel_init : kernel :=
  mk_kernel false false false [] false false [] None [] [].

Definition logged (c : kcall) (held : bool) (k : kernel) : kernel :=
  mk_kernel (k_live k) (k_enabled k) (k_regions k) (k_maps k) (k_chrdev k)
            (k_cdev k) (k_nodes k) (k_drvdata k) (k_log k ++ [c])
            (if held then k_bad k else k_bad k ++ [c]).

Definition with_live (b : bool) (k : kernel) : kernel :=
  mk_kernel b (k_enabled k) (k_regions k) (k_maps k) (k_chrdev k)
            (k_cdev k) (k_nodes k) (k_drvdata k) (k_log k) (k_bad k).
Definition with_enabled (b : bool) (k : kernel) : kernel :=
  mk_kernel (k_live k) b (k_regions k) (k_maps k) (k_chrdev k)
            (k_cdev k) (k_nodes k) (k_drvdata k) (k_log k) (k_bad k).
Definition with_regions (b : bool) (k : kernel) : kernel :=
  mk_kernel (k_live k) (k_enabled k) b (k_maps k) (k_chrdev k)
            (k_cdev k) (k_nodes k) (k_drvdata k) (k_log k) (k_bad k).
Definition with_maps (m : list Z) (k : kernel) : kernel :=
  mk_kernel (k_live k) (k_enabled k) (k_regions k) m (k_chrdev k)
            (k_cdev k) (k_nodes k) (k_drvdata k) (k_log k) (k_bad k).
Definition with_chrdev (b : bool) (k : kernel) : kernel :=
  mk_kernel (k_live k) (k_enabled k) (k_regions k) (k_maps k) b
            (k_cdev k) (k_nodes k) (k_drvdata k) (k_log k) (k_bad k).
Definition with_cdev (b : bool) (k : kernel) : kernel :=
  mk_kernel (k_live k) (k_enabled k) (k_regions k) (k_maps k) (k_chrdev k)
            b (k_nodes k) (k_drvdata k) (k_log k) (k_bad k).
Definition with_nodes (n : list Z) (k : kernel) : kernel :=
  mk_kernel (k_live k) (k_enabled k) (k_regions k) (k_maps k) (k_chrdev k)
            (k_cdev k) n (k_drvdata k) (k_log k) (k_bad k).
Definition with_drvdata (d : option pci_char) (k : kernel) : kernel :=
  mk_kernel (k_live k) (k_enabled k) (k_regions k) (k_maps k) (k_chrdev k)
            (k_cdev k) (k_nodes k) d (k_log k) (k_bad k).

Definition mem (a : Z) (l : list Z) : bool := existsb (Z.eqb a) l.

(** Removes the first occurrence of [a]. *)
Fixpoint remove_one (a : Z) (l : list Z) : list Z :=
  match l with
  | [] => []
  | x :: t => if a =? x then t else x :: remove_one a t
  end.

(** A pointer that denotes a mapping or an object: neither [NULL] nor an
    encoded error. *)
Definition valid_ptr (p : Z) : bool := negb (p =? NULL) && negb (IS_ERR p).

(** [ioremap] for BAR [i] returning [p]: a mapping exists afterwards only
    when [p] is a valid pointer. *)
Definition ioremap (i p : Z) (k : kernel) : kernel :=
  logged (Ioremap i) true
         (if valid_ptr p then with_maps (k_maps k ++ [p]) k else k).

Definition iounmap (a : Z) (k : kernel) : kernel :=
  logged (Iounmap a) (mem a (k_maps k)) (with_maps (remove_one a (k_maps k)) k).

(** [device_create] for node [d] returning [p]; it reports failure as an
    encoded error. *)
Definition device_create (d p : Z) (k : kernel) : kernel :=
  logged (DeviceCreate d) true
         (if IS_ERR p then k else with_nodes (k_nodes k ++ [d]) k).

Definition device_destroy (d : Z) (k : kernel) : kernel :=
  logged (DeviceDestroy d) (mem d (k_nodes k))
         (with_nodes (remove_one d (k_nodes k)) k).

Definition kfree (k : kernel) : kernel :=
  logged Kfree (k_live k) (with_live false k).
Definition pci_disable_device (k : kernel) : kernel :=
  logged PciDisable (k_enabled k) (with_enabled false k).
Definition pci_release_selected_regions (k : kernel) : kernel :=
  logged ReleaseRegions (k_regions k) (with_regions false k).
Definition unregister_chrdev_region (k : kernel) : kernel :=
  logged UnregisterChrdev (k_chrdev k) (with_chrdev false k).
Definition cdev_del (k : kernel) : kernel :=
  logged CdevDel (k_cdev k) (with_cdev false k).

(** [kmalloc(sizeof(struct pci_char), GFP_KERNEL)]: the record comes with
    whatever the memory held. *)
Definition junk_record (e : pci_dev) : pci_char :=
  mk_pci_char (map (junk_bar e) [0; 1; 2; 3; 4; 5]) (junk_major e).

(** [mem_bars & (1 << i)] *)
Definition bar_selected (e : pci_dev) (i : Z) : bool :=
  negb (Z.land (mem_bars e) (Z.shiftl 1 i) =? 0).

(** The mapping loop of [pci_probe] (lines 218-231), from index [i] with
    [n] indices left.  Result: [err], the value of [i] when the loop is
    left, the record and the kernel. *)
Fixpoint map_loop (e : pci_dev) (n : nat) (i : Z) (pchar : pci_char)
    (k : kernel) : Z * Z * pci_char * kernel :=
  match n with
  | O => (0, i, pchar, k)
  | S n' =>
      if bar_selected e i then
        let p := ioremap_ret e i in
        let k1 := ioremap i p k in
        let pchar1 := set_bar pchar i (mk_bar (len (bar_at pchar i)) p) in
        if IS_ERR p then (to_s32 (PTR_ERR p), i, pchar1, k1)
        else map_loop e n' (i + 1)
                      (set_bar pchar1 i (mk_bar (resource_len e i) p)) k1
      else map_loop e n' (i + 1) (set_bar pchar i (mk_bar 0 NULL)) k
  end.

(** [for (i--; i >= 0; i--) if (pchar->bar[i].len) iounmap(...)]
    (lines 234-236): indices [n - 1] down to 0. *)
Fixpoint unmap_below (n : nat) (pchar : pci_char) (k : kernel) : kernel :=
  match n with
  | O => k
  | S n' =>
      let b := bar_at pchar (Z.of_nat n') in
      unmap_below n' pchar (if len b =? 0 then k else iounmap (addr b) k)
  end.

(** [for (i = 0; i < 6; i++) if (pchar->bar[i].len) iounmap(...)]
    (lines 292-294 and 324-326). *)
Definition unmap_all (pchar : pci_char) (k : kernel) : kernel :=
  fold_left (fun k i =>
               let b := bar_at pchar i in
               if len b =? 0 then k else iounmap (addr b) k)
            [0; 1; 2; 3; 4; 5] k.

(** The node loop of [pci_probe] (lines 257-270). *)
Fixpoint create_loop (e : pci_dev) (n : nat) (i : Z) (pchar : pci_char)
    (k : kernel) : Z * Z * kernel :=
  match n with
  | O => (0, i, k)
  | S n' =>
      if len (bar_at pchar i) =? 0 then create_loop e n' (i + 1) pchar k
      else
        let d := device_create_ret e i in
        let k1 := device_create (MKDEV (major pchar) i) d k in
        if IS_ERR d then (to_s32 (PTR_ERR d), i, k1)
        else create_loop e n' (i + 1) pchar k1
  end.

(** [for (i--; i >= 0; i--) if (pchar->bar[i].len) device_destroy(...)]
    (lines 273-276). *)
Fixpoint destroy_below (n : nat) (pchar : pci_char) (k : kernel) : kernel :=
  match n with
  | O => k
  | S n' =>
      destroy_below n' pchar
        (if len (bar_at pchar (Z.of_nat n')) =? 0 then k
         else device_destroy (MKDEV (major pchar) (Z.of_nat n')) k)
  end.

(** [for (i = 0; i < 6; i++) if (pchar->bar[i].len) device_destroy(...)]
    (lines 315-318). *)
Definition destroy_all (pchar : pci_char) (k : kernel) : kernel :=
  fold_left (fun k i =>
               if len (bar_at pchar i) =? 0 then k
               else device_destroy (MKDEV (major pchar) i) k)
            [0; 1; 2; 3; 4; 5] k.

(** The exit labels of [pci_probe] (lines 285-307); each falls through to
    the next. *)
Definition failure_kmalloc (err : Z) (k : kernel) : Z * kernel := (err, k).
Definition failure_pci_enable (err : Z) (k : kernel) : Z * kernel :=
  failure_kmalloc err (kfree k).
Definition failure_pci_regions (err : Z) (k : kernel) : Z * kernel :=
  failure_pci_enable err (pci_disable_device k).
Definition failure_ioremap (err : Z) (k : kernel) : Z * kernel :=
  failure_pci_regions err (pci_release_selected_regions k).
Definition failure_alloc_chrdev_region (pchar : pci_char) (err : Z)
    (k : kernel) : Z * kernel :=
  failure_ioremap err (unmap_all pchar k).
Definition failure_cdev_add (pchar : pci_char) (err : Z) (k : kernel)
    : Z * kernel :=
  failure_alloc_chrdev_region pchar err (unregister_chrdev_region k).
Definition failure_device_create (pchar : pci_char) (err : Z) (k : kernel)
    : Z * kernel :=
  failure_cdev_add pchar err (cdev_del k).

(** [pci_probe] (lines 193-308): the return value and the kernel after. *)
Definition pci_probe (e : pci_dev) (k : kernel) : Z * kernel :=
  if negb (kmalloc_ok e) then failure_kmalloc (- ENOMEM) (logged Kmalloc true k)
  else
    let k := logged Kmalloc true (with_live true k) in
    let pchar := junk_record e in
    let err := enable_ret e in
    let k := logged PciEnable true
                    (if err =? 0 then with_enabled true k else k) in
    if negb (err =? 0) then failure_pci_enable err k
    else
      let err := request_ret e in
      let k := logged RequestRegions true
                      (if err =? 0 then with_regions true k else k) in
      if negb (err =? 0) then failure_pci_regions err k
      else
        let '(err, i, pchar, k) := map_loop e 6 0 pchar k in
        if negb (err =? 0)
        then failure_ioremap err (unmap_below (Z.to_nat i) pchar k)
        else
          let err := chrdev_ret e in
          let k := logged AllocChrdev true
                          (if err =? 0 then with_chrdev true k else k) in
          if negb (err =? 0) then failure_alloc_chrdev_region pchar err k
          else
            let pchar := mk_pci_char (bar pchar) (MAJOR (dev_num e)) in
            let err := cdev_add_ret e in
            let k := logged CdevAdd true
                            (if err =? 0 then with_cdev true k else k) in
            if negb (err =? 0) then failure_cdev_add pchar err k
            else
              let '(err, i, k) := create_loop e 6 0 pchar k in
              if negb (err =? 0)
              then failure_device_create pchar err
                     (destroy_below (Z.to_nat i) pchar k)
              else (0, logged SetDrvdata true (with_drvdata (Some pchar) k)).

(** [pci_remove] (lines 310-332).  Its first action is to read the device
    record through the driver-data pointer (lines 313-316); it tests
    nothing before that.  [None] stands for an invalid access there: the
    pointer was never set, or it leads to a record that has been freed.
    The function does not clear the driver data (there is no
    [pci_set_drvdata(pdev, NULL)]), so after it the pointer still leads to
    the record it freed at line 331. *)
Definition pci_remove (k : kernel) : option kernel :=
  match k_drvdata k with
  | None => None
  | Some pchar =>
      if k_live k then
        let k := destroy_all pchar k in
        let k := cdev_del k in
        let k := unregister_chrdev_region k in
        let k := unmap_all pchar k in
        let k := pci_release_selected_regions k in
        let k := pci_disable_device k in
        Some (kfree k)
      else None
  end.

(** ** Sample devices *)

(** The device of the spec's scenario: BAR 0 of 4096 bytes and BAR 3 of 256
    bytes are memory; every kernel service succeeds. *)
Definition dev_sample : pci_dev :=
  mk_pci_dev true (fun _ => mk_bar 77 99) 7 0 9 0
             (fun i => if i =? 0 then 4096 else if i =? 3 then 256 else 0)
             (fun i => 1000000 + 65536 * i)
             0 (MKDEV 250 0) 0 (fun i => 5000000 + i).

(** ** Vocabulary of the statements *)

(** The file [f] moved to position [pos]. *)
Definition file_at (f : file) (pos : Z) : file :=
  mk_file (iminor f) pos (private_data f).

(** The position a seek asks for, as a number: the offset itself from the
    start, the current position plus the offset otherwise. *)
Definition target_of (pos offset whence : Z) : Z :=
  if whence =? SEEK_SET then offset else pos + offset.

(** A record with one BAR of length [l] mapped at [a], in slot 0. *)
Definition one_bar (l a : Z) : pci_char :=
  mk_pci_char [mk_bar l a; bar_zero; bar_zero; bar_zero; bar_zero; bar_zero] 250.

(** An open session on slot 0 of [one_bar l a], at position [pos]. *)
Definition session0 (l a pos : Z) : file := mk_file 0 pos (Some (one_bar l a)).

(** The number of words copied before the first faulting copy, among the
    [n] words from index [tmp] on; [n] when no copy faults. *)
Fixpoint ok_prefix (ok : nat -> bool) (tmp n : nat) : nat :=
  match n with
  | O => O
  | S n' => if ok tmp then S (ok_prefix ok (S tmp) n') else O
  end.

(** Whether [copy_from_user] of word [j] succeeds. *)
Definition src_ok (src : nat -> option Z) (j : nat) : bool :=
  match src j with Some _ => true | None => false end.

(** [m] consecutive 32-bit loads from address [a]: the values and the device
    after them. *)
Fixpoint loads {hw : Type} (readl : Z -> hw -> Z * hw) (m : nat) (a : Z)
    (d : hw) : list Z * hw :=
  match m with
  | O => ([], d)
  | S m' =>
      let (v, d1) := readl a d in
      let (vs, d2) := loads readl m' a d1 in
      (to_u32 v :: vs, d2)
  end.

(** The words [copy_from_user] fetches from indices [tmp .. tmp + m - 1],
    up to the first fault. *)
Fixpoint fetched (src : nat -> option Z) (tmp m : nat) : list Z :=
  match m with
  | O => []
  | S m' =>
      match src tmp with
      | Some v => to_u32 v :: fetched src (S tmp) m'
      | None => []
      end
  end.

(** The device after the words [vs] were stored to address [a], in order. *)
Definition stores {hw : Type} (writel : Z -> Z -> hw -> hw) (vs : list Z)
    (a : Z) (d : hw) : hw :=
  fold_left (fun d v => writel v a d) vs d.

(** The address every access of a read or write call at [*ppos = pos] goes
    to: [pchar->bar[num].addr + offset] with [u32 offset = *ppos]. *)
Definition access_addr (f : file) (pchar : pci_char) (pos : Z) : Z :=
  addr (bar_at pchar (iminor f)) + to_u32 pos.

(** The BAR indices in use according to the record, in ascending order. *)
Definition live_bars (pchar : pci_char) : list Z :=
  filter (fun i => negb (len (bar_at pchar i) =? 0)) [0; 1; 2; 3; 4; 5].

Definition mapped_addrs (pchar : pci_char) : list Z :=
  map (fun i => addr (bar_at pchar i)) (live_bars pchar).

Definition node_ids (pchar : pci_char) : list Z :=
  map (fun i => MKDEV (major pchar) i) (live_bars pchar).

(** The releasing calls one [pci_remove] makes for the record, in order. *)
Definition teardown_calls (pchar : pci_char) : list kcall :=
  map DeviceDestroy (node_ids pchar) ++ [CdevDel; UnregisterChrdev]
  ++ map Iounmap (mapped_addrs pchar) ++ [ReleaseRegions; PciDisable; Kfree].

(** The device is attached with record [pchar]: the record is published as
    driver data, and the kernel holds exactly what the record accounts
    for. *)
Definition attached (pchar : pci_char) (k : kernel) : Prop :=
  k_drvdata k = Some pchar
  /\ k_live k = true /\ k_enabled k = true /\ k_regions k = true
  /\ k_chrdev k = true /\ k_cdev k = true
  /\ k_maps k = mapped_addrs pchar
  /\ k_nodes k = node_ids pchar.

(** Nothing is held for the device. *)
Definition released (k : kernel) : Prop :=
  k_live k = false /\ k_enabled k = false /\ k_regions k = false
  /\ k_chrdev k = false /\ k_cdev k = false
  /\ k_maps k = [] /\ k_nodes k = [].

(** A device with memory BARs 0 to 3 (4096, 4096, 4096 and 256 bytes);
    [remap] gives the pointer [ioremap] returns for each BAR and [node] the
    pointer [device_create] returns. *)
Definition dev_four (remap node : Z -> Z) : pci_dev :=
  mk_pci_dev true (fun _ => mk_bar 77 99) 7 0 15 0
             (fun i => if i <? 3 then 4096 else if i =? 3 then 256 else 0)
             remap 0 (MKDEV 250 0) 0 node.

Definition map_fine (i : Z) : Z := 1000000 + 65536 * i.
Definition node_fine (i : Z) : Z := 5000000 + i.

(** [ioremap] fails for BAR 3 the way the kernel's does: it returns [NULL]. *)
Definition dev_null3 : pci_dev :=
  dev_four (fun i => if i =? 3 then NULL else map_fine i) node_fine.

(** [ioremap] fails for BAR 0, again with [NULL]; BAR 3 is mapped. *)
Definition dev_null0 : pci_dev :=
  mk_pci_dev true (fun _ => mk_bar 77 99) 7 0 9 0
             (fun i => if i =? 0 then 4096 else if i =? 3 then 256 else 0)
             (fun i => if i =? 0 then NULL else map_fine i)
             0 (MKDEV 250 0) 0 node_fine.

(** The mapping of BAR 3 is reported failed by an encoded error, the form
    the test in [pci_probe] looks for. *)
Definition dev_errptr3 : pci_dev :=
  dev_four (fun i => if i =? 3 then ERR_PTR (- ENOMEM) else map_fine i) node_fine.

(** [device_create] fails for BAR 3. *)
Definition dev_nodefail3 : pci_dev :=
  dev_four map_fine (fun i => if i =? 3 then ERR_PTR (- ENOMEM) else node_fine i).

(** The record [pci_probe] builds for [dev_sample]. *)
Definition pchar_sample : pci_char :=
  mk_pci_char [mk_bar 4096 1000000; bar_zero; bar_zero;
               mk_bar 256 1196608; bar_zero; bar_zero] 250.

(** [n] consecutive indices from [i]. *)
Fixpoint zrange (i : Z) (n : nat) : list Z :=
  match n with
  | O => []
  | S n' => i :: zrange (i + 1) n'
  end.

(** What the mapping loop stores for BAR [i] when it does not stop. *)
Definition probed_bar (e : pci_dev) (i : Z) : bar_t :=
  if bar_selected e i then mk_bar (resource_len e i) (ioremap_ret e i)
  else mk_bar 0 NULL.

(** The record a successful [pci_probe] publishes. *)
Definition probe_record (e : pci_dev) : pci_char :=
  mk_pci_char (map (probed_bar e) [0; 1; 2; 3; 4; 5]) (MAJOR (dev_num e)).

(** The selected BARs among [n] indices from [i]. *)
Definition selected_in (e : pci_dev) (i : Z) (n : nat) : list Z :=
  filter (bar_selected e) (zrange i n).

(** The BARs in use according to [pchar] among [n] indices from [i]. *)
Definition live_in (pchar : pci_char) (i : Z) (n : nat) : list Z :=
  filter (fun j => negb (len (bar_at pchar j) =? 0)) (zrange i n).

(** Every memory BAR is non-empty, and [ioremap] does not answer [NULL]
    for it: a failure, if any, comes as an encoded error. *)
Definition no_null (e : pci_dev) : Prop :=
  forall i, 0 <= i < 6 -> bar_selected e i = true ->
            ioremap_ret e i <> NULL /\ resource_len e i <> 0.

(** ** Sessions *)

(** A call on an open file.  The driver does not mark its files as
    non-seekable, so [pread(2)] and [pwrite(2)] reach [dev_read] and
    [dev_write] as [read(2)] and [write(2)] do. *)
Inductive op : Type :=
| OpSeek (offset whence : Z)
| OpRead (count : Z) (dst_ok : nat -> bool)
| OpWrite (count : Z) (src : nat -> option Z)
| OpPread (count : Z) (dst_ok : nat -> bool) (pos : Z)
| OpPwrite (count : Z) (src : nat -> option Z) (pos : Z).

(** The arguments of a call have their C types: a seek offset is a
    [loff_t], and so is the position of [pread] and [pwrite], which the
    kernel refuses when negative before it calls the driver. *)
Definition op_ok (o : op) : Prop :=
  match o with
  | OpSeek offset _ => in_s64 offset
  | OpPread _ _ pos | OpPwrite _ _ pos => 0 <= pos <= S64_MAX
  | _ => True
  end.

(** The calls that work at the file position. *)
Definition positional (o : op) : Prop :=
  match o with
  | OpPread _ _ _ | OpPwrite _ _ _ => False
  | _ => True
  end.

(** One call as the system calls make it.  For [lseek(2)], [read(2)] and
    [write(2)], read and write receive the file position in [*ppos], and
    what they leave there is stored back as the file position.  For
    [pread(2)] and [pwrite(2)], [*ppos] is the position the caller gives,
    and the file position is not touched. *)
Definition step {hw : Type} (readl : Z -> hw -> Z * hw)
    (writel : Z -> Z -> hw -> hw) (o : op) (st : file * io hw)
    : option (file * io hw) :=
  let (f, s) := st in
  match o with
  | OpSeek offset whence =>
      match dev_seek f offset whence with
      | Some (_, f') => Some (f', s)
      | None => None
      end
  | OpRead count dst_ok =>
      match dev_read readl f dst_ok count (f_pos f) s with
      | Some r => Some (file_at (rw_file r) (rw_ppos r), rw_io r)
      | None => None
      end
  | OpWrite count src =>
      match dev_write writel f src count (f_pos f) s with
      | Some r => Some (file_at (rw_file r) (rw_ppos r), rw_io r)
      | None => None
      end
  | OpPread count dst_ok pos =>
      match dev_read readl f dst_ok count pos s with
      | Some r => Some (rw_file r, rw_io r)
      | None => None
      end
  | OpPwrite count src pos =>
      match dev_write writel f src count pos s with
      | Some r => Some (rw_file r, rw_io r)
      | None => None
      end
  end.

Fixpoint run {hw : Type} (readl : Z -> hw -> Z * hw)
    (writel : Z -> Z -> hw -> hw) (ops : list op) (st : file * io hw)
    : option (file * io hw) :=
  match ops with
  | [] => Some st
  | o :: rest =>
      match step readl writel o st with
      | Some st' => run readl writel rest st'
      | None => None
      end
  end.

(** The address of an access. *)
Definition access_at (ac : access) : Z :=
  match ac with Load a => a | Store _ a => a end.

(** An access to an aligned word inside the [L] bytes mapped at [base]. *)
Definition in_bar (base L : Z) (ac : access) : Prop :=
  base <= access_at ac <= base + L - 4 /\ (access_at ac - base) mod 4 = 0.

(** A position [dev_seek] accepts on a BAR of [L] bytes. *)
Definition pos_ok (L p : Z) : Prop := 0 <= p <= L - 4 /\ p mod 4 = 0.

(** The session [f] is open on BAR [minor] of [pchar], at a position
    [dev_seek] accepts. *)
Definition session_ok (pchar : pci_char) (minor : Z) (f : file) : Prop :=
  private_data f = Some pchar /\ iminor f = minor
  /\ pos_ok (len (bar_at pchar minor)) (f_pos f) /\ f_pos f <= S64_MAX.

(** The calls of the witnesses: seek to 8, read two words, seek forward by
    4, write one word, and a refused seek past the end. *)
Definition sample_ops : list op :=
  [OpSeek 8 SEEK_SET; OpRead 8 (fun _ => true); OpSeek 4 SEEK_CUR;
   OpWrite 4 (fun _ => Some 7); OpSeek 16 SEEK_SET].

(** The same device with other contents in the memory [kmalloc] hands
    out. *)
Definition set_junk (e : pci_dev) (jb : Z -> bar_t) (jm : Z) : pci_dev :=
  mk_pci_dev (kmalloc_ok e) jb jm (enable_ret e) (mem_bars e) (request_ret e)
             (resource_len e) (ioremap_ret e) (chrdev_ret e) (dev_num e)
             (cdev_add_ret e) (device_create_ret e).

(** ** Node names *)

(** include/linux/pci.h and include/linux/kdev_t.h *)
Definition PCI_SLOT (devfn : Z) : Z := Z.land (Z.shiftr devfn 3) 31.
Definition PCI_FUNC (devfn : Z) : Z := Z.land devfn 7.
Definition MINOR (d : Z) : Z := Z.land d (2 ^ MINORBITS - 1).

(** The digits of [n] in [base], most significant first: one division per
    digit, at most [fuel] digits (8 hexadecimal or 10 decimal digits hold
    any 32-bit value). *)
Fixpoint digits (base : Z) (fuel : nat) (n : Z) : list Z :=
  match fuel with
  | O => []
  | S fuel' =>
      if n <? base then [n]
      else digits base fuel' (n / base) ++ [n mod base]
  end.

Module Names.
Import Ascii String.

(** The character of a digit below 16: ['0'..'9'], then ['a'..'f']. *)
Definition digit_char (d : Z) : ascii :=
  ascii_of_nat (Z.to_nat (if d <? 10 then 48 + d else 87 + d)).

(** [%x] of an [unsigned int]. *)
Definition fmt_x (n : Z) : list ascii :=
  map digit_char (digits 16 8 (to_u32 n)).

(** [%02x]: [%x] padded with zeros on the left to two characters. *)
Definition fmt_02x (n : Z) : list ascii :=
  let s := fmt_x n in
  repeat "0"%char (2 - List.length s) ++ s.

(** [%d] of an [int]. *)
Definition fmt_d (n : Z) : list ascii :=
  let i := to_s32 n in
  if i <? 0 then "-"%char :: map digit_char (digits 10 10 (- i))
  else map digit_char (digits 10 10 i).

(** The name [pci_probe] gives [device_create] for BAR [i] (lines
    261-264): ["b%xd%xf%x_bar%d"] of the bus number, slot, function and
    [i]. *)
Definition device_name (bus devfn i : Z) : string :=
  string_of_list_ascii
    ("b"%char :: fmt_x bus ++ "d"%char :: fmt_x (PCI_SLOT devfn)
       ++ "f"%char :: fmt_x (PCI_FUNC devfn)
       ++ list_ascii_of_string "_bar" ++ fmt_d i).

(** [pci_char_devnode] (lines 341-349): the path under /dev of the node
    with device number [devt] of the device at [bus], [devfn]; [None] is
    the [NULL] of a [kasprintf] that could not allocate. *)
Definition pci_char_devnode (alloc_ok : bool) (bus devfn devt : Z)
    : option string :=
  if alloc_ok then
    Some (string_of_list_ascii
            (list_ascii_of_string "pci-char/" ++ fmt_02x bus
               ++ ":"%char :: fmt_02x (PCI_SLOT devfn)
               ++ "."%char :: fmt_02x (PCI_FUNC devfn)
               ++ list_ascii_of_string "/bar" ++ fmt_d (MINOR devt)))
  else None.

End Names.

(** ** Module init and exit *)

Module Init.
Import Ascii String.

(** The arguments of one [pci_add_dynid] call. *)
Record dynid : Type := mk_dynid {
  vendor : Z;
  device : Z;
  subvendor : Z;
  subdevice : Z;
  class : Z;
  class_mask : Z
}.

(** [PCI_ANY_ID] is [(~0)], as an [unsigned int]. *)
Definition PCI_ANY_ID : Z := 4294967295.

(** What [pci_init] and [pci_exit] call and print. *)
Inductive icall : Type :=
| ClassCreate | ClassDestroy
| RegisterDriver | UnregisterDriver
| WarnInvalid (id : string)
| InfoAdd (d : dynid)
| AddDynid (d : dynid)
| WarnFailed (err : Z).

(** What the kernel answers: the pointer [class_create] returns, the
    result of [pci_register_driver], for each entry the values that
    [sscanf(id, "%x:%x:%x:%x:%x:%x", ...)] converts, in order (their number
    is what [sscanf] returns), and the result of [pci_add_dynid]. *)
Record init_env : Type := mk_init_env {
  class_create_ret : Z;
  register_ret : Z;
  sscanf_ids : string -> list Z;
  add_dynid_ret : dynid -> Z
}.

(** The module: whether [pchar_class] exists, whether [pchar_driver] is
    registered, and the calls made so far, oldest first. *)
Record mstate : Type := mk_mstate {
  m_class : bool;
  m_driver : bool;
  m_log : list icall
}.

Definition mstate_init : mstate := mk_mstate false false [].

Definition noted (c : icall) (st : mstate) : mstate :=
  mk_mstate (m_class st) (m_driver st) (m_log st ++ [c]).

(** The entries [strsep(&p, ",")] yields one after the other: the pieces
    between the commas, empty ones included. *)
Fixpoint tokens (s : string) : list string :=
  match s with
  | EmptyString => [EmptyString]
  | String c rest =>
      if Ascii.eqb c ","%char then EmptyString :: tokens rest
      else match tokens rest with
           | t :: ts => String c t :: ts
           | [] => [String c EmptyString]
           end
  end.

(** The variables [sscanf] fills, with their initial values (line 374):
    the first two have none, and are only used when both were read. *)
Definition dynid_of (vals : list Z) : dynid :=
  mk_dynid (nth 0 vals 0) (nth 1 vals 0)
           (nth 2 vals PCI_ANY_ID) (nth 3 vals PCI_ANY_ID)
           (nth 4 vals 0) (nth 5 vals 0).

(** The body of the [while] loop of [pci_init] (lines 373-397), for one
    entry. *)
Definition add_id (env : init_env) (st : mstate) (id : string) : mstate :=
  if (String.length id =? 0)%nat then st
  else
    let vals := firstn 6 (sscanf_ids env id) in
    let fields := Z.of_nat (List.length vals) in
    if fields <? 2 then noted (WarnInvalid id) st
    else
      let d := dynid_of vals in
      let st := noted (InfoAdd d) st in
      let err := add_dynid_ret env d in
      let st := noted (AddDynid d) st in
      if negb (err =? 0) then noted (WarnFailed err) st else st.

(** [pci_init] (lines 351-405): the return value and the module after. *)
Definition pci_init (env : init_env) (ids : string) (st : mstate)
    : Z * mstate :=
  let c := class_create_ret env in
  let st := noted ClassCreate
                  (mk_mstate (negb (IS_ERR c)) (m_driver st) (m_log st)) in
  if IS_ERR c then (to_s32 (PTR_ERR c), st)
  else
    let err := register_ret env in
    let st := noted RegisterDriver
                    (mk_mstate (m_class st) (err =? 0) (m_log st)) in
    if negb (err =? 0)
    then (err, noted ClassDestroy (mk_mstate false (m_driver st) (m_log st)))
    else
      match ids with
      | EmptyString => (0, st)
      | _ => (0, fold_left (add_id env) (tokens ids) st)
      end.

(** [pci_exit] (lines 407-411). *)
Definition pci_exit (st : mstate) : mstate :=
  let st := noted UnregisterDriver (mk_mstate (m_class st) false (m_log st)) in
  noted ClassDestroy (mk_mstate false (m_driver st) (m_log st)).

(** The identities handed to [pci_add_dynid], in order. *)
Fixpoint added (l : list icall) : list dynid :=
  match l with
  | [] => []
  | AddDynid d :: rest => d :: added rest
  | _ :: rest => added rest
  end.

(** An environment in which everything succeeds and [sscanf] reads
    ["10ee:7014"] as two values and nothing from any other entry. *)
Definition env_sample : init_env :=
  mk_init_env 4096 0
              (fun id => if String.eqb id "10ee:7014" then [4334; 28692] else [])
              (fun _ => 0).

(** The identities one entry makes [pci_init] hand to [pci_add_dynid]:
    none for an empty entry or one with fewer than two fields. *)
Definition entry_ids (env : init_env) (id : string) : list dynid :=
  let vals := firstn 6 (sscanf_ids env id) in
  if (String.length id =? 0)%nat then []
  else if Z.of_nat (List.length vals) <? 2 then []
  else [dynid_of vals].

End Init.

(** * Properties *)

(** ** Integer facts *)

Ltac zwrap :=
  unfold in_s64, in_u64, to_s64, to_u64, to_u32, to_s32, S64_MAX, S64_MIN in *;
  Z.to_euclidean_division_equations; lia.

Ltac zbounds := unfold in_u64, in_s64, S64_MIN, S64_MAX in *; lia.

Lemma to_s64_id z : in_s64 z -> to_s64 z = z.
Proof. intros; zwrap. Qed.

Lemma to_s64_over z : S64_MAX < z < 2 ^ 64 -> to_s64 z = z - 2 ^ 64.
Proof. intros; zwrap. Qed.

Lemma to_u64_id z : in_u64 z -> to_u64 z = z.
Proof. intros; zwrap. Qed.

Lemma rem4_mod4 z : Z.rem z 4 = 0 <-> z mod 4 = 0.
Proof. apply Z.rem_mod_eq_0; lia. Qed.

Lemma rem4_eqb z : (Z.rem z 4 =? 0) = (z mod 4 =? 0).
Proof.
  destruct (Z.eqb_spec (Z.rem z 4) 0) as [H | H];
    destruct (Z.eqb_spec (z mod 4) 0) as [H' | H']; try reflexivity.
  - apply rem4_mod4 in H; contradiction.
  - apply rem4_mod4 in H'; contradiction.
Qed.

(** ** open *)

(** C7.  An open attempt on the node with minor number [minor] of a device
    record: it fails with [-ENXIO] when the minor is above 5, with [-EIO]
    when the minor is in range and the BAR's length is 0, and otherwise
    succeeds, the session bound to the record with its position still the 0
    of a fresh file. *)
Theorem dev_open_outcomes (pchar : pci_char) (minor : Z) :
  (5 < minor -> dev_open pchar (fresh_file minor) = (- ENXIO, fresh_file minor))
  /\ (minor <= 5 -> len (bar_at pchar minor) = 0 ->
      dev_open pchar (fresh_file minor) = (- EIO, fresh_file minor))
  /\ (minor <= 5 -> len (bar_at pchar minor) <> 0 ->
      exists f, dev_open pchar (fresh_file minor) = (0, f)
                /\ f_pos f = 0 /\ iminor f = minor
                /\ private_data f = Some pchar).
Proof.
  unfold dev_open, fresh_file; cbn [iminor f_pos private_data].
  repeat split.
  - intros H. apply Z.ltb_lt in H. now rewrite H.
  - intros H H0. apply Z.ltb_ge in H. rewrite H.
    apply Z.eqb_eq in H0. now rewrite H0.
  - intros H H0. apply Z.ltb_ge in H. rewrite H.
    apply Z.eqb_neq in H0. rewrite H0.
    eexists; repeat split.
Qed.

Lemma dev_open_outcomes_witness :
  dev_open (one_bar 16 4096) (fresh_file 6) = (- ENXIO, fresh_file 6)
  /\ dev_open (one_bar 16 4096) (fresh_file 1) = (- EIO, fresh_file 1)
  /\ exists f, dev_open (one_bar 16 4096) (fresh_file 0) = (0, f)
               /\ f_pos f = 0 /\ iminor f = 0
               /\ private_data f = Some (one_bar 16 4096).
Proof.
  split; [| split].
  - apply (proj1 (dev_open_outcomes (one_bar 16 4096) 6)); lia.
  - apply (proj1 (proj2 (dev_open_outcomes (one_bar 16 4096) 1)));
      [lia | reflexivity].
  - apply (proj2 (proj2 (dev_open_outcomes (one_bar 16 4096) 0)));
      [lia | simpl; lia].
Defined.

(** ** seek *)

Section Seek.
Variable f : file.
Variable pchar : pci_char.
Hypothesis Hopen : private_data f = Some pchar.

(** What [dev_seek] does with an accepted and with a refused target, in
    terms of the position the code computes. *)
Lemma dev_seek_accept offset whence :
  let np := seek_target (f_pos f) offset whence in
  np mod 4 = 0 -> 0 <= np ->
  to_u64 np <= to_u64 (len (bar_at pchar (iminor f)) - 4) ->
  dev_seek f offset whence = Some (np, file_at f np).
Proof.
  intros np Hm H0 Hle. unfold dev_seek. rewrite Hopen. fold np.
  rewrite rem4_eqb. apply Z.eqb_eq in Hm. rewrite Hm. cbn [negb].
  apply Z.ltb_ge in H0. rewrite H0. apply Z.ltb_ge in Hle. rewrite Hle.
  unfold file_at. rewrite Hopen. reflexivity.
Qed.

Lemma dev_seek_refuse offset whence :
  let np := seek_target (f_pos f) offset whence in
  np mod 4 <> 0 \/ np < 0
  \/ to_u64 (len (bar_at pchar (iminor f)) - 4) < to_u64 np ->
  dev_seek f offset whence = Some (- EINVAL, f).
Proof.
  intros np H. unfold dev_seek. rewrite Hopen. fold np.
  rewrite rem4_eqb.
  destruct (Z.eqb_spec (np mod 4) 0) as [Hm | Hm]; [| reflexivity].
  cbn [negb].
  destruct (Z.ltb_spec np 0) as [Hn | Hn]; [reflexivity |].
  destruct (Z.ltb_spec (to_u64 (len (bar_at pchar (iminor f)) - 4)) (to_u64 np))
  as [Hg | Hg];
    [reflexivity |].
  exfalso. destruct H as [H | [H | H]]; lia.
Qed.
End Seek.

(** The position the code computes against the position asked for: they
    agree unless the sum leaves [loff_t], and then the code's is negative. *)
Lemma seek_target_cases pos offset whence :
  0 <= pos <= S64_MAX -> in_s64 offset ->
  whence = SEEK_SET \/ whence = SEEK_CUR ->
  let t := target_of pos offset whence in
  let np := seek_target pos offset whence in
  (in_s64 t /\ np = t) \/ (S64_MAX < t /\ np = t - 2 ^ 64 /\ np < 0).
Proof.
  intros Hpos Hoff [-> | ->]; unfold target_of, seek_target;
    change (SEEK_SET =? SEEK_SET) with true;
    change (SEEK_CUR =? SEEK_SET) with false;
    change (SEEK_CUR =? SEEK_CUR) with true; cbv iota.
  - left; split; [assumption | reflexivity].
  - destruct (Z_le_gt_dec (pos + offset) S64_MAX) as [Hs | Hs].
    + left. assert (in_s64 (pos + offset)) by (unfold in_s64, S64_MIN, S64_MAX in *; lia).
      split; [assumption | now apply to_s64_id].
    + right. assert (S64_MAX < pos + offset < 2 ^ 64)
        by (unfold in_s64, S64_MIN, S64_MAX in *; lia).
      rewrite to_s64_over by assumption.
      unfold in_s64, S64_MIN, S64_MAX in *. lia.
Qed.

(** C2.  On a BAR whose length [L] is a multiple of 4, at least 4 and within
    [loff_t] (as the offsets [L - 4] and [L] handed to seek are), a seek to
    [L - 4] from the start succeeds, seeks to [L] and to [L - 3] fail with
    [-EINVAL], and any seek from the start or from the current position
    succeeds exactly when the position asked for is a multiple of 4 in
    [0, L - 4]: then it returns that position and stores it, otherwise it
    returns [-EINVAL] and leaves the file as it was. *)
Theorem dev_seek_succeeds_exactly (f : file) (pchar : pci_char) (L : Z) :
  private_data f = Some pchar ->
  len (bar_at pchar (iminor f)) = L ->
  L mod 4 = 0 -> 4 <= L <= S64_MAX ->
  0 <= f_pos f <= S64_MAX ->
  dev_seek f (L - 4) SEEK_SET = Some (L - 4, file_at f (L - 4))
  /\ dev_seek f L SEEK_SET = Some (- EINVAL, f)
  /\ dev_seek f (L - 3) SEEK_SET = Some (- EINVAL, f)
  /\ forall offset whence,
       in_s64 offset -> whence = SEEK_SET \/ whence = SEEK_CUR ->
       let t := target_of (f_pos f) offset whence in
       (t mod 4 = 0 /\ 0 <= t <= L - 4 ->
        dev_seek f offset whence = Some (t, file_at f t))
       /\ (~ (t mod 4 = 0 /\ 0 <= t <= L - 4) ->
           dev_seek f offset whence = Some (- EINVAL, f)).
Proof.
  intros Hopen HL Hm HLr Hpos.
  assert (Hgen : forall offset whence,
       in_s64 offset -> whence = SEEK_SET \/ whence = SEEK_CUR ->
       let t := target_of (f_pos f) offset whence in
       (t mod 4 = 0 /\ 0 <= t <= L - 4 ->
        dev_seek f offset whence = Some (t, file_at f t))
       /\ (~ (t mod 4 = 0 /\ 0 <= t <= L - 4) ->
           dev_seek f offset whence = Some (- EINVAL, f))).
  { intros offset whence Hoff Hw t.
    assert (HuL : to_u64 (L - 4) = L - 4)
      by (apply to_u64_id; unfold in_u64, S64_MAX in *; lia).
    destruct (seek_target_cases (f_pos f) offset whence Hpos Hoff Hw)
      as [[Ht Hnp] | [Ht [Hnp Hneg]]]; fold t in Ht, Hnp.
    - split.
      + intros [Ht4 Hb]. rewrite <- Hnp.
        apply (dev_seek_accept f pchar Hopen); rewrite ?Hnp, ?HL, ?HuL; try lia.
        rewrite to_u64_id by zbounds. lia.
      + intros Hn. apply (dev_seek_refuse f pchar Hopen).
        rewrite Hnp, HL, HuL.
        destruct (Z.eq_dec (t mod 4) 0) as [E | E]; [| now left].
        right. destruct (Z_lt_ge_dec t 0) as [Hlt | Hge]; [now left |].
        right. rewrite to_u64_id by zbounds. lia.
    - split.
      + intros [_ Hb]. unfold S64_MAX in *. lia.
      + intros _. apply (dev_seek_refuse f pchar Hopen). right; left. exact Hneg. }
  assert (HinL : in_s64 L) by (unfold in_s64, S64_MIN, S64_MAX in *; lia).
  assert (HinL4 : in_s64 (L - 4)) by (unfold in_s64, S64_MIN, S64_MAX in *; lia).
  assert (HinL3 : in_s64 (L - 3)) by (unfold in_s64, S64_MIN, S64_MAX in *; lia).
  split; [| split; [| split]]; try exact Hgen.
  - apply (proj1 (Hgen (L - 4) SEEK_SET HinL4 (or_introl eq_refl))).
    unfold target_of; change (SEEK_SET =? SEEK_SET) with true; cbv iota. split; [zwrap | lia].
  - apply (proj2 (Hgen L SEEK_SET HinL (or_introl eq_refl))).
    unfold target_of; change (SEEK_SET =? SEEK_SET) with true; cbv iota. lia.
  - apply (proj2 (Hgen (L - 3) SEEK_SET HinL3 (or_introl eq_refl))).
    unfold target_of; change (SEEK_SET =? SEEK_SET) with true; cbv iota. intros [H4 _]. zwrap.
Qed.

Lemma dev_seek_succeeds_exactly_witness :
  dev_seek (session0 16 4096 0) 12 SEEK_SET
    = Some (12, file_at (session0 16 4096 0) 12)
  /\ dev_seek (session0 16 4096 0) 16 SEEK_SET
     = Some (- EINVAL, session0 16 4096 0)
  /\ dev_seek (session0 16 4096 0) 13 SEEK_SET
     = Some (- EINVAL, session0 16 4096 0).
Proof.
  pose proof (dev_seek_succeeds_exactly (session0 16 4096 0)
                (one_bar 16 4096) 16) as H.
  destruct H as (H1 & H2 & H3 & _);
    [reflexivity | reflexivity | reflexivity | zbounds | simpl; zbounds |].
  exact (conj H1 (conj H2 H3)).
Defined.

(** C5.  In an open session whose position is a valid [loff_t] offset, a
    seek from the start or from the current position returns [-EINVAL] and
    leaves the file, its position included, as it was whenever the position
    asked for is not a multiple of 4, or is negative, or exceeds [L - 4].
    [L] is the length [pci_resource_len] reported for a memory BAR, which
    is a power of two not below 16: the bound [L - 4] is read for the
    lengths [L >= 4]. *)
Theorem dev_seek_rejects (f : file) (pchar : pci_char) (offset whence : Z) :
  private_data f = Some pchar ->
  in_u64 (len (bar_at pchar (iminor f))) ->
  0 <= f_pos f <= S64_MAX ->
  in_s64 offset ->
  whence = SEEK_SET \/ whence = SEEK_CUR ->
  let L := len (bar_at pchar (iminor f)) in
  let t := target_of (f_pos f) offset whence in
  t mod 4 <> 0 \/ t < 0 \/ (4 <= L /\ L - 4 < t) ->
  dev_seek f offset whence = Some (- EINVAL, f).
Proof.
  intros Hopen HL Hpos Hoff Hw L t Hbad.
  apply (dev_seek_refuse f pchar Hopen). fold L.
  destruct (seek_target_cases (f_pos f) offset whence Hpos Hoff Hw)
    as [[Ht Hnp] | [Ht [Hnp Hneg]]]; fold t in Ht, Hnp.
  - rewrite Hnp. destruct Hbad as [Hb | [Hb | [Hb1 Hb2]]];
      [now left | right; now left |].
    destruct (Z_lt_ge_dec t 0) as [Hlt | Hge]; [right; now left |].
    right; right. subst L.
    rewrite !to_u64_id by zbounds. lia.
  - right; left. exact Hneg.
Qed.

Lemma dev_seek_rejects_witness :
  dev_seek (session0 16 4096 8) 6 SEEK_CUR = Some (- EINVAL, session0 16 4096 8)
  /\ dev_seek (session0 16 4096 8) (- 12) SEEK_CUR
     = Some (- EINVAL, session0 16 4096 8)
  /\ dev_seek (session0 16 4096 8) 16 SEEK_SET
     = Some (- EINVAL, session0 16 4096 8).
Proof.
  split; [| split].
  - apply (dev_seek_rejects (session0 16 4096 8) (one_bar 16 4096) 6 SEEK_CUR);
      [reflexivity | simpl; zbounds | simpl; zbounds | zbounds | now right |].
    left. vm_compute. discriminate.
  - apply (dev_seek_rejects (session0 16 4096 8) (one_bar 16 4096) (- 12) SEEK_CUR);
      [reflexivity | simpl; zbounds | simpl; zbounds | zbounds | now right |].
    right; left. vm_compute. reflexivity.
  - apply (dev_seek_rejects (session0 16 4096 8) (one_bar 16 4096) 16 SEEK_SET);
      [reflexivity | simpl; zbounds | simpl; zbounds | zbounds | now left |].
    right; right. split; vm_compute; [discriminate | reflexivity].
Defined.

(** ** read and write *)

Lemma ok_prefix_le ok n : forall tmp, (ok_prefix ok tmp n <= n)%nat.
Proof.
  induction n as [| n IH]; intros tmp; cbn; [lia |].
  destruct (ok tmp); [specialize (IH (S tmp)) |]; lia.
Qed.

Lemma ok_prefix_all ok n :
  forall tmp, (forall j, (tmp <= j < tmp + n)%nat -> ok j = true) ->
              ok_prefix ok tmp n = n.
Proof.
  induction n as [| n IH]; intros tmp H; cbn; [reflexivity |].
  rewrite (H tmp) by lia. f_equal. apply IH. intros j Hj. apply H. lia.
Qed.

Lemma ok_prefix_fault ok n :
  forall tmp k, (k < n)%nat ->
    (forall j, (j < k)%nat -> ok (tmp + j)%nat = true) ->
    ok (tmp + k)%nat = false ->
    ok_prefix ok tmp n = k.
Proof.
  induction n as [| n IH]; intros tmp k Hk Hbefore Hat; [lia |].
  cbn. destruct k as [| k].
  - rewrite Nat.add_0_r in Hat. now rewrite Hat.
  - rewrite <- (Nat.add_0_r tmp) at 1. rewrite (Hbefore 0%nat) by lia.
    f_equal. apply IH; [lia | |].
    + intros j Hj. replace (S tmp + j)%nat with (tmp + S j)%nat by lia.
      apply Hbefore. lia.
    + now replace (S tmp + k)%nat with (tmp + S k)%nat by lia.
Qed.

Lemma fetched_length src m : forall tmp,
  length (fetched src tmp m) = ok_prefix (src_ok src) tmp m.
Proof.
  induction m as [| m IH]; intros tmp; cbn [fetched ok_prefix]; [reflexivity |].
  assert (Hok : src_ok src tmp = match src tmp with Some _ => true | None => false end)
    by reflexivity.
  rewrite Hok. destruct (src tmp); cbn [length]; [now rewrite IH | reflexivity].
Qed.

Section ReadFacts.
Variable hw : Type.
Variable readl : Z -> hw -> Z * hw.

Lemma loads_S m a d :
  loads readl (S m) a d
  = (to_u32 (fst (readl a d)) :: fst (loads readl m a (snd (readl a d))),
     snd (loads readl m a (snd (readl a d)))).
Proof.
  cbn [loads]. destruct (readl a d) as [v d1]. cbn [fst snd].
  destruct (loads readl m a d1); reflexivity.
Qed.

(** The read loop: with [m] the number of copies that succeed before the
    first fault, it delivers the values of [m] loads from [a], counts
    [4 * m] bytes, and has loaded once more when it stopped on a fault. *)
Lemma read_loop_run dst_ok n : forall a tmp bytes out s,
  0 <= bytes -> bytes + 4 * Z.of_nat n <= S64_MAX ->
  let m := ok_prefix dst_ok tmp n in
  let m' := if (m <? n)%nat then S m else m in
  read_loop readl dst_ok n a tmp bytes out s
  = (bytes + 4 * Z.of_nat m,
     (if (m <? n)%nat then - EFAULT else 0),
     out ++ fst (loads readl m a (dev s)),
     mk_io (snd (loads readl m' a (dev s)))
           (trace s ++ repeat (Load a) m')).
Proof.
  induction n as [| n IH]; intros a tmp bytes out s Hb Hmax.
  - cbn. rewrite Z.add_0_r, !app_nil_r. destruct s; reflexivity.
  - cbn [read_loop ok_prefix].
    destruct (dst_ok tmp) eqn:Eok.
    + destruct (readl a (dev s)) as [v d1] eqn:Er.
      rewrite IH by (cbn [dev trace]; zwrap).
      cbn zeta. cbn [dev trace].
      set (m := ok_prefix dst_ok (S tmp) n).
      change (S m <? S n)%nat with (m <? n)%nat.
      rewrite to_s64_id by zbounds.
      rewrite !loads_S, Er. cbn [fst snd].
      rewrite <- !app_assoc. cbn [app].
      replace (bytes + 4 + 4 * Z.of_nat m) with (bytes + 4 * Z.of_nat (S m)) by lia.
      destruct (m <? n)%nat;
        rewrite ?loads_S, ?Er; cbn [fst snd]; reflexivity.
    + destruct (readl a (dev s)) as [v d1] eqn:Er.
      cbn zeta. change (0 <? S n)%nat with true. cbv iota.
      rewrite loads_S, Er. cbn. rewrite Z.add_0_r, app_nil_r. reflexivity.
Qed.

(** Without any bound on [count]: the loops only ever access [a]. *)
Lemma read_loop_frame dst_ok n : forall a tmp bytes out s,
  exists m, trace (snd (read_loop readl dst_ok n a tmp bytes out s))
            = trace s ++ repeat (Load a) m.
Proof.
  induction n as [| n IH]; intros a tmp bytes out s.
  - exists 0%nat. cbn. now rewrite app_nil_r.
  - cbn [read_loop]. destruct (readl a (dev s)) as [v d1].
    destruct (dst_ok tmp).
    + destruct (IH a (S tmp) (to_s64 (bytes + 4)) (out ++ [to_u32 v])
                   (mk_io d1 (trace s ++ [Load a]))) as [m Hm].
      exists (S m). rewrite Hm. cbn [trace]. rewrite <- app_assoc. reflexivity.
    + exists 1%nat. reflexivity.
Qed.

(** [dev_read] on an open session, for a [count] that is a multiple of
    4 and fits [ssize_t]. *)
Lemma dev_read_run f pchar dst_ok count pos s :
  private_data f = Some pchar ->
  count mod 4 = 0 -> 0 <= count <= S64_MAX ->
  let n := Z.to_nat (count / 4) in
  let m := ok_prefix dst_ok 0 n in
  let m' := if (m <? n)%nat then S m else m in
  let a := access_addr f pchar pos in
  dev_read readl f dst_ok count pos s
  = Some (mk_rw (if (m =? 0)%nat
                 then (if (0 <? n)%nat then - EFAULT else 0)
                 else 4 * Z.of_nat m)
                f pos (fst (loads readl m a (dev s)))
                (mk_io (snd (loads readl m' a (dev s)))
                       (trace s ++ repeat (Load a) m'))).
Proof.
  intros Hopen Hc Hr n m m' a. unfold dev_read. rewrite Hopen.
  apply Z.eqb_eq in Hc. rewrite Hc. cbn [negb]. apply Z.eqb_eq in Hc.
  fold (access_addr f pchar pos). fold a. fold n.
  rewrite read_loop_run by (subst n; zwrap).
  fold m. fold m'. cbn [app]. rewrite Z.add_0_l.
  destruct m as [| m1] eqn:Em.
  - cbn [Z.of_nat Z.mul Nat.eqb]. rewrite Z.eqb_refl. reflexivity.
  - replace (4 * Z.of_nat (S m1) =? 0) with false
      by (symmetry; apply Z.eqb_neq; lia).
    reflexivity.
Qed.
End ReadFacts.

Section WriteFacts.
Variable hw : Type.
Variable writel : Z -> Z -> hw -> hw.

(** The write loop: it stores the words fetched before the first fault,
    in order, all to [a], and counts 4 bytes for each. *)
Lemma write_loop_run src n : forall a tmp bytes s,
  0 <= bytes -> bytes + 4 * Z.of_nat n <= S64_MAX ->
  let m := ok_prefix (src_ok src) tmp n in
  let vs := fetched src tmp n in
  write_loop writel src n a tmp bytes s
  = (bytes + 4 * Z.of_nat m,
     (if (m <? n)%nat then - EFAULT else 0),
     mk_io (stores writel vs a (dev s))
           (trace s ++ map (fun v => Store v a) vs)).
Proof.
  induction n as [| n IH]; intros a tmp bytes s Hb Hmax.
  - cbn. rewrite Z.add_0_r, app_nil_r. destruct s; reflexivity.
  - cbn [write_loop ok_prefix fetched].
    assert (Hok : src_ok src tmp = match src tmp with Some _ => true | None => false end)
      by reflexivity.
    rewrite Hok. clear Hok.
    destruct (src tmp) as [v |] eqn:Es.
    + rewrite IH by (cbn [dev trace]; zwrap).
      cbn zeta. cbn [dev trace].
      set (m := ok_prefix (src_ok src) (S tmp) n).
      change (S m <? S n)%nat with (m <? n)%nat.
      rewrite to_s64_id by zbounds.
      cbn [map]. rewrite <- app_assoc. cbn [app].
      unfold stores. cbn [fold_left].
      replace (bytes + 4 + 4 * Z.of_nat m) with (bytes + 4 * Z.of_nat (S m)) by lia.
      reflexivity.
    + cbn. rewrite Z.add_0_r, app_nil_r. destruct s; reflexivity.
Qed.
Lemma write_loop_frame src n : forall a tmp bytes s,
  exists vs, trace (snd (write_loop writel src n a tmp bytes s))
             = trace s ++ map (fun v => Store v a) vs.
Proof.
  induction n as [| n IH]; intros a tmp bytes s.
  - exists []. cbn. now rewrite app_nil_r.
  - cbn [write_loop]. destruct (src tmp) as [v |].
    + destruct (IH a (S tmp) (to_s64 (bytes + 4))
                   (mk_io (writel (to_u32 v) a (dev s))
                          (trace s ++ [Store (to_u32 v) a]))) as [vs Hvs].
      exists (to_u32 v :: vs). rewrite Hvs. cbn [trace map].
      rewrite <- app_assoc. reflexivity.
    + exists []. cbn. now rewrite app_nil_r.
Qed.


(** [dev_write] on an open session, likewise. *)
Lemma dev_write_run f pchar src count pos s :
  private_data f = Some pchar ->
  count mod 4 = 0 -> 0 <= count <= S64_MAX ->
  let n := Z.to_nat (count / 4) in
  let m := ok_prefix (src_ok src) 0 n in
  let vs := fetched src 0 n in
  let a := access_addr f pchar pos in
  dev_write writel f src count pos s
  = Some (mk_rw (if (m =? 0)%nat
                 then (if (0 <? n)%nat then - EFAULT else 0)
                 else 4 * Z.of_nat m)
                f pos []
                (mk_io (stores writel vs a (dev s))
                       (trace s ++ map (fun v => Store v a) vs))).
Proof.
  intros Hopen Hc Hr n m vs a. unfold dev_write. rewrite Hopen.
  apply Z.eqb_eq in Hc. rewrite Hc. cbn [negb]. apply Z.eqb_eq in Hc.
  fold (access_addr f pchar pos). fold a. fold n.
  rewrite write_loop_run by (subst n; zwrap).
  fold m. fold vs. rewrite Z.add_0_l.
  destruct m as [| m1] eqn:Em.
  - cbn [Z.of_nat Z.mul Nat.eqb]. rewrite Z.eqb_refl. reflexivity.
  - replace (4 * Z.of_nat (S m1) =? 0) with false
      by (symmetry; apply Z.eqb_neq; lia).
    reflexivity.
Qed.
End WriteFacts.

Lemma loads_length {hw : Type} (readl : Z -> hw -> Z * hw) m :
  forall a d, length (fst (loads readl m a d)) = m.
Proof.
  induction m as [| m IH]; intros a d; [reflexivity |].
  rewrite loads_S. cbn [fst length]. now rewrite IH.
Qed.

Lemma ok_prefix_0 ok tmp n :
  (0 < n)%nat -> ok_prefix ok tmp n = 0%nat -> ok tmp = false.
Proof.
  destruct n as [| n]; [lia |]. cbn. destruct (ok tmp); [discriminate | reflexivity].
Qed.

(** C6.  A read or write of [count] bytes, [count] a positive multiple of 4
    (within [ssize_t], as the VFS guarantees), in an open session.  When the
    copy of word [k] to or from the caller's buffer is the first to fault:
    for [k > 0] the call returns [4 * k], the bytes transferred so far, and
    has delivered (read) or stored (write) exactly [k] words; for [k = 0] it
    returns [-EFAULT] with nothing transferred.  And whatever the buffer, a
    negative return is [-EFAULT], comes with nothing transferred, and occurs
    only when the copy of the very first word faults. *)
Theorem transfer_fault_is_partial {hw : Type} (readl : Z -> hw -> Z * hw)
    (writel : Z -> Z -> hw -> hw) (f : file) (pchar : pci_char)
    (count pos : Z) (s : io hw) (k : nat) :
  private_data f = Some pchar ->
  count mod 4 = 0 -> 0 < count <= S64_MAX ->
  Z.of_nat k < count / 4 ->
  (forall dst_ok,
      (forall j, (j < k)%nat -> dst_ok j = true) -> dst_ok k = false ->
      exists r, dev_read readl f dst_ok count pos s = Some r
                /\ length (rw_words r) = k
                /\ rw_ret r = if (k =? 0)%nat then - EFAULT else 4 * Z.of_nat k)
  /\ (forall src,
      (forall j, (j < k)%nat -> src j <> None) -> src k = None ->
      exists r vs, dev_write writel f src count pos s = Some r
                /\ trace (rw_io r)
                   = trace s ++ map (fun v => Store v (access_addr f pchar pos)) vs
                /\ length vs = k
                /\ rw_ret r = if (k =? 0)%nat then - EFAULT else 4 * Z.of_nat k)
  /\ (forall dst_ok,
      exists r, dev_read readl f dst_ok count pos s = Some r
                /\ (rw_ret r < 0 ->
                    rw_ret r = - EFAULT /\ dst_ok 0%nat = false
                    /\ rw_words r = []))
  /\ (forall src,
      exists r, dev_write writel f src count pos s = Some r
                /\ (rw_ret r < 0 ->
                    rw_ret r = - EFAULT /\ src 0%nat = None
                    /\ trace (rw_io r) = trace s)).
Proof.
  intros Hopen Hc Hr Hk.
  assert (Hr' : 0 <= count <= S64_MAX) by lia.
  assert (Hn : (0 < Z.to_nat (count / 4))%nat) by zwrap.
  assert (Hkn : (k < Z.to_nat (count / 4))%nat) by lia.
  split; [| split; [| split]].
  - intros dst_ok Hbefore Hat.
    rewrite (dev_read_run hw readl f pchar dst_ok count pos s Hopen Hc Hr').
    rewrite (ok_prefix_fault dst_ok _ 0 k Hkn Hbefore Hat).
    eexists; split; [reflexivity |]. cbn [rw_words rw_ret].
    rewrite loads_length. split; [reflexivity |].
    apply Nat.ltb_lt in Hn. now rewrite Hn.
  - intros src Hbefore Hat.
    rewrite (dev_write_run hw writel f pchar src count pos s Hopen Hc Hr').
    assert (Hp : ok_prefix (src_ok src) 0 (Z.to_nat (count / 4)) = k).
    { apply ok_prefix_fault; [exact Hkn | |].
      - intros j Hj. unfold src_ok. cbn [Nat.add].
        specialize (Hbefore j Hj). now destruct (src j).
      - unfold src_ok. cbn [Nat.add]. now rewrite Hat. }
    rewrite Hp.
    eexists; eexists; split; [reflexivity |]. cbn [rw_io rw_ret trace].
    split; [reflexivity |]. rewrite fetched_length, Hp. split; [reflexivity |].
    apply Nat.ltb_lt in Hn. now rewrite Hn.
  - intros dst_ok.
    rewrite (dev_read_run hw readl f pchar dst_ok count pos s Hopen Hc Hr').
    eexists; split; [reflexivity |]. cbn [rw_words rw_ret].
    destruct (ok_prefix dst_ok 0 (Z.to_nat (count / 4))) as [| m] eqn:Em.
    + cbn [Nat.eqb]. intros _. apply Nat.ltb_lt in Hn. rewrite Hn.
      apply Nat.ltb_lt in Hn.
      split; [reflexivity |]. split; [| reflexivity].
      exact (ok_prefix_0 dst_ok 0 _ Hn Em).
    + cbn [Nat.eqb]. lia.
  - intros src.
    rewrite (dev_write_run hw writel f pchar src count pos s Hopen Hc Hr').
    eexists; split; [reflexivity |]. cbn [rw_io rw_ret trace].
    pose proof (fetched_length src (Z.to_nat (count / 4)) 0) as Hlen.
    destruct (ok_prefix (src_ok src) 0 (Z.to_nat (count / 4))) as [| m] eqn:Em.
    + cbn [Nat.eqb]. intros _. apply Nat.ltb_lt in Hn. rewrite Hn.
      apply Nat.ltb_lt in Hn.
      split; [reflexivity |]. split.
      * pose proof (ok_prefix_0 (src_ok src) 0 _ Hn Em) as H0.
        unfold src_ok in H0. now destruct (src 0%nat).
      * apply length_zero_iff_nil in Hlen. rewrite Hlen. cbn. apply app_nil_r.
    + cbn [Nat.eqb]. lia.
Qed.

Lemma transfer_fault_is_partial_witness :
  exists r, dev_read ram_readl (session0 16 4096 0) (fun j => (j <? 2)%nat)
                     16 0 (mk_io ram_zero []) = Some r
            /\ length (rw_words r) = 2%nat
            /\ rw_ret r = 8.
Proof.
  assert (H16 : 0 < 16 <= S64_MAX) by zbounds.
  assert (H2 : Z.of_nat 2 < 16 / 4) by (vm_compute; reflexivity).
  destruct (transfer_fault_is_partial ram_readl ram_writel
              (session0 16 4096 0) (one_bar 16 4096) 16 0
              (mk_io ram_zero []) 2 eq_refl eq_refl H16 H2) as [Hread _].
  apply (Hread (fun j => (j <? 2)%nat)).
  - intros j Hj. apply Nat.ltb_lt. exact Hj.
  - reflexivity.
Defined.

(** C1 (amended).  In an open session at a position below [2 ^ 32], a
    read of [count] bytes, [count] a positive multiple of 4 (within
    [ssize_t]), all of whose copies to the caller succeed, returns [count]
    and delivers [count / 4] words, the values of as many consecutive loads
    from one and the same address, [base + position]; the position after
    the call, in [*ppos] and in the file, is the position before it. *)
Theorem dev_read_success {hw : Type} (readl : Z -> hw -> Z * hw) (f : file)
    (pchar : pci_char) (dst_ok : nat -> bool) (count : Z) (s : io hw) :
  private_data f = Some pchar ->
  0 <= f_pos f < 2 ^ 32 ->
  count mod 4 = 0 -> 0 < count <= S64_MAX ->
  (forall j, Z.of_nat j < count / 4 -> dst_ok j = true) ->
  let n := Z.to_nat (count / 4) in
  let a := addr (bar_at pchar (iminor f)) + f_pos f in
  exists r, dev_read readl f dst_ok count (f_pos f) s = Some r
            /\ rw_ret r = count
            /\ Z.of_nat (length (rw_words r)) = count / 4
            /\ rw_words r = fst (loads readl n a (dev s))
            /\ trace (rw_io r) = trace s ++ repeat (Load a) n
            /\ rw_ppos r = f_pos f
            /\ f_pos (rw_file r) = f_pos f.
Proof.
  intros Hopen Hpos Hc Hr Hok n a.
  assert (Hr' : 0 <= count <= S64_MAX) by lia.
  rewrite (dev_read_run hw readl f pchar dst_ok count (f_pos f) s Hopen Hc Hr').
  fold n. unfold access_addr.
  replace (to_u32 (f_pos f)) with (f_pos f)
    by (symmetry; apply Z.mod_small; exact Hpos).
  fold a.
  assert (Hm : ok_prefix dst_ok 0 n = n).
  { apply ok_prefix_all. intros j Hj. apply Hok. subst n. zwrap. }
  rewrite Hm. rewrite Nat.ltb_irrefl.
  assert (Hn : (0 < n)%nat) by (subst n; zwrap).
  eexists; split; [reflexivity |]. cbn [rw_ret rw_words rw_io rw_ppos rw_file trace].
  rewrite loads_length.
  repeat split.
  - destruct (Nat.eqb_spec n 0) as [E | E]; [lia |]. subst n. zwrap.
  - subst n. zwrap.
Qed.

Lemma dev_read_success_witness :
  exists r, dev_read ram_readl (session0 16 4096 8) (fun _ => true) 8 8
                     (mk_io ram_zero []) = Some r
            /\ rw_ret r = 8
            /\ trace (rw_io r) = [Load 4104; Load 4104]
            /\ rw_ppos r = 8.
Proof.
  assert (H8 : 0 < 8 <= S64_MAX) by zbounds.
  assert (Hp : 0 <= 8 < 2 ^ 32) by lia.
  destruct (dev_read_success ram_readl (session0 16 4096 8) (one_bar 16 4096)
              (fun _ => true) 8 (mk_io ram_zero []) eq_refl Hp eq_refl H8
              (fun _ _ => eq_refl))
    as (r & Hr & Hret & _ & _ & Htr & Hpos & _).
  exists r. repeat split; assumption.
Defined.

(** C1, as stated, fails: a read of 16 bytes at position 0 of a 16-byte BAR
    succeeds, but the position stays 0 instead of advancing to 16, and the
    four words all come from [base], not from [base + 4 * j]. *)
Lemma dev_read_does_not_advance :
  exists r, dev_read ram_readl (session0 16 4096 0) (fun _ => true) 16 0
                     (mk_io ram_zero []) = Some r
            /\ rw_ret r = 16
            /\ rw_ppos r = 0
            /\ rw_ppos r <> 0 + 16
            /\ f_pos (rw_file r) = 0
            /\ trace (rw_io r) = [Load 4096; Load 4096; Load 4096; Load 4096]
            /\ nth 1 (trace (rw_io r)) (Load 0) <> Load (4096 + 0 + 4 * 1).
Proof.
  eexists. split; [reflexivity |].
  cbn. repeat split; try reflexivity; discriminate.
Qed.

(** Every access of a read or write call goes to the address computed from
    the position as truncated by [u32 offset = *ppos]; neither call touches
    [*ppos] or the file. *)
Lemma rw_frame_u32 {hw : Type} (readl : Z -> hw -> Z * hw)
    (writel : Z -> Z -> hw -> hw) (f : file) (pchar : pci_char)
    (count pos : Z) (s : io hw) :
  private_data f = Some pchar ->
  let a := access_addr f pchar pos in
  (forall dst_ok,
      exists r m, dev_read readl f dst_ok count pos s = Some r
                  /\ rw_ppos r = pos /\ rw_file r = f
                  /\ trace (rw_io r) = trace s ++ repeat (Load a) m)
  /\ (forall src,
      exists r vs, dev_write writel f src count pos s = Some r
                  /\ rw_ppos r = pos /\ rw_file r = f
                  /\ trace (rw_io r) = trace s ++ map (fun v => Store v a) vs).
Proof.
  intros Hopen a. split.
  - intros dst_ok. unfold dev_read. rewrite Hopen.
    destruct (count mod 4 =? 0); cbn [negb].
    + fold (access_addr f pchar pos). fold a.
      destruct (read_loop_frame hw readl dst_ok (Z.to_nat (count / 4)) a 0 0 [] s)
        as [m Hm].
      destruct (read_loop readl dst_ok (Z.to_nat (count / 4)) a 0 0 [] s)
        as [[[b e] o] s'].
      cbn [snd] in Hm. eexists; exists m. repeat split; exact Hm.
    + eexists; exists 0%nat. cbn. rewrite app_nil_r. repeat split.
  - intros src. unfold dev_write. rewrite Hopen.
    destruct (count mod 4 =? 0); cbn [negb].
    + fold (access_addr f pchar pos). fold a.
      destruct (write_loop_frame hw writel src (Z.to_nat (count / 4)) a 0 0 s)
        as [vs Hvs].
      destruct (write_loop writel src (Z.to_nat (count / 4)) a 0 0 s)
        as [[b e] s'].
      cbn [snd] in Hvs. eexists; exists vs. repeat split; exact Hvs.
    + eexists; exists []. cbn. rewrite app_nil_r. repeat split.
Qed.

(** C10 (amended).  Every read and every write call in an open session at
    a position below [2 ^ 32], whatever [count] and whatever the caller's
    buffer does (success, partial transfer or error), leaves [*ppos] and the
    file (hence the device record and its BAR descriptors, reached through
    [private_data]) as they were, and every access it makes to the device
    goes to the single address [base + position]. *)
Theorem rw_frame {hw : Type} (readl : Z -> hw -> Z * hw)
    (writel : Z -> Z -> hw -> hw) (f : file) (pchar : pci_char)
    (count pos : Z) (s : io hw) :
  private_data f = Some pchar ->
  0 <= pos < 2 ^ 32 ->
  let a := addr (bar_at pchar (iminor f)) + pos in
  (forall dst_ok,
      exists r m, dev_read readl f dst_ok count pos s = Some r
                  /\ rw_ppos r = pos /\ rw_file r = f
                  /\ private_data (rw_file r) = Some pchar
                  /\ trace (rw_io r) = trace s ++ repeat (Load a) m)
  /\ (forall src,
      exists r vs, dev_write writel f src count pos s = Some r
                  /\ rw_ppos r = pos /\ rw_file r = f
                  /\ private_data (rw_file r) = Some pchar
                  /\ trace (rw_io r) = trace s ++ map (fun v => Store v a) vs).
Proof.
  intros Hopen Hpos a.
  assert (Ha : access_addr f pchar pos = a).
  { unfold access_addr. subst a. f_equal. apply Z.mod_small. exact Hpos. }
  destruct (rw_frame_u32 readl writel f pchar count pos s Hopen) as [Hr Hw].
  rewrite Ha in Hr, Hw. split.
  - intros dst_ok. destruct (Hr dst_ok) as (r & m & H1 & H2 & H3 & H4).
    exists r, m. rewrite H3. repeat split; assumption.
  - intros src. destruct (Hw src) as (r & vs & H1 & H2 & H3 & H4).
    exists r, vs. rewrite H3. repeat split; assumption.
Qed.

Lemma rw_frame_witness :
  exists r vs, dev_write ram_writel (session0 16 4096 4)
                         (fun j => if (j <? 1)%nat then Some 7 else None) 8 4
                         (mk_io ram_zero []) = Some r
               /\ rw_ppos r = 4 /\ rw_file r = session0 16 4096 4
               /\ private_data (rw_file r) = Some (one_bar 16 4096)
               /\ trace (rw_io r) = [] ++ map (fun v => Store v 4100) vs.
Proof.
  assert (Hp : 0 <= 4 < 2 ^ 32) by lia.
  destruct (rw_frame ram_readl ram_writel (session0 16 4096 4)
              (one_bar 16 4096) 8 4 (mk_io ram_zero []) eq_refl Hp)
    as (_ & Hwrite).
  exact (Hwrite (fun j => if (j <? 1)%nat then Some 7 else None)).
Defined.

(** C10, as stated, fails for a position of [2 ^ 32] or more (one that
    [pread] can pass, and that [dev_seek] accepts on a BAR above 4 GiB):
    [u32 offset = *ppos] drops the high bits, so the read at position
    [2 ^ 32] loads from [base], not from [base + 2 ^ 32]. *)
Lemma dev_read_truncates_position :
  exists r, dev_read ram_readl (session0 16 4096 4294967296) (fun _ => true)
                     4 4294967296 (mk_io ram_zero []) = Some r
            /\ trace (rw_io r) = [Load 4096]
            /\ trace (rw_io r) <> [Load (4096 + 4294967296)].
Proof.
  eexists. split; [reflexivity |].
  cbn. split; [reflexivity | discriminate].
Qed.




(** ** Teardown *)

Lemma mem_head a l : mem a (a :: l) = true.
Proof. unfold mem. cbn. now rewrite Z.eqb_refl. Qed.

Lemma remove_one_head a l : remove_one a (a :: l) = l.
Proof. cbn. now rewrite Z.eqb_refl. Qed.

(** The conditional loops over the six indices are loops over the live
    indices. *)
Lemma fold_live (g : Z -> kernel -> kernel) (pchar : pci_char) (l : list Z) :
  forall k,
    fold_left (fun k i => if len (bar_at pchar i) =? 0 then k else g i k) l k
    = fold_left (fun k i => g i k)
                (filter (fun i => negb (len (bar_at pchar i) =? 0)) l) k.
Proof.
  induction l as [| i l IH]; intros k; [reflexivity |].
  cbn [fold_left filter]. destruct (len (bar_at pchar i) =? 0); cbn [negb].
  - apply IH.
  - cbn [fold_left]. apply IH.
Qed.

Lemma unmap_all_live pchar k :
  unmap_all pchar k
  = fold_left (fun k a => iounmap a k) (mapped_addrs pchar) k.
Proof.
  unfold unmap_all, mapped_addrs, live_bars.
  rewrite (fold_live (fun i k => iounmap (addr (bar_at pchar i)) k)).
  generalize (filter (fun i => negb (len (bar_at pchar i) =? 0)) [0; 1; 2; 3; 4; 5]).
  intros l. revert k. induction l as [| i l IH]; intros k; [reflexivity |].
  cbn [fold_left map]. apply IH.
Qed.

Lemma destroy_all_live pchar k :
  destroy_all pchar k
  = fold_left (fun k d => device_destroy d k) (node_ids pchar) k.
Proof.
  unfold destroy_all, node_ids, live_bars.
  rewrite (fold_live (fun i k => device_destroy (MKDEV (major pchar) i) k)).
  generalize (filter (fun i => negb (len (bar_at pchar i) =? 0)) [0; 1; 2; 3; 4; 5]).
  intros l. revert k. induction l as [| i l IH]; intros k; [reflexivity |].
  cbn [fold_left map]. apply IH.
Qed.

(** Unmapping, in order, addresses that head the list of live mappings
    removes exactly them and releases nothing that is not held. *)
Lemma unmap_held l : forall k rest,
  k_maps k = l ++ rest ->
  fold_left (fun k a => iounmap a k) l k
  = mk_kernel (k_live k) (k_enabled k) (k_regions k) rest (k_chrdev k)
              (k_cdev k) (k_nodes k) (k_drvdata k)
              (k_log k ++ map Iounmap l) (k_bad k).
Proof.
  induction l as [| a l IH]; intros k rest Hk.
  - cbn. rewrite app_nil_r. cbn in Hk. rewrite <- Hk. destruct k; reflexivity.
  - cbn [fold_left]. rewrite (IH _ rest).
    + unfold iounmap, logged, with_maps; cbn.
      rewrite Hk. cbn [app]. rewrite mem_head. rewrite <- app_assoc. reflexivity.
    + unfold iounmap, logged, with_maps; cbn. rewrite Hk. cbn [app].
      apply remove_one_head.
Qed.

Lemma destroy_held l : forall k rest,
  k_nodes k = l ++ rest ->
  fold_left (fun k d => device_destroy d k) l k
  = mk_kernel (k_live k) (k_enabled k) (k_regions k) (k_maps k) (k_chrdev k)
              (k_cdev k) rest (k_drvdata k)
              (k_log k ++ map DeviceDestroy l) (k_bad k).
Proof.
  induction l as [| a l IH]; intros k rest Hk.
  - cbn. rewrite app_nil_r. cbn in Hk. rewrite <- Hk. destruct k; reflexivity.
  - cbn [fold_left]. rewrite (IH _ rest).
    + unfold device_destroy, logged, with_nodes; cbn.
      rewrite Hk. cbn [app]. rewrite mem_head. rewrite <- app_assoc. reflexivity.
    + unfold device_destroy, logged, with_nodes; cbn. rewrite Hk. cbn [app].
      apply remove_one_head.
Qed.

(** The releasing calls on an explicit kernel state. *)
Lemma cdev_del_mk l e r m c cd n d lg bd :
  cdev_del (mk_kernel l e r m c cd n d lg bd)
  = mk_kernel l e r m c false n d (lg ++ [CdevDel])
              (if cd then bd else bd ++ [CdevDel]).
Proof. reflexivity. Qed.

Lemma unregister_chrdev_region_mk l e r m c cd n d lg bd :
  unregister_chrdev_region (mk_kernel l e r m c cd n d lg bd)
  = mk_kernel l e r m false cd n d (lg ++ [UnregisterChrdev])
              (if c then bd else bd ++ [UnregisterChrdev]).
Proof. reflexivity. Qed.

Lemma pci_release_selected_regions_mk l e r m c cd n d lg bd :
  pci_release_selected_regions (mk_kernel l e r m c cd n d lg bd)
  = mk_kernel l e false m c cd n d (lg ++ [ReleaseRegions])
              (if r then bd else bd ++ [ReleaseRegions]).
Proof. reflexivity. Qed.

Lemma pci_disable_device_mk l e r m c cd n d lg bd :
  pci_disable_device (mk_kernel l e r m c cd n d lg bd)
  = mk_kernel l false r m c cd n d (lg ++ [PciDisable])
              (if e then bd else bd ++ [PciDisable]).
Proof. reflexivity. Qed.

Lemma kfree_mk l e r m c cd n d lg bd :
  kfree (mk_kernel l e r m c cd n d lg bd)
  = mk_kernel false e r m c cd n d (lg ++ [Kfree])
              (if l then bd else bd ++ [Kfree]).
Proof. reflexivity. Qed.

Ltac kproj :=
  cbn [k_live k_enabled k_regions k_maps k_chrdev k_cdev k_nodes k_drvdata
       k_log k_bad].
Ltac kproj_in H :=
  cbn [k_live k_enabled k_regions k_maps k_chrdev k_cdev k_nodes k_drvdata
       k_log k_bad] in H.
Ltac release_steps :=
  rewrite ?cdev_del_mk, ?unregister_chrdev_region_mk,
    ?pci_release_selected_regions_mk, ?pci_disable_device_mk, ?kfree_mk.

(** [pci_remove] on an attached device. *)
Lemma pci_remove_attached pchar k :
  attached pchar k ->
  pci_remove k
  = Some (mk_kernel false false false [] false false [] (Some pchar)
                    (k_log k ++ teardown_calls pchar) (k_bad k)).
Proof.
  intros (Hd & Hl & He & Hr & Hc & Hcd & Hm & Hn).
  destruct k as [live en reg maps chr cd nodes drv log bad].
  kproj_in Hd; kproj_in Hl; kproj_in He; kproj_in Hr; kproj_in Hc;
  kproj_in Hcd; kproj_in Hm; kproj_in Hn. subst.
  unfold pci_remove. kproj.
  rewrite destroy_all_live.
  rewrite (destroy_held _ _ []) by (kproj; now rewrite app_nil_r).
  kproj. release_steps.
  rewrite unmap_all_live.
  rewrite (unmap_held _ _ []) by (kproj; now rewrite app_nil_r).
  kproj. release_steps.
  unfold teardown_calls. rewrite <- !app_assoc. reflexivity.
Qed.

(** On what a completed [pci_remove] leaves, the record is freed: a
    further [pci_remove] is an invalid access. *)
Lemma pci_remove_freed k :
  k_live k = false -> pci_remove k = None.
Proof.
  intros Hl. unfold pci_remove. rewrite Hl. now destruct (k_drvdata k).
Qed.

(** ** Attach *)

(** C3, at a failing input.  BARs 0 to 3 are memory and [ioremap] fails for
    BAR 3 by returning [NULL]: [IS_ERR(NULL)] is false, so [pci_probe] does
    not see the failure.  It returns 0; the mappings of BARs 0 to 2 stay
    live, all four nodes are published, and the published record describes
    BAR 3 as 256 bytes at [NULL]. *)
Theorem probe_ignores_null_mapping :
  IS_ERR NULL = false
  /\ exists k pchar,
       pci_probe dev_null3 kernel_init = (0, k)
       /\ k_maps k = [map_fine 0; map_fine 1; map_fine 2]
       /\ k_nodes k = [MKDEV 250 0; MKDEV 250 1; MKDEV 250 2; MKDEV 250 3]
       /\ k_regions k = true
       /\ k_drvdata k = Some pchar
       /\ bar_at pchar 3 = mk_bar 256 NULL.
Proof.
  split; [reflexivity |].
  eexists; eexists.
  split; [vm_compute; reflexivity |].
  repeat split; reflexivity.
Qed.

(** When the failure of BAR 3 is reported as an encoded error instead,
    [pci_probe] rolls back: it unmaps BARs 2, 1 and 0, releases the regions,
    disables the device, frees the record and returns the error. *)
Example probe_rolls_back_encoded_error :
  pci_probe dev_errptr3 kernel_init
  = (- ENOMEM,
     mk_kernel false false false [] false false [] None
               [Kmalloc; PciEnable; RequestRegions;
                Ioremap 0; Ioremap 1; Ioremap 2; Ioremap 3;
                Iounmap (map_fine 2); Iounmap (map_fine 1); Iounmap (map_fine 0);
                ReleaseRegions; PciDisable; Kfree]
               []).
Proof. vm_compute. reflexivity. Qed.

(** A failure of [device_create] at BAR 3 destroys nodes 2, 1 and 0 and
    unwinds everything else. *)
Example probe_rolls_back_node_failure :
  pci_probe dev_nodefail3 kernel_init
  = (- ENOMEM,
     mk_kernel false false false [] false false [] None
               [Kmalloc; PciEnable; RequestRegions;
                Ioremap 0; Ioremap 1; Ioremap 2; Ioremap 3;
                AllocChrdev; CdevAdd;
                DeviceCreate (MKDEV 250 0); DeviceCreate (MKDEV 250 1);
                DeviceCreate (MKDEV 250 2); DeviceCreate (MKDEV 250 3);
                DeviceDestroy (MKDEV 250 2); DeviceDestroy (MKDEV 250 1);
                DeviceDestroy (MKDEV 250 0);
                CdevDel; UnregisterChrdev;
                Iounmap (map_fine 0); Iounmap (map_fine 1);
                Iounmap (map_fine 2); Iounmap (map_fine 3);
                ReleaseRegions; PciDisable; Kfree]
               []).
Proof. vm_compute. reflexivity. Qed.

(** C4, at a failing input.  BARs 0 and 3 are memory and [ioremap] returns
    [NULL] for BAR 0.  The attach succeeds, and for index 0 the record has a
    length above 0 and a node is published, but the base is [NULL] and no
    mapping for it is live. *)
Theorem probe_success_with_invalid_base :
  exists k pchar,
    pci_probe dev_null0 kernel_init = (0, k)
    /\ k_drvdata k = Some pchar
    /\ 0 < len (bar_at pchar 0)
    /\ addr (bar_at pchar 0) = NULL
    /\ valid_ptr (addr (bar_at pchar 0)) = false
    /\ mem (addr (bar_at pchar 0)) (k_maps k) = false
    /\ mem (MKDEV (major pchar) 0) (k_nodes k) = true.
Proof.
  eexists; eexists.
  split; [vm_compute; reflexivity |].
  repeat split; reflexivity.
Qed.

(** ** The loops of attach *)

Lemma IS_ERR_nonzero p : IS_ERR p = true -> to_s32 (PTR_ERR p) <> 0.
Proof.
  unfold IS_ERR, PTR_ERR, MAX_ERRNO. intros H. apply Z.leb_le in H.
  change (to_u64 (- 4095)) with 18446744073709547521 in H.
  zwrap.
Qed.

Lemma upd_length {A : Type} (l : list A) : forall i x,
  length (upd l i x) = length l.
Proof.
  induction l as [| h t IH]; intros [| i] x; cbn; try reflexivity.
  now rewrite IH.
Qed.

Lemma nth_upd {A : Type} (l : list A) : forall i j x d,
  (i < length l)%nat ->
  nth j (upd l i x) d = if (j =? i)%nat then x else nth j l d.
Proof.
  induction l as [| h t IH]; intros i j x d Hi; cbn in Hi; [lia |].
  destruct i as [| i]; destruct j as [| j]; cbn; try reflexivity.
  apply IH. lia.
Qed.

Lemma bar_at_set_bar p i j b :
  0 <= i -> 0 <= j -> (Z.to_nat i < length (bar p))%nat ->
  bar_at (set_bar p i b) j = if j =? i then b else bar_at p j.
Proof.
  intros Hi Hj Hlen. unfold bar_at, set_bar. cbn [bar].
  rewrite nth_upd by assumption.
  destruct (Z.eqb_spec j i) as [-> | Hne].
  - now rewrite Nat.eqb_refl.
  - destruct (Nat.eqb_spec (Z.to_nat j) (Z.to_nat i)) as [E | E]; [| reflexivity].
    exfalso. apply Hne. lia.
Qed.

Lemma set_bar_length p i b : length (bar (set_bar p i b)) = length (bar p).
Proof. unfold set_bar. cbn [bar]. apply upd_length. Qed.

Lemma zrange_bounds n : forall i j, In j (zrange i n) -> i <= j < i + Z.of_nat n.
Proof.
  induction n as [| n IH]; intros i j Hin; cbn in Hin; [contradiction |].
  destruct Hin as [<- | Hin]; [lia |]. apply IH in Hin. lia.
Qed.

Lemma ioremap_mk i p l e r m c cd n d lg bd :
  ioremap i p (mk_kernel l e r m c cd n d lg bd)
  = mk_kernel l e r (m ++ filter valid_ptr [p]) c cd n d (lg ++ [Ioremap i]) bd.
Proof.
  unfold ioremap. cbn [filter]. destruct (valid_ptr p); [reflexivity |].
  cbn. now rewrite app_nil_r.
Qed.

Lemma device_create_mk dv p l e r m c cd n d lg bd :
  IS_ERR p = false ->
  device_create dv p (mk_kernel l e r m c cd n d lg bd)
  = mk_kernel l e r m c cd (n ++ [dv]) d (lg ++ [DeviceCreate dv]) bd.
Proof. intros H. unfold device_create. rewrite H. reflexivity. Qed.

(** The mapping loop, when it reports no error: it ran to the end, stored
    [probed_bar] for each index it visited, and mapped what [ioremap]
    returned a valid pointer for. *)
Lemma map_loop_done e n : forall i pchar k i' pchar' k',
  0 <= i -> (Z.to_nat i + n <= length (bar pchar))%nat ->
  map_loop e n i pchar k = (0, i', pchar', k') ->
  i' = i + Z.of_nat n
  /\ length (bar pchar') = length (bar pchar)
  /\ major pchar' = major pchar
  /\ (forall j, 0 <= j ->
        bar_at pchar' j
        = if (i <=? j) && (j <? i + Z.of_nat n) then probed_bar e j
          else bar_at pchar j)
  /\ (forall j, In j (selected_in e i n) -> IS_ERR (ioremap_ret e j) = false)
  /\ k' = mk_kernel (k_live k) (k_enabled k) (k_regions k)
            (k_maps k
             ++ filter valid_ptr (map (ioremap_ret e) (selected_in e i n)))
            (k_chrdev k) (k_cdev k) (k_nodes k) (k_drvdata k)
            (k_log k ++ map Ioremap (selected_in e i n)) (k_bad k).
Proof.
  induction n as [| n IH]; intros i pchar k i' pchar' k' Hi Hlen H.
  - cbn in H. injection H as <- <- <-.
    split; [lia |]. split; [reflexivity |]. split; [reflexivity |].
    split; [| split].
    + intros j Hj.
      destruct (Z.leb_spec i j); destruct (Z.ltb_spec j (i + Z.of_nat 0));
        cbn [andb]; try reflexivity; lia.
    + intros j [].
    + destruct k. cbn. now rewrite !app_nil_r.
  - cbn [map_loop] in H. unfold selected_in. cbn [zrange filter].
    fold (selected_in e (i + 1) n).
    destruct (bar_selected e i) eqn:Es.
    + destruct (IS_ERR (ioremap_ret e i)) eqn:Ee.
      * injection H as H0 _ _ _. now apply IS_ERR_nonzero in Ee.
      * apply IH in H; [| lia | rewrite !set_bar_length; lia].
        destruct H as (Hi' & Hl' & Hmaj & Hbar & Hsel & Hk).
        split; [lia |]. split; [now rewrite Hl', !set_bar_length |].
        split; [exact Hmaj |]. split; [| split].
        -- intros j Hj. rewrite (Hbar j Hj).
           rewrite !bar_at_set_bar
             by (rewrite ?set_bar_length; lia).
           destruct (Z.eqb_spec j i) as [-> | Hne].
           ++ unfold probed_bar. rewrite Es.
              destruct (Z.leb_spec (i + 1) i); [lia |]. cbn [andb].
              destruct (Z.leb_spec i i); [| lia].
              destruct (Z.ltb_spec i (i + Z.of_nat (S n))); [| lia].
              reflexivity.
           ++ destruct (Z.leb_spec (i + 1) j); destruct (Z.leb_spec i j);
                destruct (Z.ltb_spec j (i + 1 + Z.of_nat n));
                destruct (Z.ltb_spec j (i + Z.of_nat (S n)));
                cbn [andb]; try reflexivity; lia.
        -- intros j [<- | Hin]; [exact Ee | now apply Hsel].
        -- rewrite Hk. destruct k. rewrite ioremap_mk. kproj.
           cbn [map filter].
           destruct (valid_ptr (ioremap_ret e i));
             rewrite <- ?app_assoc, ?app_nil_r; reflexivity.
    + apply IH in H; [| lia | rewrite !set_bar_length; lia].
      destruct H as (Hi' & Hl' & Hmaj & Hbar & Hsel & Hk).
      split; [lia |]. split; [now rewrite Hl', !set_bar_length |].
      split; [exact Hmaj |]. split; [| split].
      * intros j Hj. rewrite (Hbar j Hj).
        rewrite !bar_at_set_bar by (rewrite ?set_bar_length; lia).
        destruct (Z.eqb_spec j i) as [-> | Hne].
        -- unfold probed_bar. rewrite Es.
           destruct (Z.leb_spec (i + 1) i); [lia |]. cbn [andb].
           destruct (Z.leb_spec i i); [| lia].
           destruct (Z.ltb_spec i (i + Z.of_nat (S n))); [| lia].
           reflexivity.
        -- destruct (Z.leb_spec (i + 1) j); destruct (Z.leb_spec i j);
             destruct (Z.ltb_spec j (i + 1 + Z.of_nat n));
             destruct (Z.ltb_spec j (i + Z.of_nat (S n)));
             cbn [andb]; try reflexivity; lia.
      * exact Hsel.
      * exact Hk.
Qed.

(** The node loop, when it reports no error: one node per BAR in use. *)
Lemma create_loop_done e pchar n : forall i k i' k',
  create_loop e n i pchar k = (0, i', k') ->
  i' = i + Z.of_nat n
  /\ (forall j, In j (live_in pchar i n) ->
                IS_ERR (device_create_ret e j) = false)
  /\ k' = mk_kernel (k_live k) (k_enabled k) (k_regions k) (k_maps k)
            (k_chrdev k) (k_cdev k)
            (k_nodes k ++ map (fun j => MKDEV (major pchar) j) (live_in pchar i n))
            (k_drvdata k)
            (k_log k ++ map (fun j => DeviceCreate (MKDEV (major pchar) j))
                            (live_in pchar i n))
            (k_bad k).
Proof.
  induction n as [| n IH]; intros i k i' k' H.
  - cbn in H. injection H as <- <-.
    split; [lia |]. split; [intros j [] |].
    destruct k. cbn. now rewrite !app_nil_r.
  - cbn [create_loop] in H. unfold live_in. cbn [zrange filter].
    fold (live_in pchar (i + 1) n).
    destruct (len (bar_at pchar i) =? 0) eqn:El; cbn [negb].
    + apply IH in H. destruct H as (Hi' & Hok & Hk).
      split; [lia |]. split; assumption.
    + destruct (IS_ERR (device_create_ret e i)) eqn:Ee.
      * injection H as H0 _ _. now apply IS_ERR_nonzero in Ee.
      * apply IH in H. destruct H as (Hi' & Hok & Hk).
        split; [lia |]. split.
        -- intros j [<- | Hin]; [exact Ee | now apply Hok].
        -- rewrite Hk. destruct k. rewrite device_create_mk by exact Ee.
           kproj. cbn [map]. rewrite <- !app_assoc. reflexivity.
Qed.

(** Two six-entry arrays with the same entries are the same. *)
Lemma bars_ext (p q : pci_char) :
  length (bar p) = 6%nat -> length (bar q) = 6%nat ->
  major p = major q ->
  (forall j, 0 <= j < 6 -> bar_at p j = bar_at q j) ->
  p = q.
Proof.
  destruct p as [bp mp], q as [bq mq]. cbn [bar major]. intros Hp Hq -> H.
  f_equal.
  do 7 (destruct bp as [| ? bp]; try discriminate Hp).
  do 7 (destruct bq as [| ? bq]; try discriminate Hq).
  pose proof (H 0 ltac:(lia)) as H0. pose proof (H 1 ltac:(lia)) as H1.
  pose proof (H 2 ltac:(lia)) as H2. pose proof (H 3 ltac:(lia)) as H3.
  pose proof (H 4 ltac:(lia)) as H4. pose proof (H 5 ltac:(lia)) as H5.
  cbv in H0, H1, H2, H3, H4, H5. congruence.
Qed.

Lemma bar_at_probe_record e j :
  0 <= j < 6 -> bar_at (probe_record e) j = probed_bar e j.
Proof.
  intros Hj.
  assert (H : j = 0 \/ j = 1 \/ j = 2 \/ j = 3 \/ j = 4 \/ j = 5) by lia.
  destruct H as [-> | [-> | [-> | [-> | [-> | ->]]]]]; reflexivity.
Qed.

(** A successful [pci_probe], from a kernel that holds nothing for the
    device: the state it leaves, in full. *)
Lemma pci_probe_success e k :
  pci_probe e kernel_init = (0, k) ->
  k = mk_kernel true true true
        (filter valid_ptr (map (ioremap_ret e) (selected_in e 0 6)))
        true true (node_ids (probe_record e)) (Some (probe_record e))
        ([Kmalloc; PciEnable; RequestRegions]
           ++ map Ioremap (selected_in e 0 6)
           ++ [AllocChrdev; CdevAdd]
           ++ map DeviceCreate (node_ids (probe_record e))
           ++ [SetDrvdata])
        []
  /\ (forall j, In j (selected_in e 0 6) -> IS_ERR (ioremap_ret e j) = false).
Proof.
  unfold pci_probe. intros H.
  destruct (kmalloc_ok e); cbn [negb] in H; [| discriminate H].
  destruct (Z.eqb_spec (enable_ret e) 0) as [E1 | E1]; cbn [negb] in H;
    [| injection H as H _; contradiction].
  destruct (Z.eqb_spec (request_ret e) 0) as [E2 | E2]; cbn [negb] in H;
    [| injection H as H _; contradiction].
  cbv [logged with_live with_enabled with_regions kernel_init k_live k_enabled
       k_regions k_maps k_chrdev k_cdev k_nodes k_drvdata k_log k_bad] in H.
  cbn [app] in H.
  destruct (map_loop e 6 0 (junk_record e) _) as [[[err i] pchar] k1] eqn:Em.
  destruct (Z.eqb_spec err 0) as [-> | E3]; cbn [negb] in H;
    [| injection H as H _; contradiction].
  apply map_loop_done in Em; [| lia | cbn; lia].
  destruct Em as (Hi & Hlen & Hmaj & Hbar & Hsel & Hk1). kproj_in Hk1.
  destruct (Z.eqb_spec (chrdev_ret e) 0) as [E4 | E4]; cbn [negb] in H;
    [| injection H as H _; contradiction].
  destruct (Z.eqb_spec (cdev_add_ret e) 0) as [E5 | E5]; cbn [negb] in H;
    [| injection H as H _; contradiction].
  assert (Hrec : mk_pci_char (bar pchar) (MAJOR (dev_num e)) = probe_record e).
  { apply bars_ext; [exact Hlen | reflexivity | reflexivity |].
    intros j Hj. rewrite bar_at_probe_record by exact Hj.
    change (bar_at (mk_pci_char (bar pchar) (MAJOR (dev_num e))) j)
      with (bar_at pchar j).
    rewrite Hbar by lia.
    destruct (Z.leb_spec 0 j); [| lia].
    destruct (Z.ltb_spec j (0 + Z.of_nat 6)); [reflexivity | lia]. }
  rewrite Hrec in H. subst k1.
  cbv [logged with_chrdev with_cdev k_live k_enabled
       k_regions k_maps k_chrdev k_cdev k_nodes k_drvdata k_log k_bad] in H.
  destruct (create_loop e 6 0 (probe_record e) _) as [[err i2] k2] eqn:Ec.
  destruct (Z.eqb_spec err 0) as [-> | E6]; cbn [negb] in H;
    [| injection H as H _; contradiction].
  apply create_loop_done in Ec. destruct Ec as (_ & _ & Hk2). kproj_in Hk2.
  subst k2. injection H as <-. split; [| exact Hsel].
  cbv [logged with_drvdata k_live k_enabled
       k_regions k_maps k_chrdev k_cdev k_nodes k_drvdata k_log k_bad].
  cbn [app]. rewrite <- !app_assoc. cbn [app].
  unfold node_ids, live_bars. rewrite map_map. reflexivity.
Qed.

Lemma filter_all {A : Type} (f : A -> bool) (l : list A) :
  (forall x, In x l -> f x = true) -> filter f l = l.
Proof.
  induction l as [| a l IH]; intros H; [reflexivity |].
  cbn. rewrite (H a) by now left. f_equal. apply IH. intros x Hx. apply H. now right.
Qed.

Lemma In_six j : In j [0; 1; 2; 3; 4; 5] -> 0 <= j < 6.
Proof. cbn. intros H. lia. Qed.

(** When every memory BAR is non-empty, the BARs in use according to the
    record are the selected ones. *)
Lemma live_bars_selected e :
  no_null e -> live_bars (probe_record e) = selected_in e 0 6.
Proof.
  intros Hall. unfold live_bars, selected_in.
  change (zrange 0 6) with [0; 1; 2; 3; 4; 5].
  apply filter_ext_in. intros j Hj. apply In_six in Hj.
  rewrite bar_at_probe_record by exact Hj. unfold probed_bar.
  destruct (bar_selected e j) eqn:Es; cbn [len]; [| reflexivity].
  destruct (Hall j Hj Es) as [_ Hne]. apply Z.eqb_neq in Hne. now rewrite Hne.
Qed.

Lemma selected_in_six e j :
  In j (selected_in e 0 6) -> 0 <= j < 6 /\ bar_selected e j = true.
Proof.
  unfold selected_in. intros Hj. apply filter_In in Hj. destruct Hj as [Hj Hs].
  change (zrange 0 6) with [0; 1; 2; 3; 4; 5] in Hj. apply In_six in Hj.
  now split.
Qed.

(** A successful attach of a device for which [ioremap] never answers
    [NULL] leaves it [attached]: in particular a BAR has a non-zero length
    in the record exactly when its mapping is live and its node published,
    and nothing was released that was not held. *)
Lemma pci_probe_attached e k :
  no_null e -> pci_probe e kernel_init = (0, k) ->
  attached (probe_record e) k /\ k_bad k = [].
Proof.
  intros Hall H. apply pci_probe_success in H. destruct H as [-> Hsel].
  unfold attached. kproj. repeat split.
  unfold mapped_addrs. rewrite (live_bars_selected e Hall).
  rewrite filter_all.
  - apply map_ext_in. intros j Hj. apply selected_in_six in Hj.
    destruct Hj as [Hj Hs].
    rewrite bar_at_probe_record by exact Hj. unfold probed_bar. now rewrite Hs.
  - intros p Hp. apply in_map_iff in Hp. destruct Hp as (j & <- & Hj).
    unfold valid_ptr. rewrite (Hsel j Hj). apply selected_in_six in Hj.
    destruct Hj as [Hj Hs]. destruct (Hall j Hj Hs) as [Hnn _].
    apply Z.eqb_neq in Hnn. now rewrite Hnn.
Qed.

(** X8.  Attach, then detach: everything acquired is released, once. *)
Corollary pci_probe_then_remove e k :
  no_null e -> pci_probe e kernel_init = (0, k) ->
  exists k2, pci_remove k = Some k2 /\ released k2 /\ k_bad k2 = [].
Proof.
  intros Hall H. destruct (pci_probe_attached e k Hall H) as [Hat Hbad].
  rewrite (pci_remove_attached _ _ Hat). eexists. split; [reflexivity |].
  unfold released. kproj. repeat split. exact Hbad.
Qed.

(** The sample device meets the assumption of the two results above, and
    its attach succeeds. *)
Example dev_sample_no_null : no_null dev_sample.
Proof.
  intros i Hi Hs.
  assert (H : i = 0 \/ i = 1 \/ i = 2 \/ i = 3 \/ i = 4 \/ i = 5) by lia.
  destruct H as [-> | [-> | [-> | [-> | [-> | ->]]]]];
    try discriminate Hs; split; try reflexivity; discriminate.
Qed.

Example dev_sample_attached :
  attached pchar_sample (snd (pci_probe dev_sample kernel_init))
  /\ fst (pci_probe dev_sample kernel_init) = 0.
Proof. unfold attached. repeat split; reflexivity. Qed.

(** C9 (amended).  After a successful attach in which [ioremap] answered
    [NULL] for no memory BAR, one [pci_remove] makes every releasing call
    once (each published node destroyed, each mapping unmapped, the
    regions released, the device disabled, the record freed), leaves
    nothing held and releases nothing that was not held.  It is not
    idempotent: it leaves the driver-data pointer set to the record it
    freed and tests nothing on entry, so a second [pci_remove] begins with
    a read of the freed record, an invalid access. *)
Theorem pci_remove_once_only (e : pci_dev) (k : kernel) :
  no_null e -> pci_probe e kernel_init = (0, k) ->
  exists k2,
    pci_remove k = Some k2
    /\ released k2
    /\ k_log k2 = k_log k ++ teardown_calls (probe_record e)
    /\ k_bad k2 = []
    /\ k_drvdata k2 = Some (probe_record e)
    /\ pci_remove k2 = None.
Proof.
  intros Hall H. destruct (pci_probe_attached e k Hall H) as [Hat Hbad].
  rewrite (pci_remove_attached _ _ Hat). eexists. split; [reflexivity |].
  split; [unfold released; kproj; repeat split |].
  kproj. split; [reflexivity |]. split; [exact Hbad |].
  split; [reflexivity |]. apply pci_remove_freed. reflexivity.
Qed.

Lemma pci_remove_once_only_witness :
  exists k2,
    pci_remove (snd (pci_probe dev_sample kernel_init)) = Some k2
    /\ released k2
    /\ k_log k2 = k_log (snd (pci_probe dev_sample kernel_init))
                  ++ teardown_calls (probe_record dev_sample)
    /\ k_bad k2 = []
    /\ k_drvdata k2 = Some (probe_record dev_sample)
    /\ pci_remove k2 = None.
Proof.
  apply (pci_remove_once_only dev_sample
           (snd (pci_probe dev_sample kernel_init))).
  - exact dev_sample_no_null.
  - vm_compute. reflexivity.
Defined.

(** C9, as stated, fails: after a successful attach of the sample device
    and a completed detach, which unmapped both ranges and freed the
    record, the driver-data pointer still leads to that record, and a
    second detach is neither a no-op nor a report of a device already
    detached: it reads the freed record. *)
Lemma pci_remove_twice_reads_freed_record :
  exists k1 k2,
    pci_probe dev_sample kernel_init = (0, k1)
    /\ pci_remove k1 = Some k2
    /\ k_maps k2 = [] /\ k_live k2 = false /\ k_bad k2 = []
    /\ k_drvdata k2 = Some pchar_sample
    /\ pci_remove k2 = None
    /\ pci_remove k2 <> Some k2.
Proof.
  eexists; eexists.
  split; [vm_compute; reflexivity |].
  split; [vm_compute; reflexivity |].
  repeat (split; [reflexivity |]).
  intros H. vm_compute in H. discriminate H.
Qed.

(** ** Rollback *)

Lemma mem_In a l : mem a l = true <-> In a l.
Proof.
  unfold mem. rewrite existsb_exists. split.
  - intros (x & Hx & E). apply Z.eqb_eq in E. now subst.
  - intros H. exists a. split; [exact H | apply Z.eqb_refl].
Qed.

Lemma remove_one_perm a l : In a l -> Permutation l (a :: remove_one a l).
Proof.
  induction l as [| x l IH]; intros H; [contradiction |].
  cbn. destruct (Z.eqb_spec a x) as [-> | Hne]; [reflexivity |].
  destruct H as [-> | H]; [contradiction |].
  rewrite perm_swap. constructor. now apply IH.
Qed.

(** Releasing an element that is the last of what remains to release. *)
Lemma release_last a l M L :
  Permutation l (M ++ L ++ [a]) ->
  mem a l = true /\ Permutation (remove_one a l) (M ++ L).
Proof.
  intros H.
  assert (Hin : In a l).
  { apply (Permutation_in a (Permutation_sym H)).
    rewrite !in_app_iff. right; right. now left. }
  split; [now apply mem_In |].
  apply (Permutation_cons_inv (a := a)).
  rewrite <- (remove_one_perm a l Hin). rewrite H.
  rewrite app_assoc. rewrite <- Permutation_cons_append. reflexivity.
Qed.

Lemma zrange_snoc n : forall i, zrange i (S n) = zrange i n ++ [i + Z.of_nat n].
Proof.
  induction n as [| n IH]; intros i.
  - cbn. now rewrite Z.add_0_r.
  - change (zrange i (S (S n))) with (i :: zrange (i + 1) (S n)).
    rewrite IH. cbn [zrange app]. do 2 f_equal. f_equal. lia.
Qed.

Lemma live_in_snoc pchar n :
  live_in pchar 0 (S n)
  = live_in pchar 0 n
    ++ (if len (bar_at pchar (Z.of_nat n)) =? 0 then [] else [Z.of_nat n]).
Proof.
  unfold live_in. rewrite zrange_snoc, filter_app. cbn [filter Z.add].
  now destruct (len (bar_at pchar (Z.of_nat n)) =? 0).
Qed.

(** The unmapping loop of the rollback, run on a kernel whose live mappings
    are [M] and those of the BARs in use below [n], in any order: it
    unmaps the latter, last first, and releases nothing that is not held. *)
Lemma unmap_below_spec pchar n : forall k M,
  Permutation (k_maps k)
              (M ++ map (fun j => addr (bar_at pchar j)) (live_in pchar 0 n)) ->
  exists m',
    Permutation m' M
    /\ unmap_below n pchar k
       = mk_kernel (k_live k) (k_enabled k) (k_regions k) m' (k_chrdev k)
                   (k_cdev k) (k_nodes k) (k_drvdata k)
                   (k_log k
                    ++ map Iounmap
                         (rev (map (fun j => addr (bar_at pchar j))
                                   (live_in pchar 0 n))))
                   (k_bad k).
Proof.
  induction n as [| n IH]; intros k M H.
  - cbn in H. rewrite app_nil_r in H. exists (k_maps k). split; [exact H |].
    cbn. rewrite app_nil_r. destruct k; reflexivity.
  - cbn [unmap_below]. rewrite live_in_snoc in *.
    destruct (len (bar_at pchar (Z.of_nat n)) =? 0).
    + rewrite app_nil_r in *. now apply IH.
    + rewrite map_app in H. cbn [map] in H.
      apply release_last in H. destruct H as [Hmem Hperm].
      destruct (IH (iounmap (addr (bar_at pchar (Z.of_nat n))) k) M)
        as (m' & Hm' & Heq).
      { destruct k. unfold iounmap, logged, with_maps. kproj. exact Hperm. }
      exists m'. split; [exact Hm' |]. rewrite Heq.
      destruct k. unfold iounmap, logged, with_maps. kproj.
      kproj_in Hmem. rewrite Hmem.
      rewrite map_app, rev_app_distr. cbn [map rev app].
      rewrite <- app_assoc. reflexivity.
Qed.

(** The node loop of the rollback, likewise. *)
Lemma destroy_below_spec pchar n : forall k M,
  Permutation (k_nodes k)
              (M ++ map (fun j => MKDEV (major pchar) j) (live_in pchar 0 n)) ->
  exists m',
    Permutation m' M
    /\ destroy_below n pchar k
       = mk_kernel (k_live k) (k_enabled k) (k_regions k) (k_maps k)
                   (k_chrdev k) (k_cdev k) m' (k_drvdata k)
                   (k_log k
                    ++ map DeviceDestroy
                         (rev (map (fun j => MKDEV (major pchar) j)
                                   (live_in pchar 0 n))))
                   (k_bad k).
Proof.
  induction n as [| n IH]; intros k M H.
  - cbn in H. rewrite app_nil_r in H. exists (k_nodes k). split; [exact H |].
    cbn. rewrite app_nil_r. destruct k; reflexivity.
  - cbn [destroy_below]. rewrite live_in_snoc in *.
    destruct (len (bar_at pchar (Z.of_nat n)) =? 0).
    + rewrite app_nil_r in *. now apply IH.
    + rewrite map_app in H. cbn [map] in H.
      apply release_last in H. destruct H as [Hmem Hperm].
      destruct (IH (device_destroy (MKDEV (major pchar) (Z.of_nat n)) k) M)
        as (m' & Hm' & Heq).
      { destruct k. unfold device_destroy, logged, with_nodes. kproj.
        exact Hperm. }
      exists m'. split; [exact Hm' |]. rewrite Heq.
      destruct k. unfold device_destroy, logged, with_nodes. kproj.
      kproj_in Hmem. rewrite Hmem.
      rewrite map_app, rev_app_distr. cbn [map rev app].
      rewrite <- app_assoc. reflexivity.
Qed.

Lemma device_create_err_mk dv p l e r m c cd n d lg bd :
  IS_ERR p = true ->
  device_create dv p (mk_kernel l e r m c cd n d lg bd)
  = mk_kernel l e r m c cd n d (lg ++ [DeviceCreate dv]) bd.
Proof. intros H. unfold device_create. rewrite H. reflexivity. Qed.

Lemma IS_ERR_invalid p : IS_ERR p = true -> valid_ptr p = false.
Proof. intros H. unfold valid_ptr. rewrite H. apply andb_false_r. Qed.

(** The mapping loop, when it reports an error: it stopped at the first
    selected BAR [i'] whose [ioremap] result is an encoded error, having
    stored [probed_bar] for the indices before it. *)
Lemma map_loop_fail e n : forall i pchar k err i' pchar' k',
  0 <= i -> (Z.to_nat i + n <= length (bar pchar))%nat ->
  map_loop e n i pchar k = (err, i', pchar', k') -> err <> 0 ->
  i <= i' < i + Z.of_nat n
  /\ IS_ERR (ioremap_ret e i') = true
  /\ err = to_s32 (PTR_ERR (ioremap_ret e i'))
  /\ (forall j, 0 <= j < i' ->
        bar_at pchar' j = if i <=? j then probed_bar e j else bar_at pchar j)
  /\ (forall j, In j (selected_in e i (Z.to_nat (i' - i))) ->
                IS_ERR (ioremap_ret e j) = false)
  /\ k' = mk_kernel (k_live k) (k_enabled k) (k_regions k)
            (k_maps k
             ++ filter valid_ptr
                  (map (ioremap_ret e) (selected_in e i (Z.to_nat (i' - i)))))
            (k_chrdev k) (k_cdev k) (k_nodes k) (k_drvdata k)
            (k_log k ++ map Ioremap (selected_in e i (Z.to_nat (i' - i)))
                   ++ [Ioremap i'])
            (k_bad k).
Proof.
  induction n as [| n IH]; intros i pchar k err i' pchar' k' Hi Hlen H Herr.
  - cbn in H. injection H as <- _ _ _. contradiction.
  - cbn [map_loop] in H.
    destruct (bar_selected e i) eqn:Es.
    + destruct (IS_ERR (ioremap_ret e i)) eqn:Ee.
      * injection H as <- <- <- <-.
        replace (Z.to_nat (i - i)) with 0%nat by lia.
        unfold selected_in. cbn [zrange filter map].
        split; [lia |]. split; [exact Ee |]. split; [reflexivity |].
        split; [| split].
        -- intros j Hj. rewrite bar_at_set_bar by lia.
           destruct (Z.eqb_spec j i); [lia |].
           destruct (Z.leb_spec i j); [lia | reflexivity].
        -- intros j [].
        -- destruct k. rewrite ioremap_mk. kproj. cbn [filter].
           rewrite (IS_ERR_invalid _ Ee). rewrite !app_nil_r. reflexivity.
      * apply IH in H; [| lia | rewrite !set_bar_length; lia | exact Herr].
        destruct H as (Hi' & He' & Herr' & Hbar & Hsel & Hk).
        replace (Z.to_nat (i' - i)) with (S (Z.to_nat (i' - (i + 1)))) by lia.
        unfold selected_in. cbn [zrange filter]. rewrite Es.
        fold (selected_in e (i + 1) (Z.to_nat (i' - (i + 1)))).
        split; [lia |]. split; [exact He' |]. split; [exact Herr' |].
        split; [| split].
        -- intros j Hj. rewrite (Hbar j Hj).
           rewrite !bar_at_set_bar by (rewrite ?set_bar_length; lia).
           destruct (Z.eqb_spec j i) as [-> | Hne].
           ++ unfold probed_bar. rewrite Es.
              destruct (Z.leb_spec (i + 1) i); [lia |].
              destruct (Z.leb_spec i i); [reflexivity | lia].
           ++ destruct (Z.leb_spec (i + 1) j); destruct (Z.leb_spec i j);
                try reflexivity; lia.
        -- intros j [<- | Hin]; [exact Ee | now apply Hsel].
        -- rewrite Hk. destruct k. rewrite ioremap_mk. kproj.
           cbn [map filter].
           destruct (valid_ptr (ioremap_ret e i));
             cbn [app]; rewrite <- ?app_assoc, ?app_nil_r; reflexivity.
    + apply IH in H; [| lia | rewrite !set_bar_length; lia | exact Herr].
      destruct H as (Hi' & He' & Herr' & Hbar & Hsel & Hk).
      replace (Z.to_nat (i' - i)) with (S (Z.to_nat (i' - (i + 1)))) by lia.
      unfold selected_in. cbn [zrange filter]. rewrite Es.
      fold (selected_in e (i + 1) (Z.to_nat (i' - (i + 1)))).
      split; [lia |]. split; [exact He' |]. split; [exact Herr' |].
      split; [| split].
      * intros j Hj. rewrite (Hbar j Hj).
        rewrite !bar_at_set_bar by (rewrite ?set_bar_length; lia).
        destruct (Z.eqb_spec j i) as [-> | Hne].
        -- unfold probed_bar. rewrite Es.
           destruct (Z.leb_spec (i + 1) i); [lia |].
           destruct (Z.leb_spec i i); [reflexivity | lia].
        -- destruct (Z.leb_spec (i + 1) j); destruct (Z.leb_spec i j);
             try reflexivity; lia.
      * exact Hsel.
      * exact Hk.
Qed.

(** The node loop, when it reports an error: it stopped at the first BAR in
    use whose [device_create] failed, the nodes before it published. *)
Lemma create_loop_fail e pchar n : forall i k err i' k',
  create_loop e n i pchar k = (err, i', k') -> err <> 0 ->
  i <= i' < i + Z.of_nat n
  /\ IS_ERR (device_create_ret e i') = true
  /\ err = to_s32 (PTR_ERR (device_create_ret e i'))
  /\ k' = mk_kernel (k_live k) (k_enabled k) (k_regions k) (k_maps k)
            (k_chrdev k) (k_cdev k)
            (k_nodes k ++ map (fun j => MKDEV (major pchar) j)
                              (live_in pchar i (Z.to_nat (i' - i))))
            (k_drvdata k)
            (k_log k ++ map (fun j => DeviceCreate (MKDEV (major pchar) j))
                            (live_in pchar i (Z.to_nat (i' - i)))
                   ++ [DeviceCreate (MKDEV (major pchar) i')])
            (k_bad k).
Proof.
  induction n as [| n IH]; intros i k err i' k' H Herr.
  - cbn in H. injection H as <- _ _. contradiction.
  - cbn [create_loop] in H.
    destruct (len (bar_at pchar i) =? 0) eqn:El.
    + apply IH in H; [| exact Herr]. destruct H as (Hi' & He' & Herr' & Hk).
      replace (Z.to_nat (i' - i)) with (S (Z.to_nat (i' - (i + 1)))) by lia.
      unfold live_in. cbn [zrange filter]. rewrite El. cbn [negb].
      fold (live_in pchar (i + 1) (Z.to_nat (i' - (i + 1)))).
      split; [lia |]. split; [exact He' |]. split; assumption.
    + destruct (IS_ERR (device_create_ret e i)) eqn:Ee.
      * injection H as <- <- <-.
        replace (Z.to_nat (i - i)) with 0%nat by lia.
        unfold live_in. cbn [zrange filter map].
        split; [lia |]. split; [exact Ee |]. split; [reflexivity |].
        destruct k. rewrite device_create_err_mk by exact Ee. kproj.
        rewrite !app_nil_r. reflexivity.
      * apply IH in H; [| exact Herr]. destruct H as (Hi' & He' & Herr' & Hk).
        replace (Z.to_nat (i' - i)) with (S (Z.to_nat (i' - (i + 1)))) by lia.
        unfold live_in. cbn [zrange filter]. rewrite El. cbn [negb].
        fold (live_in pchar (i + 1) (Z.to_nat (i' - (i + 1)))).
        split; [lia |]. split; [exact He' |]. split; [exact Herr' |].
        rewrite Hk. destruct k. rewrite device_create_mk by exact Ee. kproj.
        cbn [map]. rewrite <- !app_assoc. reflexivity.
Qed.

(** Below an index up to which the record holds [probed_bar], the BARs in
    use are the selected ones and the live mappings are their bases. *)
Lemma mapped_prefix e pchar m :
  no_null e -> Z.of_nat m <= 6 ->
  (forall j, 0 <= j < Z.of_nat m -> bar_at pchar j = probed_bar e j) ->
  (forall j, In j (selected_in e 0 m) -> IS_ERR (ioremap_ret e j) = false) ->
  live_in pchar 0 m = selected_in e 0 m
  /\ filter valid_ptr (map (ioremap_ret e) (selected_in e 0 m))
     = map (fun j => addr (bar_at pchar j)) (live_in pchar 0 m).
Proof.
  intros Hnn Hm Hbar Hsel.
  assert (Hlive : live_in pchar 0 m = selected_in e 0 m).
  { unfold live_in, selected_in. apply filter_ext_in. intros j Hj.
    apply zrange_bounds in Hj. rewrite Hbar by lia. unfold probed_bar.
    destruct (bar_selected e j) eqn:Es; cbn [len]; [| reflexivity].
    destruct (Hnn j ltac:(lia) Es) as [_ Hne].
    apply Z.eqb_neq in Hne. now rewrite Hne. }
  split; [exact Hlive |]. rewrite Hlive. rewrite filter_all.
  - apply map_ext_in. intros j Hj. unfold selected_in in Hj.
    apply filter_In in Hj. destruct Hj as [Hj Hs]. apply zrange_bounds in Hj.
    rewrite Hbar by lia. unfold probed_bar. now rewrite Hs.
  - intros p Hp. apply in_map_iff in Hp. destruct Hp as (j & <- & Hj).
    unfold valid_ptr. rewrite (Hsel j Hj). unfold selected_in in Hj.
    apply filter_In in Hj. destruct Hj as [Hj Hs]. apply zrange_bounds in Hj.
    destruct (Hnn j ltac:(lia) Hs) as [Hp _].
    apply Z.eqb_neq in Hp. now rewrite Hp.
Qed.

Lemma live_in_six pchar : live_in pchar 0 6 = live_bars pchar.
Proof. reflexivity. Qed.

(** The exit paths of [pci_probe] on explicit kernel states. *)
Lemma failure_ioremap_mk err m log :
  failure_ioremap err (mk_kernel true true true m false false [] None log [])
  = (err, mk_kernel false false false m false false [] None
                    (log ++ [ReleaseRegions; PciDisable; Kfree]) []).
Proof.
  unfold failure_ioremap, failure_pci_regions, failure_pci_enable,
    failure_kmalloc.
  release_steps. rewrite <- !app_assoc. reflexivity.
Qed.

Lemma failure_alloc_chrdev_region_mk pchar err log :
  failure_alloc_chrdev_region pchar err
    (mk_kernel true true true (mapped_addrs pchar) false false [] None log [])
  = (err, mk_kernel false false false [] false false [] None
                    (log ++ map Iounmap (mapped_addrs pchar)
                         ++ [ReleaseRegions; PciDisable; Kfree]) []).
Proof.
  unfold failure_alloc_chrdev_region. rewrite unmap_all_live.
  rewrite (unmap_held _ _ []) by (kproj; now rewrite app_nil_r). kproj.
  rewrite failure_ioremap_mk. rewrite <- !app_assoc. reflexivity.
Qed.

Lemma failure_cdev_add_mk pchar err log :
  failure_cdev_add pchar err
    (mk_kernel true true true (mapped_addrs pchar) true false [] None log [])
  = (err, mk_kernel false false false [] false false [] None
                    (log ++ [UnregisterChrdev] ++ map Iounmap (mapped_addrs pchar)
                         ++ [ReleaseRegions; PciDisable; Kfree]) []).
Proof.
  unfold failure_cdev_add. release_steps.
  rewrite failure_alloc_chrdev_region_mk. rewrite <- !app_assoc. reflexivity.
Qed.

Lemma failure_device_create_mk pchar err log :
  failure_device_create pchar err
    (mk_kernel true true true (mapped_addrs pchar) true true [] None log [])
  = (err, mk_kernel false false false [] false false [] None
                    (log ++ [CdevDel; UnregisterChrdev]
                         ++ map Iounmap (mapped_addrs pchar)
                         ++ [ReleaseRegions; PciDisable; Kfree]) []).
Proof.
  unfold failure_device_create. release_steps.
  rewrite failure_cdev_add_mk. rewrite <- !app_assoc. reflexivity.
Qed.

Lemma mapped_addrs_bar p q : bar p = bar q -> mapped_addrs p = mapped_addrs q.
Proof.
  intros H. unfold mapped_addrs, live_bars, bar_at. now rewrite H.
Qed.

Lemma failure_alloc_chrdev_region_bar p q err k :
  bar p = bar q ->
  failure_alloc_chrdev_region p err k = failure_alloc_chrdev_region q err k.
Proof.
  intros H. unfold failure_alloc_chrdev_region, unmap_all, bar_at.
  now rewrite H.
Qed.

Ltac released_now :=
  unfold released; kproj; repeat split; reflexivity.

(** X7.  Attach is all or nothing, as long as [ioremap] reports its failures as
    encoded errors: whatever step fails (allocation, enabling, the region
    request, a mapping, the device numbers, [cdev_add], a node),
    [pci_probe] returns the error with nothing held, no driver data set,
    and no release of anything not held; and when it returns 0 the device
    is [attached]. *)
Theorem pci_probe_all_or_nothing e err k :
  no_null e ->
  pci_probe e kernel_init = (err, k) ->
  (err = 0 /\ attached (probe_record e) k /\ k_bad k = [])
  \/ (err <> 0 /\ released k /\ k_drvdata k = None /\ k_bad k = []).
Proof.
  intros Hnn H. destruct (Z.eq_dec err 0) as [-> | Herr].
  { left. split; [reflexivity |]. now apply pci_probe_attached. }
  right. split; [exact Herr |].
  unfold pci_probe in H.
  destruct (kmalloc_ok e); cbn [negb] in H.
  2: { injection H as _ <-. released_now. }
  destruct (Z.eqb_spec (enable_ret e) 0) as [E1 | E1]; cbn [negb] in H.
  2: { injection H as _ <-. released_now. }
  destruct (Z.eqb_spec (request_ret e) 0) as [E2 | E2]; cbn [negb] in H.
  2: { injection H as _ <-. released_now. }
  cbv [logged with_live with_enabled with_regions kernel_init k_live k_enabled
       k_regions k_maps k_chrdev k_cdev k_nodes k_drvdata k_log k_bad] in H.
  cbn [app] in H.
  destruct (map_loop e 6 0 (junk_record e) _) as [[[err1 i] pchar] k1] eqn:Em.
  destruct (Z.eqb_spec err1 0) as [-> | E3]; cbn [negb] in H.
  2: { apply map_loop_fail in Em; [| lia | cbn; lia | exact E3].
       destruct Em as (Hi & He & Herr1 & Hbar & Hsel & Hk1).
       rewrite Z.sub_0_r in *. kproj_in Hk1. cbn [app] in Hk1.
       destruct (mapped_prefix e pchar (Z.to_nat i) Hnn) as [_ Hmaps];
         [lia | | exact Hsel |].
       { intros j Hj. rewrite Hbar by lia.
         destruct (Z.leb_spec 0 j); [reflexivity | lia]. }
       destruct (unmap_below_spec pchar (Z.to_nat i) k1 []) as (m' & Hm' & Heq).
       { subst k1. kproj. cbn [app]. now rewrite Hmaps. }
       apply Permutation_sym, Permutation_nil in Hm'. subst m'.
       rewrite Heq in H. subst k1. kproj_in H.
       rewrite failure_ioremap_mk in H. injection H as _ <-. released_now. }
  apply map_loop_done in Em; [| lia | cbn; lia].
  destruct Em as (Hi & Hlen & Hmaj & Hbar & Hsel & Hk1). kproj_in Hk1.
  cbn [app] in Hk1.
  assert (Hrec : mk_pci_char (bar pchar) (MAJOR (dev_num e)) = probe_record e).
  { apply bars_ext; [exact Hlen | reflexivity | reflexivity |].
    intros j Hj. rewrite bar_at_probe_record by exact Hj.
    change (bar_at (mk_pci_char (bar pchar) (MAJOR (dev_num e))) j)
      with (bar_at pchar j).
    rewrite Hbar by lia.
    destruct (Z.leb_spec 0 j); [| lia].
    destruct (Z.ltb_spec j (0 + Z.of_nat 6)); [reflexivity | lia]. }
  assert (Hbars : bar pchar = bar (probe_record e)) by (now rewrite <- Hrec).
  assert (Hmaps : filter valid_ptr (map (ioremap_ret e) (selected_in e 0 6))
                  = mapped_addrs (probe_record e)).
  { destruct (mapped_prefix e (probe_record e) 6 Hnn) as [_ Hm];
      [lia | | exact Hsel | exact Hm].
    intros j Hj. apply bar_at_probe_record. lia. }
  rewrite Hmaps in Hk1. subst k1.
  destruct (Z.eqb_spec (chrdev_ret e) 0) as [E4 | E4]; cbn [negb] in H.
  2: { cbv [logged k_live k_enabled k_regions k_maps k_chrdev k_cdev k_nodes
            k_drvdata k_log k_bad] in H.
       rewrite (failure_alloc_chrdev_region_bar pchar (probe_record e)) in H
         by exact Hbars.
       rewrite failure_alloc_chrdev_region_mk in H.
       injection H as _ <-. released_now. }
  rewrite Hrec in H.
  destruct (Z.eqb_spec (cdev_add_ret e) 0) as [E5 | E5]; cbn [negb] in H.
  2: { cbv [logged with_chrdev k_live k_enabled k_regions k_maps k_chrdev
            k_cdev k_nodes k_drvdata k_log k_bad] in H.
       rewrite failure_cdev_add_mk in H.
       injection H as _ <-. released_now. }
  cbv [logged with_chrdev with_cdev k_live k_enabled
       k_regions k_maps k_chrdev k_cdev k_nodes k_drvdata k_log k_bad] in H.
  destruct (create_loop e 6 0 (probe_record e) _) as [[err2 i2] k2] eqn:Ec.
  destruct (Z.eqb_spec err2 0) as [-> | E6]; cbn [negb] in H.
  { injection H as H _. congruence. }
  apply create_loop_fail in Ec; [| exact E6].
  destruct Ec as (Hi2 & He2 & Herr2 & Hk2). rewrite Z.sub_0_r in *.
  kproj_in Hk2. cbn [app] in Hk2.
  destruct (destroy_below_spec (probe_record e) (Z.to_nat i2) k2 [])
    as (m' & Hm' & Heq).
  { subst k2. kproj. reflexivity. }
  apply Permutation_sym, Permutation_nil in Hm'. subst m'.
  rewrite Heq in H. subst k2. kproj_in H.
  rewrite failure_device_create_mk in H. injection H as _ <-. released_now.
Qed.

(** * Further properties *)

(** ** Sessions: seek, read and write together *)

(** X1.  A seek with a [whence] other than [SEEK_SET] and [SEEK_CUR]
    ([SEEK_END] included) is refused with [-EINVAL], whatever the offset,
    and leaves the file as it was. *)
Theorem dev_seek_unknown_whence (f : file) (pchar : pci_char)
    (offset whence : Z) :
  private_data f = Some pchar ->
  whence <> SEEK_SET -> whence <> SEEK_CUR ->
  dev_seek f offset whence = Some (- EINVAL, f).
Proof.
  intros Hopen H0 H1. unfold dev_seek, seek_target. rewrite Hopen.
  apply Z.eqb_neq in H0, H1. rewrite H0, H1. reflexivity.
Qed.

Lemma dev_seek_unknown_whence_witness :
  dev_seek (session0 16 4096 8) 0 2 = Some (- EINVAL, session0 16 4096 8).
Proof.
  apply (dev_seek_unknown_whence (session0 16 4096 8) (one_bar 16 4096) 0 2);
    [reflexivity | discriminate | discriminate].
Defined.

Lemma to_s64_range z : in_s64 (to_s64 z).
Proof. zwrap. Qed.

Lemma seek_target_range pos offset whence :
  in_s64 offset -> in_s64 (seek_target pos offset whence).
Proof.
  intros H. unfold seek_target.
  destruct (whence =? SEEK_SET); [exact H |].
  destruct (whence =? SEEK_CUR); [apply to_s64_range |].
  unfold in_s64, S64_MIN, S64_MAX, EINVAL. lia.
Qed.

(** What a seek leaves: the file as it was, or the file at an accepted
    position. *)
Lemma dev_seek_result f pchar offset whence r f' :
  private_data f = Some pchar ->
  in_s64 offset ->
  4 <= len (bar_at pchar (iminor f)) < 2 ^ 64 ->
  dev_seek f offset whence = Some (r, f') ->
  f' = f
  \/ (exists p, f' = file_at f p /\ r = p
                /\ pos_ok (len (bar_at pchar (iminor f))) p /\ p <= S64_MAX).
Proof.
  intros Hopen Hoff HL H. unfold dev_seek in H. rewrite Hopen in H.
  pose proof (seek_target_range (f_pos f) offset whence Hoff) as Hr.
  set (np := seek_target (f_pos f) offset whence) in *.
  rewrite rem4_eqb in H.
  destruct (Z.eqb_spec (np mod 4) 0) as [Hm | Hm]; cbn [negb] in H;
    [| injection H as _ <-; now left].
  destruct (Z.ltb_spec np 0) as [Hn | Hn]; cbn [orb] in H;
    [injection H as _ <-; now left |].
  destruct (Z.ltb_spec (to_u64 (len (bar_at pchar (iminor f)) - 4)) (to_u64 np))
    as [Hg | Hg]; [injection H as _ <-; now left |].
  injection H as <- <-. right. exists np.
  rewrite !to_u64_id in Hg by zbounds.
  unfold file_at, pos_ok. rewrite Hopen.
  repeat split; try assumption; zbounds.
Qed.

Lemma file_at_same f : file_at f (f_pos f) = f.
Proof. destruct f; reflexivity. Qed.

Lemma Forall_repeat {A : Type} (P : A -> Prop) x n :
  P x -> Forall P (repeat x n).
Proof. intros H. induction n; cbn; constructor; assumption. Qed.

Section Session.
Variable hw : Type.
Variable readl : Z -> hw -> Z * hw.
Variable writel : Z -> Z -> hw -> hw.
Variable pchar : pci_char.
Variable minor : Z.

(** One call keeps the session; a call at the file position accesses the
    device only at the address of that position. *)
Lemma step_session o f s :
  4 <= len (bar_at pchar minor) < 2 ^ 64 ->
  session_ok pchar minor f -> op_ok o ->
  exists f' s' tr,
    step readl writel o (f, s) = Some (f', s')
    /\ session_ok pchar minor f'
    /\ trace s' = trace s ++ tr
    /\ (positional o ->
        Forall (fun ac => access_at ac
                          = addr (bar_at pchar minor) + to_u32 (f_pos f)) tr).
Proof.
  intros HL (Hopen & Hmin & Hpos & Hmax) Hok.
  destruct o as [offset whence | count dst_ok | count src
                | count dst_ok pos | count src pos]; cbn [step].
  - destruct (dev_seek f offset whence) as [[r f'] |] eqn:E.
    + exists f', s, []. split; [reflexivity |].
      split; [| split; [now rewrite app_nil_r | constructor]].
      rewrite <- Hmin in HL.
      destruct (dev_seek_result f pchar offset whence r f' Hopen Hok HL E)
        as [-> | (p & -> & _ & Hp & Hpm)].
      * exact (conj Hopen (conj Hmin (conj Hpos Hmax))).
      * rewrite Hmin in Hp. unfold session_ok, file_at.
        cbn [private_data iminor f_pos].
        exact (conj Hopen (conj Hmin (conj Hp Hpm))).
    + unfold dev_seek in E. rewrite Hopen in E.
      repeat destruct (_ : bool) in E; discriminate E.
  - destruct (rw_frame_u32 readl writel f pchar count (f_pos f) s Hopen)
      as [Hr _].
    destruct (Hr dst_ok) as (r & m & -> & Hp & Hf & Htr).
    rewrite Hf, Hp, file_at_same.
    exists f, (rw_io r), (repeat (Load (access_addr f pchar (f_pos f))) m).
    split; [reflexivity |].
    split; [exact (conj Hopen (conj Hmin (conj Hpos Hmax))) |].
    split; [exact Htr |]. intros _. apply Forall_repeat. unfold access_addr.
    now rewrite Hmin.
  - destruct (rw_frame_u32 readl writel f pchar count (f_pos f) s Hopen)
      as [_ Hw].
    destruct (Hw src) as (r & vs & -> & Hp & Hf & Htr).
    rewrite Hf, Hp, file_at_same.
    exists f, (rw_io r), (map (fun v => Store v (access_addr f pchar (f_pos f))) vs).
    split; [reflexivity |].
    split; [exact (conj Hopen (conj Hmin (conj Hpos Hmax))) |].
    split; [exact Htr |]. intros _. apply Forall_forall. intros ac Hin.
    apply in_map_iff in Hin. destruct Hin as (v & <- & _).
    unfold access_addr. cbn [access_at]. now rewrite Hmin.
  - destruct (rw_frame_u32 readl writel f pchar count pos s Hopen) as [Hr _].
    destruct (Hr dst_ok) as (r & m & -> & Hp & Hf & Htr).
    rewrite Hf.
    exists f, (rw_io r), (repeat (Load (access_addr f pchar pos)) m).
    split; [reflexivity |].
    split; [exact (conj Hopen (conj Hmin (conj Hpos Hmax))) |].
    split; [exact Htr |]. intros [].
  - destruct (rw_frame_u32 readl writel f pchar count pos s Hopen) as [_ Hw].
    destruct (Hw src) as (r & vs & -> & Hp & Hf & Htr).
    rewrite Hf.
    exists f, (rw_io r), (map (fun v => Store v (access_addr f pchar pos)) vs).
    split; [reflexivity |].
    split; [exact (conj Hopen (conj Hmin (conj Hpos Hmax))) |].
    split; [exact Htr |]. intros [].
Qed.

(** Any sequence of calls: the session stays open at a valid position; if
    all calls work at the file position, every access goes to
    [base + (u32) p] for a valid position [p]. *)
Lemma run_session ops : forall f s,
  4 <= len (bar_at pchar minor) < 2 ^ 64 ->
  session_ok pchar minor f -> Forall op_ok ops ->
  exists f' s' tr,
    run readl writel ops (f, s) = Some (f', s')
    /\ session_ok pchar minor f'
    /\ trace s' = trace s ++ tr
    /\ (Forall positional ops ->
        Forall (fun ac => exists p,
                  pos_ok (len (bar_at pchar minor)) p
                  /\ access_at ac = addr (bar_at pchar minor) + to_u32 p) tr).
Proof.
  induction ops as [| o ops IH]; intros f s HL Hf Hops.
  - exists f, s, []. cbn [run]. rewrite app_nil_r.
    split; [reflexivity |]. split; [exact Hf |].
    split; [reflexivity | constructor].
  - inversion Hops as [| ? ? Ho Hrest]; subst.
    destruct (step_session o f s HL Hf Ho) as (f1 & s1 & tr1 & E1 & Hf1 & Ht1 & Ha1).
    destruct (IH f1 s1 HL Hf1 Hrest) as (f2 & s2 & tr2 & E2 & Hf2 & Ht2 & Ha2).
    exists f2, s2, (tr1 ++ tr2). cbn [run]. rewrite E1.
    split; [exact E2 |]. split; [exact Hf2 |].
    split; [rewrite Ht2, Ht1; now rewrite app_assoc |].
    intros Hp. inversion Hp as [| ? ? Hpo Hprest]; subst.
    apply Forall_app. split; [| exact (Ha2 Hprest)].
    apply Forall_forall. intros ac Hin.
    specialize (Ha1 Hpo). rewrite Forall_forall in Ha1. exists (f_pos f).
    split; [apply Hf | now apply Ha1].
Qed.
End Session.

Lemma dev_open_session pchar minor f :
  dev_open pchar (fresh_file minor) = (0, f) ->
  4 <= len (bar_at pchar minor) ->
  session_ok pchar minor f.
Proof.
  unfold dev_open, fresh_file. cbn [iminor f_pos private_data]. intros H HL.
  destruct (5 <? minor); [discriminate H |].
  destruct (len (bar_at pchar minor) =? 0); [discriminate H |].
  injection H as <-. unfold session_ok, pos_ok. cbn [private_data iminor f_pos].
  repeat split; try reflexivity; try lia. unfold S64_MAX. lia.
Qed.

(** X2.  From a successful open on a BAR of at least 4 bytes, every sequence of
    seek, read and write calls runs with the session intact (no call meets
    an unset [private_data]) and ends at a position that is a multiple of 4
    in [0, len - 4], on the same BAR of the same record. *)
Theorem session_position_invariant {hw : Type} (readl : Z -> hw -> Z * hw)
    (writel : Z -> Z -> hw -> hw) (pchar : pci_char) (minor : Z) (f : file)
    (ops : list op) (s : io hw) :
  dev_open pchar (fresh_file minor) = (0, f) ->
  4 <= len (bar_at pchar minor) < 2 ^ 64 ->
  Forall op_ok ops ->
  exists f' s',
    run readl writel ops (f, s) = Some (f', s')
    /\ private_data f' = Some pchar /\ iminor f' = minor
    /\ 0 <= f_pos f' <= len (bar_at pchar minor) - 4
    /\ f_pos f' mod 4 = 0.
Proof.
  intros Hopen HL Hops.
  assert (Hf : session_ok pchar minor f)
    by (apply dev_open_session; [exact Hopen | lia]).
  destruct (run_session hw readl writel pchar minor ops f s HL Hf Hops)
    as (f' & s' & tr & E & (H1 & H2 & [H3 H4] & _) & _).
  exists f', s'. repeat split; try assumption; apply H3.
Qed.

Lemma sample_ops_ok : Forall op_ok sample_ops.
Proof.
  unfold sample_ops.
  repeat (constructor; [cbn [op_ok]; try exact I; zbounds |]). constructor.
Defined.

Lemma session_position_invariant_witness :
  exists f' s',
    run ram_readl ram_writel sample_ops
        (session0 16 4096 0, mk_io ram_zero []) = Some (f', s')
    /\ private_data f' = Some (one_bar 16 4096) /\ iminor f' = 0
    /\ 0 <= f_pos f' <= len (bar_at (one_bar 16 4096) 0) - 4
    /\ f_pos f' mod 4 = 0.
Proof.
  apply (session_position_invariant ram_readl ram_writel (one_bar 16 4096) 0
           (session0 16 4096 0) sample_ops (mk_io ram_zero [])).
  - reflexivity.
  - cbn. lia.
  - exact sample_ops_ok.
Defined.

Lemma sample_ops_positional : Forall positional sample_ops.
Proof. unfold sample_ops. repeat (constructor; [exact I |]). constructor. Defined.

(** X3.  Memory safety of the calls that work at the file position.  Take
    a successful attach in which [ioremap] answered [NULL] for no memory
    BAR, and a successful open on a BAR of 4 bytes to 4 GiB of the record
    it published.  That BAR is a memory BAR, the record holds for it the
    length [pci_resource_len] gave and the address [ioremap] returned, and
    that mapping is live in the state the attach left.  Whatever sequence
    of [lseek], [read] and [write] calls is then made ([pread] and
    [pwrite], which bring a position of their own, are left out), every
    load and store they issue is to an aligned word inside that length
    from that address. *)
Theorem session_accesses_in_bar {hw : Type} (readl : Z -> hw -> Z * hw)
    (writel : Z -> Z -> hw -> hw) (e : pci_dev) (k : kernel)
    (pchar : pci_char) (minor : Z) (f : file) (ops : list op) (s : io hw) :
  no_null e ->
  pci_probe e kernel_init = (0, k) ->
  k_drvdata k = Some pchar ->
  0 <= minor ->
  dev_open pchar (fresh_file minor) = (0, f) ->
  4 <= len (bar_at pchar minor) <= 2 ^ 32 ->
  Forall op_ok ops -> Forall positional ops ->
  bar_selected e minor = true
  /\ len (bar_at pchar minor) = resource_len e minor
  /\ addr (bar_at pchar minor) = ioremap_ret e minor
  /\ In (ioremap_ret e minor) (k_maps k)
  /\ exists f' s' tr,
       run readl writel ops (f, s) = Some (f', s')
       /\ trace s' = trace s ++ tr
       /\ Forall (in_bar (ioremap_ret e minor) (resource_len e minor)) tr.
Proof.
  intros Hall Hprobe Hdrv Hmin Hopen HL Hops Hpos.
  destruct (pci_probe_attached e k Hall Hprobe) as [Hat _].
  destruct Hat as (Hd & _ & _ & _ & _ & _ & Hmaps & _).
  rewrite Hd in Hdrv. injection Hdrv as <-.
  assert (Hm5 : minor <= 5).
  { unfold dev_open, fresh_file in Hopen. cbn [iminor] in Hopen.
    destruct (Z.ltb_spec 5 minor); [discriminate Hopen | assumption]. }
  assert (Hm : 0 <= minor < 6) by lia.
  assert (Hbar : bar_at (probe_record e) minor = probed_bar e minor)
    by (apply bar_at_probe_record; exact Hm).
  assert (Hsel : bar_selected e minor = true).
  { rewrite Hbar in HL. unfold probed_bar in HL.
    destruct (bar_selected e minor); [reflexivity | cbn [len] in HL; lia]. }
  assert (Hlen : len (bar_at (probe_record e) minor) = resource_len e minor)
    by (rewrite Hbar; unfold probed_bar; now rewrite Hsel).
  assert (Haddr : addr (bar_at (probe_record e) minor) = ioremap_ret e minor)
    by (rewrite Hbar; unfold probed_bar; now rewrite Hsel).
  split; [exact Hsel |]. split; [exact Hlen |]. split; [exact Haddr |].
  split.
  { rewrite Hmaps. unfold mapped_addrs. apply in_map_iff. exists minor.
    split; [exact Haddr |]. unfold live_bars. apply filter_In. split.
    - assert (H : minor = 0 \/ minor = 1 \/ minor = 2 \/ minor = 3
                  \/ minor = 4 \/ minor = 5) by lia.
      cbn [In]. destruct H as [-> | [-> | [-> | [-> | [-> | ->]]]]]; tauto.
    - apply negb_true_iff, Z.eqb_neq. lia. }
  assert (Hf : session_ok (probe_record e) minor f)
    by (apply dev_open_session; [exact Hopen | lia]).
  assert (HL' : 4 <= len (bar_at (probe_record e) minor) < 2 ^ 64) by lia.
  destruct (run_session hw readl writel (probe_record e) minor ops f s HL' Hf Hops)
    as (f' & s' & tr & E & _ & Htr & Hacc).
  exists f', s', tr. split; [exact E |]. split; [exact Htr |].
  specialize (Hacc Hpos).
  apply Forall_forall. intros ac Hin. rewrite Forall_forall in Hacc.
  destruct (Hacc ac Hin) as (p & [Hp Hp4] & Ha).
  rewrite <- Hlen, <- Haddr.
  unfold in_bar. rewrite Ha.
  replace (to_u32 p) with p by (symmetry; apply Z.mod_small; lia).
  split; [lia |].
  replace (addr (bar_at (probe_record e) minor) + p
           - addr (bar_at (probe_record e) minor)) with p by lia.
  exact Hp4.
Qed.

Lemma session_accesses_in_bar_witness :
  bar_selected dev_sample 3 = true
  /\ len (bar_at pchar_sample 3) = resource_len dev_sample 3
  /\ addr (bar_at pchar_sample 3) = ioremap_ret dev_sample 3
  /\ In (ioremap_ret dev_sample 3)
        (k_maps (snd (pci_probe dev_sample kernel_init)))
  /\ exists f' s' tr,
       run ram_readl ram_writel sample_ops
           (mk_file 3 0 (Some pchar_sample), mk_io ram_zero [])
       = Some (f', s')
       /\ trace s' = [] ++ tr
       /\ Forall (in_bar (ioremap_ret dev_sample 3) (resource_len dev_sample 3))
                 tr.
Proof.
  apply (session_accesses_in_bar ram_readl ram_writel dev_sample
           (snd (pci_probe dev_sample kernel_init)) pchar_sample 3
           (mk_file 3 0 (Some pchar_sample)) sample_ops (mk_io ram_zero [])).
  - exact dev_sample_no_null.
  - vm_compute. reflexivity.
  - reflexivity.
  - lia.
  - reflexivity.
  - split; vm_compute; discriminate.
  - exact sample_ops_ok.
  - exact sample_ops_positional.
Defined.

(** X18.  [dev_read] and [dev_write] have no bound of their own: the bound
    of [dev_seek] protects only the calls that work at the file position.
    In an open session, a [pread] of 4 bytes at a position beyond
    [len - 4] loads from [base + pos], outside the BAR, whether or not the
    copy to the caller succeeds, and a [pwrite] of one word there stores
    it to [base + pos]; neither moves the file position. *)
Theorem pread_pwrite_unbounded {hw : Type} (readl : Z -> hw -> Z * hw)
    (writel : Z -> Z -> hw -> hw) (f : file) (pchar : pci_char) (pos v : Z)
    (dst_ok : nat -> bool) (src : nat -> option Z) (s : io hw) :
  private_data f = Some pchar ->
  let L := len (bar_at pchar (iminor f)) in
  let base := addr (bar_at pchar (iminor f)) in
  0 <= pos < 2 ^ 32 -> L - 4 < pos ->
  src 0%nat = Some v ->
  op_ok (OpPread 4 dst_ok pos) /\ op_ok (OpPwrite 4 src pos)
  /\ (exists s', step readl writel (OpPread 4 dst_ok pos) (f, s) = Some (f, s')
                 /\ trace s' = trace s ++ [Load (base + pos)])
  /\ (exists s', step readl writel (OpPwrite 4 src pos) (f, s) = Some (f, s')
                 /\ trace s' = trace s ++ [Store (to_u32 v) (base + pos)])
  /\ ~ in_bar base L (Load (base + pos))
  /\ ~ in_bar base L (Store (to_u32 v) (base + pos)).
Proof.
  intros Hopen L base Hpos Hout Hsrc.
  assert (Hu : to_u32 pos = pos) by (apply Z.mod_small; exact Hpos).
  split; [cbn [op_ok]; unfold S64_MAX; lia |].
  split; [cbn [op_ok]; unfold S64_MAX; lia |].
  split; [| split; [| split]].
  - cbn [step]. unfold dev_read. rewrite Hopen, Hu. fold base.
    change (4 mod 4 =? 0) with true. cbn [negb].
    change (Z.to_nat (4 / 4)) with 1%nat. cbn [read_loop].
    destruct (readl (base + pos) (dev s)) as [x d1].
    destruct (dst_ok 0%nat); cbn [read_loop rw_file rw_io];
      eexists; (split; [reflexivity | reflexivity]).
  - cbn [step]. unfold dev_write. rewrite Hopen, Hu. fold base.
    change (4 mod 4 =? 0) with true. cbn [negb].
    change (Z.to_nat (4 / 4)) with 1%nat. cbn [write_loop]. rewrite Hsrc.
    cbn [write_loop rw_file rw_io].
    eexists. split; [reflexivity | reflexivity].
  - unfold in_bar. cbn [access_at]. lia.
  - unfold in_bar. cbn [access_at]. lia.
Qed.

Lemma pread_pwrite_unbounded_witness :
  op_ok (OpPread 4 (fun _ => true) 4096)
  /\ op_ok (OpPwrite 4 (fun _ => Some 7) 4096)
  /\ (exists s', step ram_readl ram_writel (OpPread 4 (fun _ => true) 4096)
                      (session0 16 4096 0, mk_io ram_zero [])
                 = Some (session0 16 4096 0, s')
                 /\ trace s' = [] ++ [Load (4096 + 4096)])
  /\ (exists s', step ram_readl ram_writel (OpPwrite 4 (fun _ => Some 7) 4096)
                      (session0 16 4096 0, mk_io ram_zero [])
                 = Some (session0 16 4096 0, s')
                 /\ trace s' = [] ++ [Store (to_u32 7) (4096 + 4096)])
  /\ ~ in_bar 4096 16 (Load (4096 + 4096))
  /\ ~ in_bar 4096 16 (Store (to_u32 7) (4096 + 4096)).
Proof.
  apply (pread_pwrite_unbounded ram_readl ram_writel (session0 16 4096 0)
           (one_bar 16 4096) 4096 7 (fun _ => true) (fun _ => Some 7)
           (mk_io ram_zero [])).
  - reflexivity.
  - lia.
  - simpl. lia.
  - reflexivity.
Defined.

(** ** read and write: what reaches the device *)

(** X4.  A read loads before it copies: when the copy of word [k] to the caller
    is the first to fault, the device has been loaded [k + 1] times, all at
    the one address, while only [k] words were delivered; the value of the
    last load is dropped. *)
Theorem dev_read_fault_drops_a_load {hw : Type} (readl : Z -> hw -> Z * hw)
    (f : file) (pchar : pci_char) (dst_ok : nat -> bool) (count pos : Z)
    (s : io hw) (k : nat) :
  private_data f = Some pchar ->
  count mod 4 = 0 -> 0 <= count <= S64_MAX ->
  Z.of_nat k < count / 4 ->
  (forall j, (j < k)%nat -> dst_ok j = true) -> dst_ok k = false ->
  let a := access_addr f pchar pos in
  exists r, dev_read readl f dst_ok count pos s = Some r
            /\ trace (rw_io r) = trace s ++ repeat (Load a) (S k)
            /\ dev (rw_io r) = snd (loads readl (S k) a (dev s))
            /\ rw_words r = fst (loads readl k a (dev s))
            /\ length (rw_words r) = k.
Proof.
  intros Hopen Hc Hr Hk Hbefore Hat a.
  assert (Hkn : (k < Z.to_nat (count / 4))%nat) by lia.
  rewrite (dev_read_run hw readl f pchar dst_ok count pos s Hopen Hc Hr).
  rewrite (ok_prefix_fault dst_ok _ 0 k Hkn Hbefore Hat).
  apply Nat.ltb_lt in Hkn. rewrite Hkn. fold a.
  eexists. split; [reflexivity |]. cbn [rw_io rw_words trace dev].
  repeat split. apply loads_length.
Qed.

Lemma dev_read_fault_drops_a_load_witness :
  exists r, dev_read ram_readl (session0 16 4096 0) (fun j => (j <? 1)%nat)
                     8 0 (mk_io ram_zero []) = Some r
            /\ trace (rw_io r) = [] ++ repeat (Load 4096) 2
            /\ dev (rw_io r) = snd (loads ram_readl 2 4096 ram_zero)
            /\ rw_words r = fst (loads ram_readl 1 4096 ram_zero)
            /\ length (rw_words r) = 1%nat.
Proof.
  assert (H8 : 0 <= 8 <= S64_MAX) by zbounds.
  assert (H1 : Z.of_nat 1 < 8 / 4) by (vm_compute; reflexivity).
  apply (dev_read_fault_drops_a_load ram_readl (session0 16 4096 0)
           (one_bar 16 4096) (fun j => (j <? 1)%nat) 8 0 (mk_io ram_zero []) 1
           eq_refl eq_refl H8 H1).
  - intros j Hj. apply Nat.ltb_lt. exact Hj.
  - reflexivity.
Defined.

Lemma fetched_all src (v : nat -> Z) n : forall tmp,
  (forall j, (tmp <= j < tmp + n)%nat -> src j = Some (v j)) ->
  fetched src tmp n = map (fun j => to_u32 (v j)) (seq tmp n).
Proof.
  induction n as [| n IH]; intros tmp H; [reflexivity |].
  cbn [fetched seq map]. rewrite (H tmp) by lia. f_equal.
  apply IH. intros j Hj. apply H. lia.
Qed.

Lemma stores_snoc {hw : Type} (writel : Z -> Z -> hw -> hw) vs w a d :
  stores writel (vs ++ [w]) a d = writel w a (stores writel vs a d).
Proof. unfold stores. now rewrite fold_left_app. Qed.

(** X5.  A write of several words stores them all, in buffer order, to the one
    address of the position: on a device that keeps what is stored, a read
    of 4 bytes that follows returns the last word of the buffer. *)
Theorem dev_write_last_word_wins {hw : Type} (readl : Z -> hw -> Z * hw)
    (writel : Z -> Z -> hw -> hw) (f : file) (pchar : pci_char)
    (src : nat -> option Z) (v : nat -> Z) (dst_ok : nat -> bool)
    (m : nat) (pos : Z) (s : io hw) :
  (forall a w d, fst (readl a (writel w a d)) = w) ->
  private_data f = Some pchar ->
  4 * Z.of_nat (S m) <= S64_MAX ->
  (forall j, (j <= m)%nat -> src j = Some (v j)) ->
  dst_ok 0%nat = true ->
  let a := access_addr f pchar pos in
  exists w r,
    dev_write writel f src (4 * Z.of_nat (S m)) pos s = Some w
    /\ rw_ret w = 4 * Z.of_nat (S m)
    /\ trace (rw_io w)
       = trace s ++ map (fun j => Store (to_u32 (v j)) a) (seq 0 (S m))
    /\ dev_read readl f dst_ok 4 pos (rw_io w) = Some r
    /\ rw_ret r = 4
    /\ rw_words r = [to_u32 (v m)].
Proof.
  intros Hhw Hopen Hmax Hsrc Hdst a.
  assert (Hc : (4 * Z.of_nat (S m)) mod 4 = 0)
    by (rewrite Z.mul_comm; apply Z.mod_mul; lia).
  assert (Hr : 0 <= 4 * Z.of_nat (S m) <= S64_MAX) by lia.
  assert (Hn : Z.to_nat (4 * Z.of_nat (S m) / 4) = S m).
  { rewrite Z.mul_comm, Z.div_mul by lia. apply Nat2Z.id. }
  rewrite (dev_write_run hw writel f pchar src _ pos s Hopen Hc Hr).
  rewrite Hn. fold a.
  assert (Hf : fetched src 0 (S m) = map (fun j => to_u32 (v j)) (seq 0 (S m))).
  { apply fetched_all. intros j Hj. apply Hsrc. lia. }
  assert (Hp : ok_prefix (src_ok src) 0 (S m) = S m).
  { rewrite <- fetched_length, Hf, length_map, length_seq. reflexivity. }
  rewrite Hp, Hf.
  change (S m =? 0)%nat with false. cbv iota.
  assert (H4 : 0 <= 4 <= S64_MAX) by zbounds.
  eexists. eexists. split; [reflexivity |]. cbn [rw_ret rw_io].
  split; [reflexivity |]. split; [now rewrite map_map |].
  rewrite (dev_read_run hw readl f pchar dst_ok 4 pos _ Hopen eq_refl H4).
  change (Z.to_nat (4 / 4)) with 1%nat. cbn [ok_prefix]. rewrite Hdst.
  change (1 <? 1)%nat with false. change (1 =? 0)%nat with false. cbv iota.
  fold a. cbn [dev trace].
  split; [reflexivity |]. cbn [rw_ret rw_words].
  split; [reflexivity |].
  rewrite seq_S, map_app. cbn [map Nat.add].
  rewrite stores_snoc, loads_S. cbn [fst loads]. rewrite Hhw.
  f_equal. unfold to_u32. apply Z.mod_mod. lia.
Qed.

Lemma dev_write_last_word_wins_witness :
  exists w r,
    dev_write ram_writel (session0 16 4096 4) (fun j => Some (Z.of_nat j + 10))
              (4 * Z.of_nat 3) 4 (mk_io ram_zero []) = Some w
    /\ rw_ret w = 4 * Z.of_nat 3
    /\ trace (rw_io w)
       = [] ++ map (fun j => Store (to_u32 (Z.of_nat j + 10)) 4100) (seq 0 3)
    /\ dev_read ram_readl (session0 16 4096 4) (fun _ => true) 4 4 (rw_io w)
       = Some r
    /\ rw_ret r = 4
    /\ rw_words r = [to_u32 (Z.of_nat 2 + 10)].
Proof.
  assert (Hmax : 4 * Z.of_nat 3 <= S64_MAX) by (cbn; zbounds).
  apply (dev_write_last_word_wins ram_readl ram_writel (session0 16 4096 4)
           (one_bar 16 4096) (fun j => Some (Z.of_nat j + 10))
           (fun j => Z.of_nat j + 10) (fun _ => true) 2 4 (mk_io ram_zero [])).
  - intros a w d. unfold ram_readl, ram_writel. cbn [fst].
    rewrite Z.eqb_refl. reflexivity.
  - reflexivity.
  - exact Hmax.
  - intros j _. reflexivity.
  - reflexivity.
Defined.

Lemma read_loop_count {hw : Type} (readl : Z -> hw -> Z * hw) dst_ok n :
  forall a tmp bytes out s,
  exists m, (m <= n)%nat
            /\ trace (snd (read_loop readl dst_ok n a tmp bytes out s))
               = trace s ++ repeat (Load a) m.
Proof.
  induction n as [| n IH]; intros a tmp bytes out s.
  - exists 0%nat. cbn. rewrite app_nil_r. split; [lia | reflexivity].
  - cbn [read_loop]. destruct (readl a (dev s)) as [v d1].
    destruct (dst_ok tmp).
    + destruct (IH a (S tmp) (to_s64 (bytes + 4)) (out ++ [to_u32 v])
                   (mk_io d1 (trace s ++ [Load a]))) as (m & Hm & Ht).
      exists (S m). split; [lia |]. rewrite Ht. cbn [trace].
      rewrite <- app_assoc. reflexivity.
    + exists 1%nat. split; [lia | reflexivity].
Qed.

Lemma write_loop_count {hw : Type} (writel : Z -> Z -> hw -> hw) src n :
  forall a tmp bytes s,
  exists vs, (length vs <= n)%nat
             /\ trace (snd (write_loop writel src n a tmp bytes s))
                = trace s ++ map (fun v => Store v a) vs.
Proof.
  induction n as [| n IH]; intros a tmp bytes s.
  - exists []. cbn. rewrite app_nil_r. split; [lia | reflexivity].
  - cbn [write_loop]. destruct (src tmp) as [v |].
    + destruct (IH a (S tmp) (to_s64 (bytes + 4))
                   (mk_io (writel (to_u32 v) a (dev s))
                          (trace s ++ [Store (to_u32 v) a]))) as (vs & Hl & Ht).
      exists (to_u32 v :: vs). split; [cbn; lia |]. rewrite Ht. cbn [trace map].
      rewrite <- app_assoc. reflexivity.
    + exists []. cbn. rewrite app_nil_r. split; [lia | reflexivity].
Qed.

(** X6.  A read or write call of [count] bytes makes at most [count / 4]
    accesses to the device, whatever the caller's buffer does; when [count]
    is not a multiple of 4 it returns [-EINVAL] without any access and
    without delivering anything. *)
Theorem rw_access_bound {hw : Type} (readl : Z -> hw -> Z * hw)
    (writel : Z -> Z -> hw -> hw) (f : file) (pchar : pci_char)
    (count pos : Z) (s : io hw) :
  private_data f = Some pchar ->
  0 <= count ->
  (forall dst_ok,
      exists r tr, dev_read readl f dst_ok count pos s = Some r
                   /\ trace (rw_io r) = trace s ++ tr
                   /\ 4 * Z.of_nat (length tr) <= count
                   /\ (count mod 4 <> 0 ->
                       rw_ret r = - EINVAL /\ tr = [] /\ rw_words r = []
                       /\ rw_io r = s))
  /\ (forall src,
      exists r tr, dev_write writel f src count pos s = Some r
                   /\ trace (rw_io r) = trace s ++ tr
                   /\ 4 * Z.of_nat (length tr) <= count
                   /\ (count mod 4 <> 0 ->
                       rw_ret r = - EINVAL /\ tr = [] /\ rw_io r = s)).
Proof.
  intros Hopen Hc.
  assert (Hdiv : 4 * Z.of_nat (Z.to_nat (count / 4)) <= count).
  { rewrite Z2Nat.id by (apply Z.div_pos; lia).
    apply Z.mul_div_le. lia. }
  split.
  - intros dst_ok. unfold dev_read. rewrite Hopen.
    destruct (Z.eqb_spec (count mod 4) 0) as [E | E]; cbn [negb].
    + destruct (read_loop_count readl dst_ok (Z.to_nat (count / 4))
                  (addr (bar_at pchar (iminor f)) + to_u32 pos) 0 0 [] s)
        as (m & Hm & Ht).
      destruct (read_loop readl dst_ok (Z.to_nat (count / 4))
                  (addr (bar_at pchar (iminor f)) + to_u32 pos) 0 0 [] s)
        as [[[b e] o] s'].
      cbn [snd] in Ht. eexists; eexists. split; [reflexivity |].
      cbn [rw_io]. split; [exact Ht |]. rewrite repeat_length.
      split; [lia | contradiction].
    + exists (mk_rw (- EINVAL) f pos [] s), []. cbn [rw_io rw_ret rw_words].
      rewrite app_nil_r. repeat split. cbn. lia.
  - intros src. unfold dev_write. rewrite Hopen.
    destruct (Z.eqb_spec (count mod 4) 0) as [E | E]; cbn [negb].
    + destruct (write_loop_count writel src (Z.to_nat (count / 4))
                  (addr (bar_at pchar (iminor f)) + to_u32 pos) 0 0 s)
        as (vs & Hl & Ht).
      destruct (write_loop writel src (Z.to_nat (count / 4))
                  (addr (bar_at pchar (iminor f)) + to_u32 pos) 0 0 s)
        as [[b e] s'].
      cbn [snd] in Ht. eexists; eexists. split; [reflexivity |].
      cbn [rw_io]. split; [exact Ht |]. rewrite length_map.
      split; [lia | contradiction].
    + exists (mk_rw (- EINVAL) f pos [] s), []. cbn [rw_io rw_ret rw_words].
      rewrite app_nil_r. repeat split. cbn. lia.
Qed.

Lemma rw_access_bound_witness :
  exists r tr, dev_read ram_readl (session0 16 4096 0) (fun _ => true) 18 0
                        (mk_io ram_zero []) = Some r
               /\ trace (rw_io r) = [] ++ tr
               /\ 4 * Z.of_nat (length tr) <= 18
               /\ (18 mod 4 <> 0 ->
                   rw_ret r = - EINVAL /\ tr = [] /\ rw_words r = []
                   /\ rw_io r = mk_io ram_zero []).
Proof.
  assert (H18 : 0 <= 18) by lia.
  destruct (rw_access_bound ram_readl ram_writel (session0 16 4096 0)
              (one_bar 16 4096) 18 0 (mk_io ram_zero []) eq_refl H18)
    as [Hread _].
  exact (Hread (fun _ => true)).
Defined.

(** ** Attach and detach, for every device *)

Example dev_errptr3_no_null : no_null dev_errptr3.
Proof.
  intros i Hi Hs.
  assert (H : i = 0 \/ i = 1 \/ i = 2 \/ i = 3 \/ i = 4 \/ i = 5) by lia.
  destruct H as [-> | [-> | [-> | [-> | [-> | ->]]]]];
    try discriminate Hs; split; discriminate.
Qed.

Lemma pci_probe_all_or_nothing_witness :
  (fst (pci_probe dev_errptr3 kernel_init) = 0
   /\ attached (probe_record dev_errptr3) (snd (pci_probe dev_errptr3 kernel_init))
   /\ k_bad (snd (pci_probe dev_errptr3 kernel_init)) = [])
  \/ (fst (pci_probe dev_errptr3 kernel_init) <> 0
      /\ released (snd (pci_probe dev_errptr3 kernel_init))
      /\ k_drvdata (snd (pci_probe dev_errptr3 kernel_init)) = None
      /\ k_bad (snd (pci_probe dev_errptr3 kernel_init)) = []).
Proof.
  apply (pci_probe_all_or_nothing dev_errptr3).
  - exact dev_errptr3_no_null.
  - vm_compute. reflexivity.
Defined.

Lemma pci_probe_then_remove_witness :
  exists k2, pci_remove (snd (pci_probe dev_sample kernel_init)) = Some k2
             /\ released k2 /\ k_bad k2 = [].
Proof.
  apply (pci_probe_then_remove dev_sample).
  - exact dev_sample_no_null.
  - vm_compute. reflexivity.
Defined.

(** X10.  After a successful attach the driver data is the probed record, and for
    every minor 0..5 an open succeeds exactly when the BAR is a memory BAR
    of non-zero length; otherwise it fails with [-EIO].  The nodes published
    are those of the minors whose open succeeds, in ascending order. *)
Theorem open_after_probe (e : pci_dev) (k : kernel) :
  pci_probe e kernel_init = (0, k) ->
  exists pchar,
    k_drvdata k = Some pchar
    /\ (forall i, 0 <= i < 6 ->
          dev_open pchar (fresh_file i)
          = if bar_selected e i && negb (resource_len e i =? 0)
            then (0, mk_file i 0 (Some pchar))
            else (- EIO, fresh_file i))
    /\ k_nodes k
       = map (fun i => MKDEV (major pchar) i)
             (filter (fun i => fst (dev_open pchar (fresh_file i)) =? 0)
                     [0; 1; 2; 3; 4; 5]).
Proof.
  intros H. apply pci_probe_success in H. destruct H as [-> _].
  exists (probe_record e). kproj. split; [reflexivity |].
  assert (Hopen : forall i, 0 <= i < 6 ->
          dev_open (probe_record e) (fresh_file i)
          = if bar_selected e i && negb (resource_len e i =? 0)
            then (0, mk_file i 0 (Some (probe_record e)))
            else (- EIO, fresh_file i)).
  { intros i Hi. unfold dev_open, fresh_file. cbn [iminor f_pos private_data].
    destruct (Z.ltb_spec 5 i); [lia |].
    rewrite bar_at_probe_record by exact Hi. unfold probed_bar.
    destruct (bar_selected e i); cbn [len andb]; [| reflexivity].
    destruct (resource_len e i =? 0); reflexivity. }
  split; [exact Hopen |].
  unfold node_ids, live_bars. f_equal.
  apply filter_ext_in. intros i Hi. apply In_six in Hi.
  rewrite (Hopen i Hi). rewrite bar_at_probe_record by exact Hi.
  unfold probed_bar.
  destruct (bar_selected e i); cbn [len andb]; [| reflexivity].
  destruct (resource_len e i =? 0); reflexivity.
Qed.

Lemma open_after_probe_witness :
  exists pchar,
    k_drvdata (snd (pci_probe dev_sample kernel_init)) = Some pchar
    /\ (forall i, 0 <= i < 6 ->
          dev_open pchar (fresh_file i)
          = if bar_selected dev_sample i
               && negb (resource_len dev_sample i =? 0)
            then (0, mk_file i 0 (Some pchar))
            else (- EIO, fresh_file i))
    /\ k_nodes (snd (pci_probe dev_sample kernel_init))
       = map (fun i => MKDEV (major pchar) i)
             (filter (fun i => fst (dev_open pchar (fresh_file i)) =? 0)
                     [0; 1; 2; 3; 4; 5]).
Proof.
  apply (open_after_probe dev_sample).
  vm_compute. reflexivity.
Defined.

(** ** Attach does not read what kmalloc left in the record *)

Lemma map_loop_set_junk e jb jm n : forall i p k,
  map_loop (set_junk e jb jm) n i p k = map_loop e n i p k.
Proof.
  induction n as [| n IH]; intros i p k; [reflexivity |].
  cbn [map_loop]. unfold bar_selected.
  cbn [set_junk mem_bars ioremap_ret resource_len]. fold (bar_selected e i).
  destruct (bar_selected e i); [| apply IH].
  destruct (IS_ERR (ioremap_ret e i)); [reflexivity | apply IH].
Qed.

Lemma create_loop_set_junk e jb jm n : forall i p k,
  create_loop (set_junk e jb jm) n i p k = create_loop e n i p k.
Proof.
  induction n as [| n IH]; intros i p k; [reflexivity |].
  cbn [create_loop]. cbn [set_junk device_create_ret]. rewrite !IH. reflexivity.
Qed.

(** Two runs of the mapping loop on records that agree below the start
    index: same outcome, and the records agree on what the rollback or the
    rest of attach will read. *)
Lemma map_loop_rel e n : forall i p1 p2 k,
  0 <= i -> length (bar p1) = length (bar p2) ->
  (Z.to_nat i + n <= length (bar p1))%nat ->
  (forall j, 0 <= j < i -> bar_at p1 j = bar_at p2 j) ->
  exists err i' q1 q2 k',
    map_loop e n i p1 k = (err, i', q1, k')
    /\ map_loop e n i p2 k = (err, i', q2, k')
    /\ length (bar q1) = length (bar p1)
    /\ length (bar q2) = length (bar p2)
    /\ i <= i' <= i + Z.of_nat n
    /\ (forall j, 0 <= j < (if err =? 0 then i + Z.of_nat n else i') ->
                  bar_at q1 j = bar_at q2 j).
Proof.
  induction n as [| n IH]; intros i p1 p2 k Hi Hlen Hn Hagree.
  - exists 0, i, p1, p2, k. cbn [map_loop]. repeat split; try lia.
    intros j Hj. apply Hagree. cbn in Hj. lia.
  - cbn [map_loop]. destruct (bar_selected e i) eqn:Es.
    + destruct (IS_ERR (ioremap_ret e i)) eqn:Ee.
      * exists (to_s32 (PTR_ERR (ioremap_ret e i))), i,
          (set_bar p1 i (mk_bar (len (bar_at p1 i)) (ioremap_ret e i))),
          (set_bar p2 i (mk_bar (len (bar_at p2 i)) (ioremap_ret e i))),
          (ioremap i (ioremap_ret e i) k).
        split; [reflexivity |]. split; [reflexivity |].
        rewrite !set_bar_length.
        split; [reflexivity |]. split; [reflexivity |]. split; [lia |].
        pose proof (IS_ERR_nonzero _ Ee) as Hnz. apply Z.eqb_neq in Hnz.
        rewrite Hnz. intros j Hj.
        rewrite !bar_at_set_bar by lia.
        destruct (Z.eqb_spec j i); [lia |]. apply Hagree. lia.
      * destruct (IH (i + 1)
                    (set_bar (set_bar p1 i (mk_bar (len (bar_at p1 i)) (ioremap_ret e i)))
                             i (mk_bar (resource_len e i) (ioremap_ret e i)))
                    (set_bar (set_bar p2 i (mk_bar (len (bar_at p2 i)) (ioremap_ret e i)))
                             i (mk_bar (resource_len e i) (ioremap_ret e i)))
                    (ioremap i (ioremap_ret e i) k))
          as (err & i' & q1 & q2 & k' & E1 & E2 & L1 & L2 & Hi' & Hq).
        -- lia.
        -- now rewrite !set_bar_length.
        -- rewrite !set_bar_length. lia.
        -- intros j Hj.
           rewrite !bar_at_set_bar by (rewrite ?set_bar_length; lia).
           destruct (Z.eqb_spec j i); [reflexivity |]. apply Hagree. lia.
        -- exists err, i', q1, q2, k'. rewrite !set_bar_length in L1, L2.
           split; [exact E1 |]. split; [exact E2 |].
           split; [exact L1 |]. split; [exact L2 |]. split; [lia |].
           intros j Hj. apply Hq. destruct (err =? 0); lia.
    + destruct (IH (i + 1) (set_bar p1 i (mk_bar 0 NULL))
                  (set_bar p2 i (mk_bar 0 NULL)) k)
        as (err & i' & q1 & q2 & k' & E1 & E2 & L1 & L2 & Hi' & Hq).
      * lia.
      * now rewrite !set_bar_length.
      * rewrite !set_bar_length. lia.
      * intros j Hj. rewrite !bar_at_set_bar by lia.
        destruct (Z.eqb_spec j i); [reflexivity |]. apply Hagree. lia.
      * exists err, i', q1, q2, k'. rewrite !set_bar_length in L1, L2.
        split; [exact E1 |]. split; [exact E2 |].
        split; [exact L1 |]. split; [exact L2 |]. split; [lia |].
        intros j Hj. apply Hq. destruct (err =? 0); lia.
Qed.

Lemma unmap_below_ext n : forall p1 p2 k,
  (forall j, 0 <= j < Z.of_nat n -> bar_at p1 j = bar_at p2 j) ->
  unmap_below n p1 k = unmap_below n p2 k.
Proof.
  induction n as [| n IH]; intros p1 p2 k H; [reflexivity |].
  cbn [unmap_below]. rewrite (H (Z.of_nat n)) by lia.
  apply IH. intros j Hj. apply H. lia.
Qed.

(** X9.  [pci_probe] behaves the same whatever the allocated record held:
    return value and kernel state do not depend on the old contents, in
    particular not on a length left in a slot the loop did not reach. *)
Theorem pci_probe_ignores_junk (e : pci_dev) (jb : Z -> bar_t) (jm : Z)
    (k : kernel) :
  pci_probe (set_junk e jb jm) k = pci_probe e k.
Proof.
  unfold pci_probe.
  cbn [set_junk kmalloc_ok enable_ret request_ret chrdev_ret cdev_add_ret
       dev_num].
  destruct (kmalloc_ok e); cbn [negb]; [| reflexivity].
  destruct (enable_ret e =? 0); cbn [negb]; [| reflexivity].
  destruct (request_ret e =? 0); cbn [negb]; [| reflexivity].
  rewrite map_loop_set_junk.
  set (k0 := logged RequestRegions true _).
  destruct (map_loop_rel e 6 0 (junk_record (set_junk e jb jm)) (junk_record e) k0)
    as (err & i & q1 & q2 & k1 & E1 & E2 & L1 & L2 & Hi & Hq);
    [lia | reflexivity | cbn; lia | intros j Hj; lia |].
  rewrite E1, E2.
  destruct (Z.eqb_spec err 0) as [-> | Herr]; cbn [negb].
  - assert (Hb : bar q1 = bar q2).
    { assert (Hrec : mk_pci_char (bar q1) 0 = mk_pci_char (bar q2) 0).
      { apply bars_ext; [exact L1 | exact L2 | reflexivity |].
        intros j Hj. change (bar_at q1 j = bar_at q2 j). apply Hq.
        cbn. lia. }
      now injection Hrec. }
    rewrite Hb. rewrite (failure_alloc_chrdev_region_bar q1 q2) by exact Hb.
    destruct (chrdev_ret e =? 0); cbn [negb]; [| reflexivity].
    destruct (cdev_add_ret e =? 0); cbn [negb]; [| reflexivity].
    rewrite create_loop_set_junk. reflexivity.
  - rewrite (unmap_below_ext (Z.to_nat i) q1 q2); [reflexivity |].
    intros j Hj. apply Hq. lia.
Qed.

(** ** Node names *)

Lemma digits_one base fuel n :
  n < base -> digits base (S fuel) n = [n].
Proof. intros H. cbn [digits]. apply Z.ltb_lt in H. now rewrite H. Qed.

Lemma digits_two base fuel n :
  0 < base -> base <= n < base * base ->
  digits base (S (S fuel)) n = [n / base; n mod base].
Proof.
  intros Hb Hn. cbn [digits].
  destruct (Z.ltb_spec n base); [lia |].
  destruct (Z.ltb_spec (n / base) base) as [_ | H']; [reflexivity |].
  exfalso. assert (n / base < base); [| lia].
  apply Z.div_lt_upper_bound; lia.
Qed.

Lemma PCI_SLOT_div devfn : 0 <= devfn < 256 -> PCI_SLOT devfn = devfn / 8.
Proof.
  intros H. unfold PCI_SLOT. change 31 with (Z.ones 5).
  rewrite Z.land_ones, Z.shiftr_div_pow2 by lia.
  change (2 ^ 3) with 8. change (2 ^ 5) with 32.
  apply Z.mod_small. split; [apply Z.div_pos; lia |].
  apply Z.div_lt_upper_bound; lia.
Qed.

Lemma PCI_FUNC_mod devfn : PCI_FUNC devfn = devfn mod 8.
Proof.
  unfold PCI_FUNC. change 7 with (Z.ones 3). now rewrite Z.land_ones by lia.
Qed.

(** The minor number of the node [pci_probe] creates for BAR [i] is [i]:
    it is what [dev_open] reads back with [iminor]. *)
Lemma MINOR_MKDEV ma i :
  0 <= i < 2 ^ 20 -> MINOR (MKDEV ma i) = i.
Proof.
  intros Hi. unfold MINOR, MKDEV, MINORBITS.
  change (2 ^ 20 - 1) with (Z.ones 20).
  rewrite Z.land_ones by lia. 
  apply Z.bits_inj'. intros n Hn.
  destruct (Z.lt_ge_cases n 20) as [Hlt | Hge].
  - rewrite Z.mod_pow2_bits_low by lia.
    rewrite Z.lor_spec, Z.shiftl_spec by lia.
    rewrite (Z.testbit_neg_r ma) by lia. reflexivity.
  - rewrite Z.mod_pow2_bits_high by lia. symmetry.
    destruct (Z.eq_dec i 0) as [-> | Hnz]; [apply Z.bits_0 |].
    apply Z.bits_above_log2; [lia |].
    apply Z.lt_le_trans with 20; [| exact Hge].
    apply Z.log2_lt_pow2; lia.
Qed.

Module NamesFacts.
Import Ascii String Names.

Lemma digit_char_inj d d' :
  0 <= d < 16 -> 0 <= d' < 16 -> digit_char d = digit_char d' -> d = d'.
Proof.
  intros Hd Hd' H. unfold digit_char in H.
  apply (f_equal nat_of_ascii) in H.
  destruct (Z.ltb_spec d 10); destruct (Z.ltb_spec d' 10);
    rewrite !nat_ascii_embedding in H by lia; lia.
Qed.

Lemma fmt_x_one n : 0 <= n < 16 -> fmt_x n = [digit_char n].
Proof.
  intros H. unfold fmt_x, to_u32. rewrite Z.mod_small by lia.
  rewrite digits_one by lia. reflexivity.
Qed.

Lemma fmt_x_two n :
  16 <= n < 256 -> fmt_x n = [digit_char (n / 16); digit_char (n mod 16)].
Proof.
  intros H. unfold fmt_x, to_u32. rewrite Z.mod_small by lia.
  rewrite digits_two by lia. reflexivity.
Qed.

Lemma fmt_02x_byte n :
  0 <= n < 256 -> fmt_02x n = [digit_char (n / 16); digit_char (n mod 16)].
Proof.
  intros H. unfold fmt_02x. destruct (Z.lt_ge_cases n 16) as [Hs | Hb].
  - rewrite fmt_x_one by lia. cbn [List.length Nat.sub repeat app].
    rewrite Z.div_small, Z.mod_small by lia. reflexivity.
  - rewrite fmt_x_two by lia. reflexivity.
Qed.

Lemma fmt_d_one i : 0 <= i < 10 -> fmt_d i = [digit_char i].
Proof.
  intros H. unfold fmt_d.
  assert (E : to_s32 i = i) by zwrap. rewrite E.
  destruct (Z.ltb_spec i 0); [lia |].
  rewrite digits_one by lia. reflexivity.
Qed.

Lemma byte_of_digits n n' :
  0 <= n < 256 -> 0 <= n' < 256 ->
  digit_char (n / 16) = digit_char (n' / 16) ->
  digit_char (n mod 16) = digit_char (n' mod 16) ->
  n = n'.
Proof.
  intros Hn Hn' Hq Hr.
  apply digit_char_inj in Hq;
    [| split; [apply Z.div_pos | apply Z.div_lt_upper_bound]; lia
     | split; [apply Z.div_pos | apply Z.div_lt_upper_bound]; lia].
  apply digit_char_inj in Hr; [| apply Z.mod_pos_bound; lia ..].
  rewrite (Z.div_mod n 16), (Z.div_mod n' 16) by lia. now rewrite Hq, Hr.
Qed.

Lemma devfn_of_parts v v' :
  0 <= v < 256 -> 0 <= v' < 256 ->
  PCI_SLOT v = PCI_SLOT v' -> PCI_FUNC v = PCI_FUNC v' -> v = v'.
Proof.
  intros Hv Hv'. rewrite !PCI_SLOT_div, !PCI_FUNC_mod by assumption.
  intros Hs Hf.
  rewrite (Z.div_mod v 8), (Z.div_mod v' 8) by lia. now rewrite Hs, Hf.
Qed.

Lemma slot_range v : 0 <= v < 256 -> 0 <= PCI_SLOT v < 32.
Proof.
  intros H. rewrite PCI_SLOT_div by exact H.
  split; [apply Z.div_pos; lia | apply Z.div_lt_upper_bound; lia].
Qed.

Lemma func_range v : 0 <= PCI_FUNC v < 8.
Proof. rewrite PCI_FUNC_mod. apply Z.mod_pos_bound. lia. Qed.

Lemma string_of_list_ascii_inj l l' :
  string_of_list_ascii l = string_of_list_ascii l' -> l = l'.
Proof.
  intros H. apply (f_equal list_ascii_of_string) in H.
  now rewrite !list_ascii_of_string_of_list_ascii in H.
Qed.

Lemma fmt_x_byte_cases n :
  0 <= n < 256 ->
  (n < 16 /\ fmt_x n = [digit_char n])
  \/ (16 <= n /\ fmt_x n = [digit_char (n / 16); digit_char (n mod 16)]).
Proof.
  intros H. destruct (Z.lt_ge_cases n 16).
  - left. split; [assumption | apply fmt_x_one; lia].
  - right. split; [assumption | apply fmt_x_two; lia].
Qed.

Lemma fmt_x_slot_cases n :
  0 <= n < 32 ->
  (n < 16 /\ fmt_x n = [digit_char n])
  \/ (16 <= n /\ fmt_x n = ["1"%char; digit_char (n - 16)]).
Proof.
  intros H. destruct (Z.lt_ge_cases n 16).
  - left. split; [assumption | apply fmt_x_one; lia].
  - right. split; [assumption |]. rewrite fmt_x_two by lia.
    replace (n / 16) with 1
      by (apply Z.div_unique with (n - 16); lia).
    replace (n mod 16) with (n - 16)
      by (apply Z.mod_unique with 1; lia).
    reflexivity.
Qed.

Lemma devnode_chars (bus devfn ma i : Z) :
  0 <= bus < 256 -> 0 <= devfn < 256 -> 0 <= i < 6 ->
  pci_char_devnode true bus devfn (MKDEV ma i)
  = Some (string_of_list_ascii
            (list_ascii_of_string "pci-char/"
               ++ [digit_char (bus / 16); digit_char (bus mod 16); ":"%char;
                   digit_char (devfn / 8 / 16); digit_char (devfn / 8 mod 16);
                   "."%char; "0"%char; digit_char (devfn mod 8)]
               ++ list_ascii_of_string "/bar" ++ [digit_char i])).
Proof.
  intros Hb Hv Hi. unfold pci_char_devnode.
  pose proof (slot_range devfn Hv) as Hs.
  pose proof (func_range devfn) as Hf.
  rewrite MINOR_MKDEV by lia.
  rewrite !fmt_02x_byte by lia. rewrite fmt_d_one by lia.
  rewrite PCI_SLOT_div by exact Hv. rewrite PCI_FUNC_mod in *.
  rewrite (Z.div_small (devfn mod 8) 16) by lia.
  rewrite (Z.mod_small (devfn mod 8) 16) by lia.
  reflexivity.
Qed.

(** X12.  The path under /dev of the node of BAR [i] (the node [pci_probe]
    creates with device number [MKDEV(major, i)]) is
    [pci-char/BB:SS.FF/bar<i>]: bus, slot and function as two hexadecimal
    digits each, then the BAR index; it has 22 characters and does not
    depend on the major number. *)
Theorem devnode_path (bus devfn ma i : Z) :
  0 <= bus < 256 -> 0 <= devfn < 256 -> 0 <= i < 6 ->
  exists p,
    pci_char_devnode true bus devfn (MKDEV ma i) = Some p
    /\ p = string_of_list_ascii
             (list_ascii_of_string "pci-char/"
                ++ [digit_char (bus / 16); digit_char (bus mod 16); ":"%char;
                    digit_char (PCI_SLOT devfn / 16);
                    digit_char (PCI_SLOT devfn mod 16);
                    "."%char; "0"%char; digit_char (PCI_FUNC devfn)]
                ++ list_ascii_of_string "/bar" ++ [digit_char i])
    /\ String.length p = 22%nat
    /\ pci_char_devnode true bus devfn (MKDEV 0 i) = Some p.
Proof.
  intros Hb Hv Hi.
  rewrite !devnode_chars by assumption.
  rewrite PCI_SLOT_div by exact Hv. rewrite PCI_FUNC_mod.
  eexists. split; [reflexivity |]. split; [reflexivity |].
  split; reflexivity.
Qed.

Lemma devnode_path_witness :
  exists p,
    pci_char_devnode true 1 1 (MKDEV 250 0) = Some p
    /\ p = "pci-char/01:00.01/bar0"%string
    /\ String.length p = 22%nat
    /\ pci_char_devnode true 1 1 (MKDEV 0 0) = Some p.
Proof.
  destruct (devnode_path 1 1 250 0) as (p & H1 & H2 & H3 & H4);
    [lia | lia | lia |].
  exists p. split; [exact H1 |]. split; [| split; assumption].
  rewrite H2. reflexivity.
Defined.

(** X13.  The paths are collision-free: the nodes of two BARs have the same path
    only if bus number, device/function and BAR index are the same. *)
Theorem devnode_paths_distinct (bus devfn ma i bus' devfn' ma' i' : Z) :
  0 <= bus < 256 -> 0 <= devfn < 256 -> 0 <= i < 6 ->
  0 <= bus' < 256 -> 0 <= devfn' < 256 -> 0 <= i' < 6 ->
  pci_char_devnode true bus devfn (MKDEV ma i)
  = pci_char_devnode true bus' devfn' (MKDEV ma' i') ->
  bus = bus' /\ devfn = devfn' /\ i = i'.
Proof.
  intros Hb Hv Hi Hb' Hv' Hi' H.
  rewrite !devnode_chars in H by assumption.
  apply (f_equal (fun o => match o with
                             | Some n => list_ascii_of_string n
                             | None => []
                             end)) in H.
  rewrite !list_ascii_of_string_of_list_ascii in H.
  cbn [list_ascii_of_string app] in H.
  injection H as B1 B0 S1 S0 F0 I0.
  split; [exact (byte_of_digits bus bus' Hb Hb' B1 B0) |].
  split.
  - pose proof (Z.mod_pos_bound devfn 8 ltac:(lia)) as Hf.
    pose proof (Z.mod_pos_bound devfn' 8 ltac:(lia)) as Hf'.
    apply digit_char_inj in F0; [| lia | lia].
    assert (Hs : devfn / 8 = devfn' / 8).
    { apply byte_of_digits; try assumption;
        (split; [apply Z.div_pos; lia | apply Z.div_lt_upper_bound; lia]). }
    rewrite (Z.div_mod devfn 8), (Z.div_mod devfn' 8) by lia.
    now rewrite Hs, F0.
  - apply digit_char_inj in I0; lia.
Qed.

Lemma devnode_paths_distinct_witness :
  pci_char_devnode true 1 9 (MKDEV 250 3)
  = pci_char_devnode true 1 9 (MKDEV 7 3)
  /\ (1 = 1 /\ 9 = 9 /\ 3 = 3).
Proof.
  split; [reflexivity |].
  apply (devnode_paths_distinct 1 9 250 3 1 9 7 3);
    [lia | lia | lia | lia | lia | lia | reflexivity].
Defined.

(** X14.  The names [pci_probe] hands to [device_create] are collision-free too,
    although the fields are not padded and the separators [d] and [f] are
    hexadecimal digits themselves: two names are equal only for the same
    bus number, device/function and BAR index. *)
Theorem device_names_distinct (bus devfn i bus' devfn' i' : Z) :
  0 <= bus < 256 -> 0 <= devfn < 256 -> 0 <= i < 6 ->
  0 <= bus' < 256 -> 0 <= devfn' < 256 -> 0 <= i' < 6 ->
  device_name bus devfn i = device_name bus' devfn' i' ->
  bus = bus' /\ devfn = devfn' /\ i = i'.
Proof.
  intros Hb Hv Hi Hb' Hv' Hi' H.
  unfold device_name in H. apply string_of_list_ascii_inj in H.
  pose proof (slot_range devfn Hv) as Hs.
  pose proof (slot_range devfn' Hv') as Hs'.
  pose proof (func_range devfn) as Hf.
  pose proof (func_range devfn') as Hf'.
  rewrite (fmt_x_one (PCI_FUNC devfn)), (fmt_x_one (PCI_FUNC devfn')) in H
    by lia.
  rewrite (fmt_d_one i), (fmt_d_one i') in H by lia.
  assert (Hparts : bus = bus' /\ PCI_SLOT devfn = PCI_SLOT devfn'
                   /\ PCI_FUNC devfn = PCI_FUNC devfn' /\ i = i').
  { destruct (fmt_x_byte_cases bus Hb) as [[Hb1 Eb] | [Hb1 Eb]];
      destruct (fmt_x_byte_cases bus' Hb') as [[Hb1' Eb'] | [Hb1' Eb']];
      destruct (fmt_x_slot_cases _ Hs) as [[Hs1 Es] | [Hs1 Es]];
      destruct (fmt_x_slot_cases _ Hs') as [[Hs1' Es'] | [Hs1' Es']];
      rewrite Eb, Eb', Es, Es' in H;
      cbn [list_ascii_of_string app] in H;
      try discriminate H;
      injection H; intros;
      try discriminate;
      repeat match goal with
             | E : digit_char ?x = digit_char ?y |- _ =>
                 apply digit_char_inj in E; [| lia | lia]
             end;
      try (repeat split; lia).
    all: repeat split; try lia.
    all: apply byte_of_digits; assumption. }
  destruct Hparts as (E1 & E2 & E3 & E4).
  split; [exact E1 |]. split; [| exact E4].
  apply devfn_of_parts; assumption.
Qed.

Lemma device_names_distinct_witness :
  device_name 29 106 3 = device_name 29 106 3
  /\ (29 = 29 /\ 106 = 106 /\ 3 = 3).
Proof.
  split; [reflexivity |].
  apply (device_names_distinct 29 106 3 29 106 3);
    [lia | lia | lia | lia | lia | lia | reflexivity].
Defined.

End NamesFacts.

(** ** Module init and exit *)

Module InitFacts.
Import Ascii String Init.

Lemma tokens_cons s : exists t ts, tokens s = t :: ts.
Proof.
  destruct s as [| c r]; cbn [tokens]; [eauto |].
  destruct (Ascii.eqb c ","%char); [eauto |].
  destruct (tokens r); eauto.
Qed.

Lemma tokens_app a b :
  tokens (a ++ String ","%char b) = (tokens a ++ tokens b)%list.
Proof.
  induction a as [| c a IH].
  - reflexivity.
  - cbn [append tokens]. rewrite IH.
    destruct (Ascii.eqb c ","%char); [reflexivity |].
    destruct (tokens_cons a) as (t & ts & ->). reflexivity.
Qed.

Lemma added_app l1 l2 : added (l1 ++ l2) = (added l1 ++ added l2)%list.
Proof.
  induction l1 as [| c l1 IH]; [reflexivity |].
  destruct c; cbn [added List.app]; rewrite IH; reflexivity.
Qed.

(** One entry: the flags stay, the log grows, and the identities handed
    over are [entry_ids], whatever [pci_add_dynid] returns. *)
Lemma add_id_spec env st id :
  m_class (add_id env st id) = m_class st
  /\ m_driver (add_id env st id) = m_driver st
  /\ added (m_log (add_id env st id))
     = (added (m_log st) ++ entry_ids env id)%list.
Proof.
  unfold add_id, entry_ids.
  destruct (String.length id =? 0)%nat;
    [now rewrite List.app_nil_r |].
  destruct (Z.of_nat (List.length (firstn 6 (sscanf_ids env id))) <? 2).
  - cbn [noted m_class m_driver m_log]. rewrite added_app. cbn [added].
    repeat split.
  - destruct (add_dynid_ret env (dynid_of (firstn 6 (sscanf_ids env id))) =? 0);
      cbn [negb noted m_class m_driver m_log];
      rewrite !added_app; cbn [added]; rewrite <- ?List.app_assoc;
      cbn [List.app]; rewrite ?List.app_nil_r; repeat split.
Qed.

Lemma fold_add_id_spec env ids : forall st,
  m_class (fold_left (add_id env) ids st) = m_class st
  /\ m_driver (fold_left (add_id env) ids st) = m_driver st
  /\ added (m_log (fold_left (add_id env) ids st))
     = (added (m_log st) ++ flat_map (entry_ids env) ids)%list.
Proof.
  induction ids as [| id ids IH]; intros st.
  - cbn. now rewrite List.app_nil_r.
  - cbn [fold_left flat_map].
    destruct (IH (add_id env st id)) as (H1 & H2 & H3).
    destruct (add_id_spec env st id) as (G1 & G2 & G3).
    rewrite H1, H2, H3, G1, G2, G3. rewrite <- List.app_assoc. repeat split.
Qed.

(** The identities [pci_init] registers, when class and driver come up:
    those of the non-empty entries with at least two fields, in the order
    of the list; malformed entries and failing [pci_add_dynid] calls stop
    nothing. *)
Lemma pci_init_added env ids :
  IS_ERR (class_create_ret env) = false -> register_ret env = 0 ->
  added (m_log (snd (pci_init env ids mstate_init)))
  = flat_map (entry_ids env) (tokens ids).
Proof.
  intros Hc Hr. unfold pci_init. rewrite Hc, Hr. cbn [Z.eqb negb].
  destruct ids as [| c r]; [reflexivity |].
  cbn [snd].
  destruct (fold_add_id_spec env (tokens (String c r))
              (noted RegisterDriver
                 (mk_mstate
                    (m_class (noted ClassCreate (mk_mstate (negb false) false [])))
                    true
                    (m_log (noted ClassCreate (mk_mstate (negb false) false []))))))
    as (_ & _ & H).
  exact H.
Qed.

Lemma pci_init_up env ids :
  IS_ERR (class_create_ret env) = false -> register_ret env = 0 ->
  fst (pci_init env ids mstate_init) = 0
  /\ m_class (snd (pci_init env ids mstate_init)) = true
  /\ m_driver (snd (pci_init env ids mstate_init)) = true.
Proof.
  intros Hc Hr. unfold pci_init. rewrite Hc, Hr. cbn [Z.eqb negb].
  destruct ids as [| c r]; [repeat split |]. cbn [fst snd].
  split; [reflexivity |]. split.
  - now rewrite (proj1 (fold_add_id_spec env _ _)).
  - now rewrite (proj1 (proj2 (fold_add_id_spec env _ _))).
Qed.

(** X15.  When [class_create] and [pci_register_driver] succeed, [pci_init]
    returns 0 with class and driver in place, whatever the list holds and
    whatever [sscanf] and [pci_add_dynid] answer; the identities it hands to
    [pci_add_dynid] are those of the non-empty entries with at least two
    fields, in the order of the list, with [PCI_ANY_ID], [PCI_ANY_ID], 0, 0
    for the fields an entry leaves out; and [pci_exit] then leaves neither
    driver nor class. *)
Theorem pci_init_registers (env : init_env) (ids : string) :
  IS_ERR (class_create_ret env) = false -> register_ret env = 0 ->
  fst (pci_init env ids mstate_init) = 0
  /\ m_class (snd (pci_init env ids mstate_init)) = true
  /\ m_driver (snd (pci_init env ids mstate_init)) = true
  /\ added (m_log (snd (pci_init env ids mstate_init)))
     = flat_map (entry_ids env) (tokens ids)
  /\ m_class (pci_exit (snd (pci_init env ids mstate_init))) = false
  /\ m_driver (pci_exit (snd (pci_init env ids mstate_init))) = false.
Proof.
  intros Hc Hr.
  destruct (pci_init_up env ids Hc Hr) as (H0 & H1 & H2).
  split; [exact H0 |]. split; [exact H1 |]. split; [exact H2 |].
  split; [now apply pci_init_added |]. split; reflexivity.
Qed.

Lemma pci_init_registers_witness :
  fst (pci_init env_sample "10ee:7014,zz,,10ee:7014" mstate_init) = 0
  /\ m_class (snd (pci_init env_sample "10ee:7014,zz,,10ee:7014" mstate_init))
     = true
  /\ m_driver (snd (pci_init env_sample "10ee:7014,zz,,10ee:7014" mstate_init))
     = true
  /\ added (m_log (snd (pci_init env_sample "10ee:7014,zz,,10ee:7014"
                                 mstate_init)))
     = flat_map (entry_ids env_sample) (tokens "10ee:7014,zz,,10ee:7014")
  /\ m_class (pci_exit (snd (pci_init env_sample "10ee:7014,zz,,10ee:7014"
                                      mstate_init))) = false
  /\ m_driver (pci_exit (snd (pci_init env_sample "10ee:7014,zz,,10ee:7014"
                                       mstate_init))) = false.
Proof.
  apply (pci_init_registers env_sample "10ee:7014,zz,,10ee:7014");
    reflexivity.
Defined.

(** X16.  A list is processed entry by entry: for the list [a,b] the identities
    handed to [pci_add_dynid] are those for [a] followed by those for [b].
    This holds whatever the kernel answers; in particular a malformed
    entry or a failed [pci_add_dynid] in [a] takes nothing away from [b]. *)
Theorem pci_init_batch (env : init_env) (a b : string) :
  added (m_log (snd (pci_init env (a ++ String ","%char b) mstate_init)))
  = (added (m_log (snd (pci_init env a mstate_init)))
       ++ added (m_log (snd (pci_init env b mstate_init))))%list.
Proof.
  destruct (IS_ERR (class_create_ret env)) eqn:Hc.
  - unfold pci_init. rewrite Hc. reflexivity.
  - destruct (Z.eq_dec (register_ret env) 0) as [Hr | Hr].
    + rewrite !pci_init_added by assumption.
      rewrite tokens_app. apply flat_map_app.
    + unfold pci_init. rewrite Hc. apply Z.eqb_neq in Hr. rewrite Hr.
      reflexivity.
Qed.

(** X17.  [pci_init] fails exactly when [class_create] or [pci_register_driver]
    fails, never because of the list of identities; it then returns that
    error, has handed no identity to [pci_add_dynid], and leaves neither
    class nor driver behind. *)
Theorem pci_init_failure (env : init_env) (ids : string) :
  (fst (pci_init env ids mstate_init) = 0
   <-> IS_ERR (class_create_ret env) = false /\ register_ret env = 0)
  /\ (fst (pci_init env ids mstate_init) <> 0 ->
      fst (pci_init env ids mstate_init)
      = (if IS_ERR (class_create_ret env)
         then to_s32 (PTR_ERR (class_create_ret env))
         else register_ret env)
      /\ m_class (snd (pci_init env ids mstate_init)) = false
      /\ m_driver (snd (pci_init env ids mstate_init)) = false
      /\ added (m_log (snd (pci_init env ids mstate_init))) = []).
Proof.
  destruct (IS_ERR (class_create_ret env)) eqn:Hc.
  - pose proof (IS_ERR_nonzero _ Hc) as Hnz.
    unfold pci_init. rewrite Hc. cbn [fst snd]. split.
    + split; [contradiction | intros [H _]; discriminate H].
    + intros _. repeat split.
  - destruct (Z.eq_dec (register_ret env) 0) as [Hr | Hr].
    + destruct (pci_init_up env ids Hc Hr) as (H0 & _).
      split; [split; [now split | intros _; exact H0] | contradiction].
    + unfold pci_init. rewrite Hc. pose proof Hr as Hr'.
      apply Z.eqb_neq in Hr'. rewrite Hr'. cbn [negb fst snd]. split.
      * split; [contradiction | intros [_ H]; contradiction].
      * intros _. repeat split.
Qed.

Lemma pci_init_failure_witness :
  fst (pci_init (mk_init_env 4096 (- ENOMEM) (fun _ => [1; 2]) (fun _ => 0))
                "1:2" mstate_init) = - ENOMEM
  /\ added (m_log (snd (pci_init
                          (mk_init_env 4096 (- ENOMEM) (fun _ => [1; 2])
                                       (fun _ => 0))
                          "1:2" mstate_init))) = [].
Proof.
  destruct (pci_init_failure
              (mk_init_env 4096 (- ENOMEM) (fun _ => [1; 2]) (fun _ => 0))
              "1:2") as [_ H].
  destruct H as (H0 & _ & _ & H3); [discriminate |].
  split; [exact H0 | exact H3].
Defined.

End InitFacts.

(** ** Nodes and sessions *)

(** X11.  Every node a successful attach publishes can be opened: its minor
    number is the index of a BAR of non-zero length in the published
    record, so [dev_open] on it returns 0 and the session is bound to that
    BAR. *)
Theorem published_nodes_open (e : pci_dev) (k : kernel) :
  pci_probe e kernel_init = (0, k) ->
  exists pchar,
    k_drvdata k = Some pchar
    /\ Forall (fun d =>
                 0 <= MINOR d <= 5
                 /\ d = MKDEV (major pchar) (MINOR d)
                 /\ len (bar_at pchar (MINOR d)) <> 0
                 /\ dev_open pchar (fresh_file (MINOR d))
                    = (0, mk_file (MINOR d) 0 (Some pchar)))
              (k_nodes k).
Proof.
  intros H. apply pci_probe_success in H. destruct H as [-> _].
  exists (probe_record e). kproj. split; [reflexivity |].
  apply Forall_forall. intros d Hd. unfold node_ids in Hd.
  apply in_map_iff in Hd. destruct Hd as (i & <- & Hi).
  unfold live_bars in Hi. apply filter_In in Hi. destruct Hi as [Hi Hlen].
  apply In_six in Hi. rewrite MINOR_MKDEV by lia.
  apply negb_true_iff, Z.eqb_neq in Hlen.
  split; [lia |]. split; [reflexivity |]. split; [exact Hlen |].
  unfold dev_open, fresh_file. cbn [iminor f_pos private_data].
  destruct (Z.ltb_spec 5 i); [lia |].
  apply Z.eqb_neq in Hlen. now rewrite Hlen.
Qed.

Lemma published_nodes_open_witness :
  exists pchar,
    k_drvdata (snd (pci_probe dev_sample kernel_init)) = Some pchar
    /\ Forall (fun d =>
                 0 <= MINOR d <= 5
                 /\ d = MKDEV (major pchar) (MINOR d)
                 /\ len (bar_at pchar (MINOR d)) <> 0
                 /\ dev_open pchar (fresh_file (MINOR d))
                    = (0, mk_file (MINOR d) 0 (Some pchar)))
              (k_nodes (snd (pci_probe dev_sample kernel_init))).
Proof.
  apply (published_nodes_open dev_sample).
  vm_compute. reflexivity.
Defined.
